(** * Blog platform: storage layer and HTTP routes

    A shallow embedding of [server/storage.ts], [server/routes.ts] and the
    constraints of [shared/schema.ts], with the properties of the
    specification stated and settled against it.

    Conventions.
    - JavaScript numbers that hold ids, counters, page numbers and
      millisecond timestamps are integers of [Z].
    - A [Date] is represented by its [getTime()] value.
    - [null], [undefined] and an absent optional property are all [None];
      so is the [publishedAt] of a post that was created without one.
    - An [async] method is a function from the store to an outcome
      (resolved or rejected) and the store afterwards.
    - [Math.ceil(a / b)] is the integer ceiling; the quotient of two
      integers below 2^53 is never rounded across an integer. *)

From Stdlib Require Import ZArith List String Ascii Bool Lia Sorted Permutation.
Import ListNotations.
Open Scope Z_scope.

(* ================================================================= *)
(** ** JavaScript built-ins used by the code                          *)
(* ================================================================= *)

Module Js.

Section Arrays.
Context {A : Type}.

(** Relative index of [Array.prototype.slice]: a negative index counts
    from the end, and the result is clamped to [0 .. len]. *)
Definition relativeIndex (len k : Z) : Z :=
  if k <? 0 then Z.max (len + k) 0 else Z.min k len.

(** [arr.slice(start, end)] *)
Definition slice (l : list A) (start stop : Z) : list A :=
  let len := Z.of_nat (List.length l) in
  let from := relativeIndex len start in
  let to := relativeIndex len stop in
  firstn (Z.to_nat (to - from)) (skipn (Z.to_nat from) l).

(** [arr.sort(cmp)]: the sort is stable, and with a consistent comparator
    the result is the unique stable ordering; [a] is placed before [b]
    when [cmp a b < 0], and equal elements keep their relative order.  A
    comparator that is not consistent leaves the order to the engine: the
    one taken here inserts from the right, and returns an array whose
    neighbours all compare in order as it is. *)
Fixpoint insert (cmp : A -> A -> Z) (x : A) (l : list A) : list A :=
  match l with
  | [] => [x]
  | y :: l' => if cmp x y <=? 0 then x :: l else y :: insert cmp x l'
  end.

Definition sort (cmp : A -> A -> Z) (l : list A) : list A :=
  fold_right (insert cmp) [] l.

(** [arr.find(p)], [arr.filter(p)] *)
Definition find (p : A -> bool) (l : list A) : option A := List.find p l.
Definition filter (p : A -> bool) (l : list A) : list A := List.filter p l.
End Arrays.

(** [arr.includes(x)] on an array of numbers *)
Definition includes (l : list Z) (x : Z) : bool := existsb (Z.eqb x) l.

(** A [Map<number, V>]: the entries in insertion order. *)
Definition Map (V : Type) : Type := list (Z * V).

Section Maps.
Context {V : Type}.

Definition has (k : Z) (m : Map V) : bool :=
  existsb (fun e => fst e =? k) m.

Definition get (k : Z) (m : Map V) : option V :=
  option_map snd (List.find (fun e => fst e =? k) m).

(** [m.set(k, v)]: an existing key keeps its position, a new key goes
    last. *)
Definition set (k : Z) (v : V) (m : Map V) : Map V :=
  if has k m
  then map (fun e => if fst e =? k then (k, v) else e) m
  else m ++ [(k, v)].

(** [m.delete(k)]: whether the key was there, and the map without it. *)
Definition delete (k : Z) (m : Map V) : bool * Map V :=
  (has k m, List.filter (fun e => negb (fst e =? k)) m).

(** [Array.from(m.values())] *)
Definition values (m : Map V) : list V := map snd m.

Definition size (m : Map V) : Z := Z.of_nat (List.length m).
End Maps.

(** Strings of ASCII characters. *)

(** [s.startsWith(pat)] *)
Fixpoint startsWith (s pat : string) : bool :=
  match pat with
  | EmptyString => true
  | String a pat' =>
      match s with
      | EmptyString => false
      | String b s' => Ascii.eqb a b && startsWith s' pat'
      end
  end.

Definition between (lo hi : nat) (c : ascii) : bool :=
  (Nat.leb lo (nat_of_ascii c) && Nat.leb (nat_of_ascii c) hi)%bool.

(** The class [\s]: tab, line feed, vertical tab, form feed, carriage
    return and space. *)
Definition isWhitespace (c : ascii) : bool :=
  between 9 13 c || between 32 32 c.

(** The class [\w]: letters, digits and the underscore. *)
Definition isWord (c : ascii) : bool :=
  between 48 57 c || between 65 90 c || between 97 122 c || between 95 95 c.

(** [s.toLowerCase()] *)
Fixpoint toLowerCase (s : string) : string :=
  match s with
  | EmptyString => EmptyString
  | String c s' =>
      String (if between 65 90 c then ascii_of_nat (nat_of_ascii c + 32)
              else c)
             (toLowerCase s')
  end.

(** [s.replace(/\s+/g, r)]: [inRun] tells that the character before was
    whitespace too. *)
Fixpoint replaceSpaces (r : string) (inRun : bool) (s : string) : string :=
  match s with
  | EmptyString => EmptyString
  | String c s' =>
      if isWhitespace c
      then if inRun then replaceSpaces r true s'
           else String.append r (replaceSpaces r true s')
      else String c (replaceSpaces r false s')
  end.

(** [s.replace(/[^\w\-]+/g, '')] *)
Fixpoint keepWordsAndHyphens (s : string) : string :=
  match s with
  | EmptyString => EmptyString
  | String c s' =>
      if isWord c || between 45 45 c
      then String c (keepWordsAndHyphens s')
      else keepWordsAndHyphens s'
  end.

(** [s.match(/a1|a2|.../g) || []] for literal, non-empty alternatives: at
    each position the first alternative that matches is taken and the
    search goes on behind it; [skip] counts the characters of a match
    still to pass. *)
Fixpoint matchLiterals (alts : list string) (skip : nat) (s : string)
  : list string :=
  match s with
  | EmptyString => []
  | String _ s' =>
      match skip with
      | S k => matchLiterals alts k s'
      | O =>
          match List.find (startsWith s) alts with
          | Some a => a :: matchLiterals alts (String.length a - 1) s'
          | None => matchLiterals alts 0 s'
          end
      end
  end.

(** [[...new Set(xs)]]: the first occurrence of each string, in order. *)
Fixpoint unique (seen xs : list string) : list string :=
  match xs with
  | [] => []
  | x :: xs' =>
      if existsb (String.eqb x) seen then unique seen xs'
      else x :: unique (x :: seen) xs'
  end.

End Js.

(* ================================================================= *)
(** ** Row types of [shared/schema.ts]                                *)
(* ================================================================= *)

Module User.
Record t := mk { id : Z; username : string; password : string }.
End User.

Module InsertUser.
Record t := mk { username : string; password : string }.
End InsertUser.

Module Post.
Record t := mk {
  id : Z;
  slug : string;
  title : string;
  excerpt : string;
  content : string;
  coverImage : option string;
  publishedAt : option Z;
  readingTime : string;
  authorId : option Z
}.
End Post.

(** [InsertPost]: [coverImage], [publishedAt] and [authorId] are optional,
    the columns being nullable or having a default. *)
Module InsertPost.
Record t := mk {
  slug : string;
  title : string;
  excerpt : string;
  content : string;
  coverImage : option string;
  publishedAt : option Z;
  readingTime : string;
  authorId : option Z
}.
End InsertPost.

(** [Partial<InsertPost>]: [None] is a property that is not given. *)
Module PartialInsertPost.
Record t := mk {
  slug : option string;
  title : option string;
  excerpt : option string;
  content : option string;
  coverImage : option (option string);
  publishedAt : option Z;
  readingTime : option string;
  authorId : option (option Z)
}.
End PartialInsertPost.

Module Tag.
Record t := mk { id : Z; name : string; slug : string }.
End Tag.

Module InsertTag.
Record t := mk { name : string; slug : string }.
End InsertTag.

Module PostTag.
Record t := mk { id : Z; postId : Z; tagId : Z }.
End PostTag.

Module InsertPostTag.
Record t := mk { postId : Z; tagId : Z }.
End InsertPostTag.

Module Subscriber.
Record t := mk { id : Z; email : string; createdAt : Z }.
End Subscriber.

Module InsertSubscriber.
Record t := mk { email : string }.
End InsertSubscriber.

(** [{ ...insertX, id }] *)
Definition user_of (ins : InsertUser.t) (id : Z) : User.t :=
  User.mk id (InsertUser.username ins) (InsertUser.password ins).

Definition post_of (ins : InsertPost.t) (id : Z) : Post.t :=
  Post.mk id (InsertPost.slug ins) (InsertPost.title ins)
    (InsertPost.excerpt ins) (InsertPost.content ins)
    (InsertPost.coverImage ins) (InsertPost.publishedAt ins)
    (InsertPost.readingTime ins) (InsertPost.authorId ins).

Definition tag_of (ins : InsertTag.t) (id : Z) : Tag.t :=
  Tag.mk id (InsertTag.name ins) (InsertTag.slug ins).

Definition postTag_of (ins : InsertPostTag.t) (id : Z) : PostTag.t :=
  PostTag.mk id (InsertPostTag.postId ins) (InsertPostTag.tagId ins).

Definition subscriber_of (ins : InsertSubscriber.t) (id now : Z)
  : Subscriber.t :=
  Subscriber.mk id (InsertSubscriber.email ins) now.

Definition orElse {A : Type} (o : option A) (d : A) : A :=
  match o with Some a => a | None => d end.

(** [{ ...post, ...postUpdates }] *)
Definition apply_updates (p : Post.t) (u : PartialInsertPost.t) : Post.t :=
  Post.mk (Post.id p)
    (orElse (PartialInsertPost.slug u) (Post.slug p))
    (orElse (PartialInsertPost.title u) (Post.title p))
    (orElse (PartialInsertPost.excerpt u) (Post.excerpt p))
    (orElse (PartialInsertPost.content u) (Post.content p))
    (orElse (PartialInsertPost.coverImage u) (Post.coverImage p))
    (match PartialInsertPost.publishedAt u with
     | Some t => Some t
     | None => Post.publishedAt p
     end)
    (orElse (PartialInsertPost.readingTime u) (Post.readingTime p))
    (orElse (PartialInsertPost.authorId u) (Post.authorId p)).

(** The comparator of the post listings of the in-memory store:
    [new Date(b.publishedAt).getTime() - new Date(a.publishedAt).getTime()].
    For a post without [publishedAt] the time value is [NaN], and so is the
    difference, which [sort] takes for [+0]. *)
Definition byPublishedAtDesc (a b : Post.t) : Z :=
  match Post.publishedAt b, Post.publishedAt a with
  | Some tb, Some ta => tb - ta
  | _, _ => 0
  end.

(** The result of [getPaginatedPosts]. *)
Record PostsPage := mkPage { page_posts : list Post.t; page_total : Z }.

(* ================================================================= *)
(** ** The in-memory store                                            *)
(* ================================================================= *)

Module MemStorage.

Record t := mk {
  users : Js.Map User.t;
  posts : Js.Map Post.t;
  tags : Js.Map Tag.t;
  postTags : Js.Map PostTag.t;
  subscribers : Js.Map Subscriber.t;
  currentUserId : Z;
  currentPostId : Z;
  currentTagId : Z;
  currentPostTagId : Z;
  currentSubscriberId : Z
}.

(** The store of the constructor before it seeds. *)
Definition empty : t := mk [] [] [] [] [] 1 1 1 1 1.

(** *** User operations *)

Definition getUser (id : Z) (s : t) : option User.t :=
  Js.get id (users s).

Definition getUserByUsername (name : string) (s : t) : option User.t :=
  Js.find (fun u => String.eqb (User.username u) name) (Js.values (users s)).

Definition createUser (ins : InsertUser.t) (s : t) : User.t * t :=
  let id := currentUserId s in
  let user := user_of ins id in
  (user,
   mk (Js.set id user (users s)) (posts s) (tags s) (postTags s)
      (subscribers s) (id + 1) (currentPostId s) (currentTagId s)
      (currentPostTagId s) (currentSubscriberId s)).

(** *** Post operations *)

Definition getAllPosts (s : t) : list Post.t :=
  Js.sort byPublishedAtDesc (Js.values (posts s)).

Definition getPostById (id : Z) (s : t) : option Post.t :=
  Js.get id (posts s).

Definition getPostBySlug (slug : string) (s : t) : option Post.t :=
  Js.find (fun p => String.eqb (Post.slug p) slug) (Js.values (posts s)).

Definition with_posts (s : t) (ps : Js.Map Post.t) (next : Z) : t :=
  mk (users s) ps (tags s) (postTags s) (subscribers s)
     (currentUserId s) next (currentTagId s)
     (currentPostTagId s) (currentSubscriberId s).

Definition createPost (ins : InsertPost.t) (s : t) : Post.t * t :=
  let id := currentPostId s in
  let post := post_of ins id in
  (post, with_posts s (Js.set id post (posts s)) (id + 1)).

Definition updatePost (id : Z) (u : PartialInsertPost.t) (s : t)
  : option Post.t * t :=
  match Js.get id (posts s) with
  | None => (None, s)
  | Some post =>
      let updatedPost := apply_updates post u in
      (Some updatedPost,
       with_posts s (Js.set id updatedPost (posts s)) (currentPostId s))
  end.

Definition deletePost (id : Z) (s : t) : bool * t :=
  let '(existed, ps) := Js.delete id (posts s) in
  (existed, with_posts s ps (currentPostId s)).

Definition getFeaturedPost (s : t) : option Post.t :=
  let allPosts := getAllPosts s in
  match allPosts with
  | [] => None
  | p :: _ => Some p
  end.

Definition getPaginatedPosts (page limit : Z) (s : t) : PostsPage :=
  let allPosts := getAllPosts s in
  let startIndex := (page - 1) * limit in
  let endIndex := page * limit in
  mkPage (Js.slice allPosts startIndex endIndex)
         (Z.of_nat (List.length allPosts)).

(** *** Tag operations *)

Definition getAllTags (s : t) : list Tag.t := Js.values (tags s).

Definition getTagById (id : Z) (s : t) : option Tag.t :=
  Js.get id (tags s).

Definition getTagBySlug (slug : string) (s : t) : option Tag.t :=
  Js.find (fun g => String.eqb (Tag.slug g) slug) (Js.values (tags s)).

Definition createTag (ins : InsertTag.t) (s : t) : Tag.t * t :=
  let id := currentTagId s in
  let tag := tag_of ins id in
  (tag,
   mk (users s) (posts s) (Js.set id tag (tags s)) (postTags s)
      (subscribers s) (currentUserId s) (currentPostId s) (id + 1)
      (currentPostTagId s) (currentSubscriberId s)).

(** *** Post-tag operations *)

Definition getPostsByTagId (tagId : Z) (s : t) : list Post.t :=
  let postTagEntries :=
    Js.filter (fun pt => PostTag.tagId pt =? tagId)
              (Js.values (postTags s)) in
  let postIds := map PostTag.postId postTagEntries in
  Js.sort byPublishedAtDesc
    (Js.filter (fun post => Js.includes postIds (Post.id post))
               (Js.values (posts s))).

Definition getPostsByTagSlug (tagSlug : string) (s : t) : list Post.t :=
  match getTagBySlug tagSlug s with
  | None => []
  | Some tag => getPostsByTagId (Tag.id tag) s
  end.

Definition getTagsByPostId (postId : Z) (s : t) : list Tag.t :=
  let postTagEntries :=
    Js.filter (fun pt => PostTag.postId pt =? postId)
              (Js.values (postTags s)) in
  let tagIds := map PostTag.tagId postTagEntries in
  Js.filter (fun tag => Js.includes tagIds (Tag.id tag))
            (Js.values (tags s)).

Definition with_postTags (s : t) (pts : Js.Map PostTag.t) (next : Z) : t :=
  mk (users s) (posts s) (tags s) pts (subscribers s)
     (currentUserId s) (currentPostId s) (currentTagId s)
     next (currentSubscriberId s).

Definition addTagToPost (ins : InsertPostTag.t) (s : t) : PostTag.t * t :=
  let id := currentPostTagId s in
  let postTag := postTag_of ins id in
  (postTag, with_postTags s (Js.set id postTag (postTags s)) (id + 1)).

Definition removeTagFromPost (postId tagId : Z) (s : t) : bool * t :=
  let postTagEntry :=
    Js.find (fun pt => (PostTag.postId pt =? postId)
                       && (PostTag.tagId pt =? tagId))
            (Js.values (postTags s)) in
  match postTagEntry with
  | None => (false, s)
  | Some e =>
      let '(existed, pts) := Js.delete (PostTag.id e) (postTags s) in
      (existed, with_postTags s pts (currentPostTagId s))
  end.

(** *** Subscriber operations; [now] is the value of [new Date()]. *)

Definition createSubscriber (now : Z) (ins : InsertSubscriber.t) (s : t)
  : Subscriber.t * t :=
  let id := currentSubscriberId s in
  let subscriber := subscriber_of ins id now in
  (subscriber,
   mk (users s) (posts s) (tags s) (postTags s)
      (Js.set id subscriber (subscribers s))
      (currentUserId s) (currentPostId s) (currentTagId s)
      (currentPostTagId s) (id + 1)).

Definition getSubscriberByEmail (email : string) (s : t)
  : option Subscriber.t :=
  Js.find (fun sub => String.eqb (Subscriber.email sub) email)
          (Js.values (subscribers s)).

Definition getAllSubscribers (s : t) : list Subscriber.t :=
  Js.values (subscribers s).

(** *** Seed initial data *)

Definition seedTagNames : list string :=
  ["Next.js"; "MDX"; "React"; "Routing"; "Web Development"; "Advanced";
   "Components"; "Performance"; "Images"; "Tailwind CSS"; "Dark Mode";
   "CSS"; "RSS"; "SEO"]%string.

(** [name.toLowerCase().replace(/\s+/g, '-').replace(/[^\w\-]+/g, '')] *)
Definition slugOf (name : string) : string :=
  Js.keepWordsAndHyphens (Js.replaceSpaces "-" false (Js.toLowerCase name)).

(** The alternatives of the pattern that picks tag names out of a title. *)
Definition titlePattern : list string :=
  ["Next.js"; "MDX"; "React"; "Dynamic"; "Routes"; "Advanced"; "Components";
   "Performance"; "Images"; "Tailwind CSS"; "Dark Mode"; "CSS"; "RSS";
   "Web Development"; "SEO"]%string.

Definition unsplash (photo : string) : option string :=
  Some (String.append "https://images.unsplash.com/photo-"
          (String.append photo
             "?ixlib=rb-4.0.3&ixid=M3wxMjA3fDB8MHxwaG90by1wYWdlfHx8fGVufDB8fHx8fA%3D%3D&auto=format&fit=crop&w=1470&q=80")).

(** The six seed posts; [content n] is the Markdown body of post [n], a
    long literal of the source that no operation reads. *)
Definition seedPosts (content : nat -> string) (authorId : Z)
  : list InsertPost.t :=
  [ InsertPost.mk "getting-started-with-nextjs-and-mdx"
      "Getting Started with Next.js and MDX"
      "Learn how to set up a blog with Next.js and MDX for powerful content management."
      (content 1%nat) (unsplash "1555066931-4365d14bab8c")
      (Some 1686787200000) "5 min read" (Some authorId);
    InsertPost.mk "creating-dynamic-routes-in-nextjs"
      "Creating Dynamic Routes in Next.js"
      "Explore how to implement dynamic routing in Next.js for your blog posts and category pages."
      (content 2%nat) (unsplash "1546900703-cf06143d1239")
      (Some 1686355200000) "7 min read" (Some authorId);
    InsertPost.mk "advanced-mdx-techniques"
      "Advanced MDX Techniques"
      "Take your MDX skills to the next level with custom components and dynamic content."
      (content 3%nat) (unsplash "1555099962-4199c345e5dd")
      (Some 1685923200000) "9 min read" (Some authorId);
    InsertPost.mk "optimizing-images-in-nextjs"
      "Optimizing Images in Next.js"
      "Learn best practices for image optimization in Next.js using the Image component."
      (content 4%nat) (unsplash "1517650862521-d580d5348145")
      (Some 1685232000000) "6 min read" (Some authorId);
    InsertPost.mk "implementing-dark-mode-with-tailwind-css"
      "Implementing Dark Mode with Tailwind CSS"
      "A comprehensive guide to adding dark mode support to your Next.js blog."
      (content 5%nat) (unsplash "1541701494587-cb58502866ab")
      (Some 1684540800000) "8 min read" (Some authorId);
    InsertPost.mk "building-a-custom-rss-feed-for-your-blog"
      "Building a Custom RSS Feed for Your Blog"
      "Step-by-step instructions for creating an RSS feed for your Next.js blog."
      (content 6%nat) (unsplash "1614064548237-096d2cfe18f2")
      (Some 1684108800000) "4 min read" (Some authorId) ]%string.

(** Add tags to post *)
Definition seedTagsOf (post : Post.t) (title : string) (s : t) : t :=
  let tagNames := Js.matchLiterals titlePattern 0 title in
  let uniqueTagNames := Js.unique [] tagNames in
  fold_left
    (fun s tagName =>
       match getTagBySlug (slugOf tagName) s with
       | Some tag =>
           snd (addTagToPost (InsertPostTag.mk (Post.id post) (Tag.id tag)) s)
       | None => s
       end)
    uniqueTagNames s.

Definition seedData (content : nat -> string) (s : t) : t :=
  (* Seed author *)
  let '(author, s) := createUser (InsertUser.mk "admin" "admin123") s in
  (* Seed tags *)
  let s :=
    fold_left
      (fun s name => snd (createTag (InsertTag.mk name (slugOf name)) s))
      seedTagNames s in
  (* Seed posts *)
  fold_left
    (fun s postData =>
       let '(post, s) := createPost postData s in
       seedTagsOf post (InsertPost.title postData) s)
    (seedPosts content (User.id author)) s.

(** [new MemStorage()], once the seeding the constructor starts has run. *)
Definition new (content : nat -> string) : t := seedData content empty.

End MemStorage.

(* ================================================================= *)
(** ** Promises                                                       *)
(* ================================================================= *)

(** What the database driver throws. *)
Inductive DbError :=
| UniqueViolation (constraint : string)
| ForeignKeyViolation (constraint : string)
| InvalidQuery (message : string).

Inductive Outcome (A : Type) :=
| Resolved (a : A)
| Rejected (e : DbError).
Arguments Resolved {A} a.
Arguments Rejected {A} e.

(** An [async] method of a store of type [S]. *)
Definition Async (S A : Type) : Type := S -> Outcome A * S.

Definition ret {S A : Type} (a : A) : Async S A :=
  fun s => (Resolved a, s).

(** [const x = await m; k x]: a rejection skips the rest. *)
Definition bind {S A B : Type} (m : Async S A) (k : A -> Async S B)
  : Async S B :=
  fun s =>
    match m s with
    | (Resolved a, s') => k a s'
    | (Rejected e, s') => (Rejected e, s')
    end.

Notation "x <- m ;; k" := (bind m (fun x => k))
  (at level 61, m at next level, right associativity).

(** An operation that only reads the store, and one that updates it and
    cannot fail. *)
Definition reads {S A : Type} (f : S -> A) : Async S A :=
  fun s => (Resolved (f s), s).

Definition writes {S A : Type} (f : S -> A * S) : Async S A :=
  fun s => let '(a, s') := f s in (Resolved a, s').

(** [await Promise.all(xs.map(async x => f x))] *)
Fixpoint forEachAsync {S A B : Type} (f : A -> Async S B) (xs : list A)
  : Async S (list B) :=
  match xs with
  | [] => ret []
  | x :: xs' =>
      y <- f x ;;
      ys <- forEachAsync f xs' ;;
      ret (y :: ys)
  end.

(* ================================================================= *)
(** ** The persistent store                                           *)
(* ================================================================= *)

Module DatabaseStorage.

(** Modelled from the spec: the relational store behind [db]
    ([server/db.ts] and the database engine are not among the sources).
    It holds the five tables of the schema, each with the sequence of its
    [serial] id column (the next value it hands out).  Inserts and updates
    are checked against the constraints [shared/schema.ts] declares (unique
    columns and references), a violation rejects the call, and a column
    that an insert leaves out takes its default.  A table is the list of
    its rows in the order a scan returns them: an insert writes the row
    behind the others, and so does an update the new version of a row.  A
    query returns the rows in that order unless it orders them. *)
Record t := mk {
  users : list User.t;
  posts : list Post.t;
  tags : list Tag.t;
  postTags : list PostTag.t;
  subscribers : list Subscriber.t;
  users_id_seq : Z;
  posts_id_seq : Z;
  tags_id_seq : Z;
  post_tags_id_seq : Z;
  subscribers_id_seq : Z
}.

Definition empty : t := mk [] [] [] [] [] 1 1 1 1 1.

(** [const [row] = await query; return row || undefined] *)
Definition first {A : Type} (rows : list A) : option A := hd_error rows.

(** [desc(posts.publishedAt)] as a comparator: later timestamps first.  The
    column is [NOT NULL]; a NULL would come before every timestamp. *)
Definition descPublishedAt (a b : Post.t) : Z :=
  match Post.publishedAt a, Post.publishedAt b with
  | Some ta, Some tb => tb - ta
  | None, Some _ => -1
  | Some _, None => 1
  | None, None => 0
  end.

(** [.orderBy(desc(posts.publishedAt))]: rows with equal timestamps come
    in the order of the table, one of the orders the engine may return. *)
Definition orderByPublishedAtDesc (rows : list Post.t) : list Post.t :=
  Js.sort descPublishedAt rows.

(** [from(a).innerJoin(b, on)] *)
Definition innerJoin {A B : Type} (on : A -> B -> bool)
           (a : list A) (b : list B) : list (A * B) :=
  flat_map (fun x => map (fun y => (x, y)) (List.filter (on x) b)) a.

(** The constraints of the schema, as the engine checks them. *)
Definition references_user (d : t) (a : option Z) : bool :=
  match a with
  | None => true
  | Some uid => existsb (fun u => User.id u =? uid) (users d)
  end.

Definition post_exists (d : t) (id : Z) : bool :=
  existsb (fun p => Post.id p =? id) (posts d).

Definition tag_exists (d : t) (id : Z) : bool :=
  existsb (fun g => Tag.id g =? id) (tags d).

(** *** User operations *)

(** [db.select().from(users).where(eq(users.id, id))] *)
Definition getUser (id : Z) : Async t (option User.t) :=
  reads (fun d => first (List.filter (fun u => User.id u =? id) (users d))).

(** [db.select().from(users).where(eq(users.username, username))] *)
Definition getUserByUsername (name : string) : Async t (option User.t) :=
  reads (fun d =>
    first (List.filter (fun u => String.eqb (User.username u) name)
                       (users d))).

(** [db.insert(users).values(insertUser).returning()].  An insert draws
    the id from the sequence before the constraints are checked, so a
    rejected insert uses the value up. *)
Definition createUser (ins : InsertUser.t) : Async t User.t :=
  fun d =>
    let id := users_id_seq d in
    let d' := mk (users d) (posts d) (tags d) (postTags d) (subscribers d)
                 (id + 1) (posts_id_seq d) (tags_id_seq d)
                 (post_tags_id_seq d) (subscribers_id_seq d) in
    if existsb (fun u => String.eqb (User.username u)
                                    (InsertUser.username ins)) (users d)
    then (Rejected (UniqueViolation "users_username_unique"), d')
    else
      let user := user_of ins id in
      (Resolved user,
       mk (users d ++ [user]) (posts d) (tags d) (postTags d)
          (subscribers d) (id + 1) (posts_id_seq d) (tags_id_seq d)
          (post_tags_id_seq d) (subscribers_id_seq d)).

(** *** Post operations *)

(** [db.select().from(posts).orderBy(desc(posts.publishedAt))] *)
Definition getAllPosts : Async t (list Post.t) :=
  reads (fun d => orderByPublishedAtDesc (posts d)).

(** [db.select().from(posts).where(eq(posts.id, id))] *)
Definition getPostById (id : Z) : Async t (option Post.t) :=
  reads (fun d => first (List.filter (fun p => Post.id p =? id) (posts d))).

(** [db.select().from(posts).where(eq(posts.slug, slug))] *)
Definition getPostBySlug (slug : string) : Async t (option Post.t) :=
  reads (fun d =>
    first (List.filter (fun p => String.eqb (Post.slug p) slug) (posts d))).

Definition with_posts (d : t) (ps : list Post.t) (next : Z) : t :=
  mk (users d) ps (tags d) (postTags d) (subscribers d)
     (users_id_seq d) next (tags_id_seq d)
     (post_tags_id_seq d) (subscribers_id_seq d).

(** The row an insert stores: [published_at], when the values leave it
    out, is the time [now] of the insert ([defaultNow]). *)
Definition inserted (now : Z) (ins : InsertPost.t) (id : Z) : Post.t :=
  Post.mk id (InsertPost.slug ins) (InsertPost.title ins)
    (InsertPost.excerpt ins) (InsertPost.content ins)
    (InsertPost.coverImage ins)
    (Some (orElse (InsertPost.publishedAt ins) now))
    (InsertPost.readingTime ins) (InsertPost.authorId ins).

(** [db.insert(posts).values(insertPost).returning()]: the slug is unique
    and the author, when given, is a user. *)
Definition createPost (now : Z) (ins : InsertPost.t) : Async t Post.t :=
  fun d =>
    let id := posts_id_seq d in
    if existsb (fun p => String.eqb (Post.slug p) (InsertPost.slug ins))
               (posts d)
    then (Rejected (UniqueViolation "posts_slug_unique"),
          with_posts d (posts d) (id + 1))
    else if negb (references_user d (InsertPost.authorId ins))
    then (Rejected (ForeignKeyViolation "posts_author_id_users_id_fk"),
          with_posts d (posts d) (id + 1))
    else
      let post := inserted now ins id in
      (Resolved post, with_posts d (posts d ++ [post]) (id + 1)).

Definition no_values (u : PartialInsertPost.t) : bool :=
  match u with
  | PartialInsertPost.mk None None None None None None None None => true
  | _ => false
  end.

(** [db.update(posts).set(postUpdates).where(eq(posts.id, id)).returning()];
    the query builder refuses an update that sets no column.  The new
    versions of the rows are written behind the rows that stay. *)
Definition updatePost (id : Z) (u : PartialInsertPost.t)
  : Async t (option Post.t) :=
  fun d =>
    if no_values u then (Rejected (InvalidQuery "No values to set"), d)
    else
      let hit p := Post.id p =? id in
      match first (List.filter hit (posts d)) with
      | None => (Resolved None, d)
      | Some post =>
          let updatedPost := apply_updates post u in
          if match PartialInsertPost.slug u with
             | Some sl =>
                 existsb (fun p => String.eqb (Post.slug p) sl
                                   && negb (Post.id p =? id)) (posts d)
             | None => false
             end
          then (Rejected (UniqueViolation "posts_slug_unique"), d)
          else if match PartialInsertPost.authorId u with
                  | Some a => negb (references_user d a)
                  | None => false
                  end
          then (Rejected (ForeignKeyViolation "posts_author_id_users_id_fk"),
                d)
          else
            (Resolved (Some updatedPost),
             with_posts d
               (List.filter (fun p => negb (hit p)) (posts d)
                ++ map (fun p => apply_updates p u)
                       (List.filter hit (posts d)))
               (posts_id_seq d))
      end.

Definition with_postTags (d : t) (pts : list PostTag.t) (next : Z) : t :=
  mk (users d) (posts d) (tags d) pts (subscribers d)
     (users_id_seq d) (posts_id_seq d) (tags_id_seq d)
     next (subscribers_id_seq d).

(** [db.delete(postTags).where(eq(postTags.postId, id))], then
    [db.delete(posts).where(eq(posts.id, id)).returning()] *)
Definition deletePost (id : Z) : Async t bool :=
  fun d =>
    (* First delete any post-tag relationships *)
    let d1 := with_postTags d
                (List.filter (fun pt => negb (PostTag.postId pt =? id))
                             (postTags d))
                (post_tags_id_seq d) in
    (* Then delete the post *)
    let result := List.filter (fun p => Post.id p =? id) (posts d1) in
    (Resolved (0 <? Z.of_nat (List.length result)),
     with_posts d1 (List.filter (fun p => negb (Post.id p =? id)) (posts d1))
                (posts_id_seq d1)).

(** [db.select().from(posts).orderBy(desc(posts.publishedAt)).limit(1)] *)
Definition getFeaturedPost : Async t (option Post.t) :=
  reads (fun d => first (firstn 1 (orderByPublishedAtDesc (posts d)))).

(** [db.select({ count: count() }).from(posts)], then
    [db.select().from(posts).orderBy(desc(posts.publishedAt)).limit(limit)
    .offset(offset)].  The query builder leaves a negative limit out of
    the query, which then returns every row from the offset on; the
    engine rejects a negative [OFFSET]. *)
Definition getPaginatedPosts (page limit : Z) : Async t PostsPage :=
  fun d =>
    let offset := (page - 1) * limit in
    let total := Z.of_nat (List.length (posts d)) in
    if offset <? 0
    then (Rejected (InvalidQuery "OFFSET must not be negative"), d)
    else
      let fromOffset :=
        skipn (Z.to_nat offset) (orderByPublishedAtDesc (posts d)) in
      let postsResult :=
        if 0 <=? limit then firstn (Z.to_nat limit) fromOffset
        else fromOffset in
      (Resolved (mkPage postsResult total), d).

(** *** Tag operations *)

(** [db.select().from(tags)] *)
Definition getAllTags : Async t (list Tag.t) :=
  reads (fun d => tags d).

(** [db.select().from(tags).where(eq(tags.id, id))] *)
Definition getTagById (id : Z) : Async t (option Tag.t) :=
  reads (fun d => first (List.filter (fun g => Tag.id g =? id) (tags d))).

(** [db.select().from(tags).where(eq(tags.slug, slug))] *)
Definition getTagBySlug (slug : string) : Async t (option Tag.t) :=
  reads (fun d =>
    first (List.filter (fun g => String.eqb (Tag.slug g) slug) (tags d))).

(** [db.insert(tags).values(insertTag).returning()]: name and slug are
    unique. *)
Definition createTag (ins : InsertTag.t) : Async t Tag.t :=
  fun d =>
    let id := tags_id_seq d in
    let bump ts :=
      mk (users d) (posts d) ts (postTags d) (subscribers d)
         (users_id_seq d) (posts_id_seq d) (id + 1)
         (post_tags_id_seq d) (subscribers_id_seq d) in
    if existsb (fun g => String.eqb (Tag.name g) (InsertTag.name ins))
               (tags d)
    then (Rejected (UniqueViolation "tags_name_unique"), bump (tags d))
    else if existsb (fun g => String.eqb (Tag.slug g) (InsertTag.slug ins))
                    (tags d)
    then (Rejected (UniqueViolation "tags_slug_unique"), bump (tags d))
    else
      let tag := tag_of ins id in
      (Resolved tag, bump (tags d ++ [tag])).

(** *** Post-tag operations *)

(** [db.select({ post: posts }).from(posts)
    .innerJoin(postTags, eq(posts.id, postTags.postId))
    .where(eq(postTags.tagId, tagId)).orderBy(desc(posts.publishedAt))
    .then(results => results.map(result => result.post))] *)
Definition getPostsByTagId (tagId : Z) : Async t (list Post.t) :=
  reads (fun d =>
    let joined :=
      innerJoin (fun p pt => Post.id p =? PostTag.postId pt)
                (posts d) (postTags d) in
    let matching :=
      List.filter (fun r => PostTag.tagId (snd r) =? tagId) joined in
    map fst (Js.sort (fun a b => descPublishedAt (fst a) (fst b))
                     matching)).

Definition getPostsByTagSlug (tagSlug : string) : Async t (list Post.t) :=
  tag <- getTagBySlug tagSlug ;;
  match tag with
  | None => ret []
  | Some g => getPostsByTagId (Tag.id g)
  end.

(** [db.select({ tag: tags }).from(tags)
    .innerJoin(postTags, eq(tags.id, postTags.tagId))
    .where(eq(postTags.postId, postId))
    .then(results => results.map(result => result.tag))] *)
Definition getTagsByPostId (postId : Z) : Async t (list Tag.t) :=
  reads (fun d =>
    let joined :=
      innerJoin (fun g pt => Tag.id g =? PostTag.tagId pt)
                (tags d) (postTags d) in
    map fst (List.filter (fun r => PostTag.postId (snd r) =? postId) joined)).

(** [db.insert(postTags).values(insertPostTag).returning()]: the post and
    the tag are rows of their tables. *)
Definition addTagToPost (ins : InsertPostTag.t) : Async t PostTag.t :=
  fun d =>
    let id := post_tags_id_seq d in
    if negb (post_exists d (InsertPostTag.postId ins))
    then (Rejected (ForeignKeyViolation "post_tags_post_id_posts_id_fk"),
          with_postTags d (postTags d) (id + 1))
    else if negb (tag_exists d (InsertPostTag.tagId ins))
    then (Rejected (ForeignKeyViolation "post_tags_tag_id_tags_id_fk"),
          with_postTags d (postTags d) (id + 1))
    else
      let postTag := postTag_of ins id in
      (Resolved postTag, with_postTags d (postTags d ++ [postTag]) (id + 1)).

(** [db.delete(postTags).where(and(eq(postTags.postId, postId),
    eq(postTags.tagId, tagId))).returning()] *)
Definition removeTagFromPost (postId tagId : Z) : Async t bool :=
  fun d =>
    let hit pt := (PostTag.postId pt =? postId) && (PostTag.tagId pt =? tagId) in
    let result := List.filter hit (postTags d) in
    (Resolved (0 <? Z.of_nat (List.length result)),
     with_postTags d (List.filter (fun pt => negb (hit pt)) (postTags d))
                   (post_tags_id_seq d)).

(** *** Subscriber operations; [now] is the default of [created_at].
    [db.insert(subscribers).values(insertSubscriber).returning()]: the
    email is unique. *)

Definition createSubscriber (now : Z) (ins : InsertSubscriber.t)
  : Async t Subscriber.t :=
  fun d =>
    let id := subscribers_id_seq d in
    let bump subs :=
      mk (users d) (posts d) (tags d) (postTags d) subs
         (users_id_seq d) (posts_id_seq d) (tags_id_seq d)
         (post_tags_id_seq d) (id + 1) in
    if existsb (fun sub => String.eqb (Subscriber.email sub)
                                      (InsertSubscriber.email ins))
               (subscribers d)
    then (Rejected (UniqueViolation "subscribers_email_unique"),
          bump (subscribers d))
    else
      let subscriber := subscriber_of ins id now in
      (Resolved subscriber, bump (subscribers d ++ [subscriber])).

Definition getSubscriberByEmail (email : string)
  : Async t (option Subscriber.t) :=
  reads (fun d =>
    first (List.filter (fun sub => String.eqb (Subscriber.email sub) email)
                       (subscribers d))).

Definition getAllSubscribers : Async t (list Subscriber.t) :=
  reads (fun d => subscribers d).

(** *** Seed the database with initial data *)

(** What [Math.random] decides in [seedData]: for the post of each round,
    the order in which [createdTags.sort(() => 0.5 - Math.random())]
    leaves the array, and the value of [Math.floor(Math.random() * 5)]. *)
Record Random := mkRandom {
  shuffle : nat -> list Tag.t -> list Tag.t;
  floor5 : nat -> Z
}.

(** The three sample posts; [content n] is the Markdown body of post
    [n]. *)
Definition samplePosts (content : nat -> string) (authorId : Z)
  : list InsertPost.t :=
  [ InsertPost.mk "getting-started-with-nextjs-and-mdx"
      "Getting Started with Next.js and MDX"
      "Learn how to set up a blog with Next.js and MDX for powerful content management."
      (content 1%nat) (MemStorage.unsplash "1555066931-4365d14bab8c")
      (Some 1686787200000) "5 min read" (Some authorId);
    InsertPost.mk "creating-dynamic-routes-in-nextjs"
      "Creating Dynamic Routes in Next.js"
      "Explore how to implement dynamic routing in Next.js for your blog posts and category pages."
      (content 2%nat) (MemStorage.unsplash "1546900703-cf06143d1239")
      (Some 1686355200000) "7 min read" (Some authorId);
    InsertPost.mk "advanced-mdx-techniques"
      "Advanced MDX Techniques"
      "Take your MDX skills to the next level with custom components and dynamic content."
      (content 3%nat) (MemStorage.unsplash "1581276879432-15e50529f34b")
      (Some 1685923200000) "8 min read" (Some authorId) ]%string.

(** Create tags: [for (const name of tagNames) { ...;
    createdTags.push(tag) }] *)
Fixpoint seedTags (tagNames : list string) (createdTags : list Tag.t)
  : Async t (list Tag.t) :=
  match tagNames with
  | [] => ret createdTags
  | name :: rest =>
      tag <- createTag (InsertTag.mk name (MemStorage.slugOf name)) ;;
      seedTags rest (createdTags ++ [tag])
  end.

(** [for (const tag of selectedTags) { await db.insert(postTags).values(
    { postId: post.id, tagId: tag.id }) }] *)
Fixpoint seedLinks (postId : Z) (selectedTags : list Tag.t) : Async t unit :=
  match selectedTags with
  | [] => ret tt
  | tag :: rest =>
      _ <- addTagToPost (InsertPostTag.mk postId (Tag.id tag)) ;;
      seedLinks postId rest
  end.

(** [for (const postData of samplePosts) { ... }]; the sort reorders
    [createdTags] itself, so the next round starts from the new order.
    [now] is the clock of the engine, which the inserts do not need: the
    sample posts carry their [publishedAt]. *)
Fixpoint seedSamplePosts (random : Random) (now : Z) (round : nat)
         (posts : list InsertPost.t) (createdTags : list Tag.t)
  : Async t unit :=
  match posts with
  | [] => ret tt
  | postData :: rest =>
      post <- createPost now postData ;;
      (* Add some tags to each post (random selection) *)
      let createdTags := shuffle random round createdTags in
      let selectedTags :=
        Js.slice createdTags 0 (floor5 random round + 2) in
      _ <- seedLinks (Post.id post) selectedTags ;;
      seedSamplePosts random now (S round) rest createdTags
  end.

Definition seedData (content : nat -> string) (random : Random) (now : Z)
  : Async t unit :=
  (* Check if we already have users *)
  existingUsers <- reads users ;;
  if 0 <? Z.of_nat (List.length existingUsers) then ret tt
  else
    (* Create admin user *)
    admin <- createUser (InsertUser.mk "admin" "admin123") ;;
    (* Create tags *)
    createdTags <- seedTags MemStorage.seedTagNames [] ;;
    (* Create sample posts *)
    seedSamplePosts random now 0 (samplePosts content (User.id admin))
                    createdTags.

End DatabaseStorage.

(* ================================================================= *)
(** ** The storage interface and its two implementations              *)
(* ================================================================= *)

(** [createPost] and [createSubscriber] take the time of the call: the
    persistent store gives it to a post without [publishedAt] and to
    [createdAt], the in-memory store to [createdAt] only. *)
Class IStorage (S : Type) := {
  getUser : Z -> Async S (option User.t);
  getUserByUsername : string -> Async S (option User.t);
  createUser : InsertUser.t -> Async S User.t;
  getAllPosts : Async S (list Post.t);
  getPostById : Z -> Async S (option Post.t);
  getPostBySlug : string -> Async S (option Post.t);
  createPost : Z -> InsertPost.t -> Async S Post.t;
  updatePost : Z -> PartialInsertPost.t -> Async S (option Post.t);
  deletePost : Z -> Async S bool;
  getFeaturedPost : Async S (option Post.t);
  getPaginatedPosts : Z -> Z -> Async S PostsPage;
  getAllTags : Async S (list Tag.t);
  getTagById : Z -> Async S (option Tag.t);
  getTagBySlug : string -> Async S (option Tag.t);
  createTag : InsertTag.t -> Async S Tag.t;
  getPostsByTagId : Z -> Async S (list Post.t);
  getPostsByTagSlug : string -> Async S (list Post.t);
  getTagsByPostId : Z -> Async S (list Tag.t);
  addTagToPost : InsertPostTag.t -> Async S PostTag.t;
  removeTagFromPost : Z -> Z -> Async S bool;
  createSubscriber : Z -> InsertSubscriber.t -> Async S Subscriber.t;
  getSubscriberByEmail : string -> Async S (option Subscriber.t);
  getAllSubscribers : Async S (list Subscriber.t)
}.

#[export] Instance MemStorage_IStorage : IStorage MemStorage.t := {|
  getUser id := reads (MemStorage.getUser id);
  getUserByUsername name := reads (MemStorage.getUserByUsername name);
  createUser ins := writes (MemStorage.createUser ins);
  getAllPosts := reads MemStorage.getAllPosts;
  getPostById id := reads (MemStorage.getPostById id);
  getPostBySlug slug := reads (MemStorage.getPostBySlug slug);
  createPost _ ins := writes (MemStorage.createPost ins);
  updatePost id u := writes (MemStorage.updatePost id u);
  deletePost id := writes (MemStorage.deletePost id);
  getFeaturedPost := reads MemStorage.getFeaturedPost;
  getPaginatedPosts page limit :=
    reads (MemStorage.getPaginatedPosts page limit);
  getAllTags := reads MemStorage.getAllTags;
  getTagById id := reads (MemStorage.getTagById id);
  getTagBySlug slug := reads (MemStorage.getTagBySlug slug);
  createTag ins := writes (MemStorage.createTag ins);
  getPostsByTagId tagId := reads (MemStorage.getPostsByTagId tagId);
  getPostsByTagSlug slug := reads (MemStorage.getPostsByTagSlug slug);
  getTagsByPostId postId := reads (MemStorage.getTagsByPostId postId);
  addTagToPost ins := writes (MemStorage.addTagToPost ins);
  removeTagFromPost postId tagId :=
    writes (MemStorage.removeTagFromPost postId tagId);
  createSubscriber now ins := writes (MemStorage.createSubscriber now ins);
  getSubscriberByEmail email := reads (MemStorage.getSubscriberByEmail email);
  getAllSubscribers := reads MemStorage.getAllSubscribers
|}.

#[export] Instance DatabaseStorage_IStorage : IStorage DatabaseStorage.t := {|
  getUser := DatabaseStorage.getUser;
  getUserByUsername := DatabaseStorage.getUserByUsername;
  createUser := DatabaseStorage.createUser;
  getAllPosts := DatabaseStorage.getAllPosts;
  getPostById := DatabaseStorage.getPostById;
  getPostBySlug := DatabaseStorage.getPostBySlug;
  createPost := DatabaseStorage.createPost;
  updatePost := DatabaseStorage.updatePost;
  deletePost := DatabaseStorage.deletePost;
  getFeaturedPost := DatabaseStorage.getFeaturedPost;
  getPaginatedPosts := DatabaseStorage.getPaginatedPosts;
  getAllTags := DatabaseStorage.getAllTags;
  getTagById := DatabaseStorage.getTagById;
  getTagBySlug := DatabaseStorage.getTagBySlug;
  createTag := DatabaseStorage.createTag;
  getPostsByTagId := DatabaseStorage.getPostsByTagId;
  getPostsByTagSlug := DatabaseStorage.getPostsByTagSlug;
  getTagsByPostId := DatabaseStorage.getTagsByPostId;
  addTagToPost := DatabaseStorage.addTagToPost;
  removeTagFromPost := DatabaseStorage.removeTagFromPost;
  createSubscriber := DatabaseStorage.createSubscriber;
  getSubscriberByEmail := DatabaseStorage.getSubscriberByEmail;
  getAllSubscribers := DatabaseStorage.getAllSubscribers
|}.

(* ================================================================= *)
(** ** Dates as text: [Date.prototype.toUTCString]                    *)
(* ================================================================= *)

Module JsDate.

Definition msPerDay : Z := 86400000.

Definition Day (t : Z) : Z := t / msPerDay.
Definition WeekDay (t : Z) : Z := (Day t + 4) mod 7.
Definition HourFromTime (t : Z) : Z := (t / 3600000) mod 24.
Definition MinFromTime (t : Z) : Z := (t / 60000) mod 60.
Definition SecFromTime (t : Z) : Z := (t / 1000) mod 60.

(** Year, month (1 to 12) and day of the month of a day number counted
    from 1 January 1970, in the proleptic Gregorian calendar. *)
Definition civilFromDays (days : Z) : Z * Z * Z :=
  let z := days + 719468 in
  let era := z / 146097 in
  let doe := z - era * 146097 in
  let yoe := (doe - doe / 1460 + doe / 36524 - doe / 146096) / 365 in
  let doy := doe - (365 * yoe + yoe / 4 - yoe / 100) in
  let mp := (5 * doy + 2) / 153 in
  let d := doy - (153 * mp + 2) / 5 + 1 in
  let m := if mp <? 10 then mp + 3 else mp - 9 in
  let y := yoe + era * 400 + (if m <=? 2 then 1 else 0) in
  (y, m, d).

Definition YearFromTime (t : Z) : Z := fst (fst (civilFromDays (Day t))).
Definition MonthFromTime (t : Z) : Z := snd (fst (civilFromDays (Day t))) - 1.
Definition DateFromTime (t : Z) : Z := snd (civilFromDays (Day t)).

Local Open Scope string_scope.

Definition weekdayName (d : Z) : string :=
  match d with
  | 0 => "Sun" | 1 => "Mon" | 2 => "Tue" | 3 => "Wed"
  | 4 => "Thu" | 5 => "Fri" | _ => "Sat"
  end.

Definition monthName (m : Z) : string :=
  match m with
  | 0 => "Jan" | 1 => "Feb" | 2 => "Mar" | 3 => "Apr"
  | 4 => "May" | 5 => "Jun" | 6 => "Jul" | 7 => "Aug"
  | 8 => "Sep" | 9 => "Oct" | 10 => "Nov" | _ => "Dec"
  end.

Fixpoint digitsOf (u : Decimal.uint) : string :=
  match u with
  | Decimal.Nil => ""
  | Decimal.D0 u' => String "0" (digitsOf u')
  | Decimal.D1 u' => String "1" (digitsOf u')
  | Decimal.D2 u' => String "2" (digitsOf u')
  | Decimal.D3 u' => String "3" (digitsOf u')
  | Decimal.D4 u' => String "4" (digitsOf u')
  | Decimal.D5 u' => String "5" (digitsOf u')
  | Decimal.D6 u' => String "6" (digitsOf u')
  | Decimal.D7 u' => String "7" (digitsOf u')
  | Decimal.D8 u' => String "8" (digitsOf u')
  | Decimal.D9 u' => String "9" (digitsOf u')
  end.

Fixpoint zeros (n : nat) : string :=
  match n with
  | O => ""
  | S n' => String "0" (zeros n')
  end.

(** [ToZeroPaddedDecimalString(n, minLength)] for [n >= 0] *)
Definition ToZeroPaddedDecimalString (n : Z) (minLength : nat) : string :=
  let s := digitsOf (N.to_uint (Z.to_N n)) in
  zeros (minLength - String.length s) ++ s.

Definition TimeString (t : Z) : string :=
  ToZeroPaddedDecimalString (HourFromTime t) 2 ++ ":" ++
  ToZeroPaddedDecimalString (MinFromTime t) 2 ++ ":" ++
  ToZeroPaddedDecimalString (SecFromTime t) 2 ++ " GMT".

(** [new Date(t).toUTCString()] for a valid time value [t]:
    the RFC-1123 form [Thu, 15 Jun 2023 00:00:00 GMT]. *)
Definition toUTCString (t : Z) : string :=
  let yv := YearFromTime t in
  weekdayName (WeekDay t) ++ ", " ++
  ToZeroPaddedDecimalString (DateFromTime t) 2 ++ " " ++
  monthName (MonthFromTime t) ++ " " ++
  (if (yv <? 0)%Z then "-" else "") ++
  ToZeroPaddedDecimalString (Z.abs yv) 4 ++ " " ++
  TimeString t.

End JsDate.

(* ================================================================= *)
(** ** The HTTP routes of [server/routes.ts]                          *)
(* ================================================================= *)

Module PostWithTags.
(** [{ ...post, tags }] *)
Record t := mk { post : Post.t; tags : list Tag.t }.
End PostWithTags.

Record Pagination := mkPagination {
  total : Z;
  page : Z;
  limit : Z;
  totalPages : Z
}.

Inductive Body :=
| PostsJson (posts : list PostWithTags.t) (pagination : Pagination)
| PostJson (p : PostWithTags.t)
| PostListJson (ps : list PostWithTags.t)
| MessageJson (message : string)
| Xml (document : string)
| Text (s : string).

Record Response := mkResponse { status : Z; body : Body }.

(** The outcome of [schema.parse(req.body)]: the typed value, or a
    [ZodError] with the message [fromZodError] derives from it. *)
Inductive Parsed (A : Type) :=
| Valid (a : A)
| ZodError (message : string).
Arguments Valid {A} a.
Arguments ZodError {A} message.

(** [parseInt(req.query.x)]: [None] is [NaN]. *)
Record PostsQuery := mkQuery { query_page : option Z; query_limit : option Z }.

(** [n || d] on a number: [NaN] and [0] are falsy. *)
Definition orNumber (n : option Z) (d : Z) : Z :=
  match n with
  | Some v => if v =? 0 then d else v
  | None => d
  end.

(** [Math.ceil(a / b)] for integers [a] and [b <> 0] *)
Definition ceilDiv (a b : Z) : Z := - ((- a) / b).

Module Rss.
Local Open Scope string_scope.

Definition nl : string := String "010"%char "".
Definition dq : string := String "034"%char "".

(** [process.env.BASE_URL || `http://${req.headers.host}`] *)
Definition baseUrlOf (BASE_URL host : option string) : string :=
  let fromHost :=
    "http://" ++ match host with Some h => h | None => "undefined" end in
  match BASE_URL with
  | Some u => if String.eqb u "" then fromHost else u
  | None => fromHost
  end.

Definition channelOpen (baseUrl : string) (now : Z) : string :=
  "<?xml version=" ++ dq ++ "1.0" ++ dq ++ " encoding=" ++ dq ++ "UTF-8"
    ++ dq ++ "?>" ++ nl ++
  "<rss version=" ++ dq ++ "2.0" ++ dq ++ " xmlns:atom=" ++ dq
    ++ "http://www.w3.org/2005/Atom" ++ dq ++ ">" ++ nl ++
  "  <channel>" ++ nl ++
  "    <title>DevBlog - Next.js and MDX Blog</title>" ++ nl ++
  "    <link>" ++ baseUrl ++ "</link>" ++ nl ++
  "    <description>A modern blog platform with powerful content management, dark mode, and advanced features.</description>" ++ nl ++
  "    <language>en-us</language>" ++ nl ++
  "    <lastBuildDate>" ++ JsDate.toUTCString now ++ "</lastBuildDate>" ++ nl ++
  "    <atom:link href=" ++ dq ++ baseUrl ++ "/rss.xml" ++ dq ++ " rel=" ++ dq
    ++ "self" ++ dq ++ " type=" ++ dq ++ "application/rss+xml" ++ dq ++ " />"
    ++ nl.

(** [new Date(post.publishedAt).toUTCString()] *)
Definition pubDate (publishedAt : option Z) : string :=
  match publishedAt with
  | Some t => JsDate.toUTCString t
  | None => "Invalid Date"
  end.

Definition item (baseUrl : string) (post : PostWithTags.t) : string :=
  let p := PostWithTags.post post in
  nl ++
  "    <item>" ++ nl ++
  "      <title>" ++ Post.title p ++ "</title>" ++ nl ++
  "      <link>" ++ baseUrl ++ "/posts/" ++ Post.slug p ++ "</link>" ++ nl ++
  "      <guid>" ++ baseUrl ++ "/posts/" ++ Post.slug p ++ "</guid>" ++ nl ++
  "      <pubDate>" ++ pubDate (Post.publishedAt p)
    ++ "</pubDate>" ++ nl ++
  "      <description><![CDATA[" ++ Post.excerpt p ++ "]]></description>"
    ++ nl ++
  "    </item>".

Definition channelClose : string :=
  nl ++ "  </channel>" ++ nl ++ "</rss>".

(** [let rss = ...; postsWithTags.forEach(post => { rss += ... });
    rss += ...] *)
Definition build (baseUrl : string) (now : Z)
           (postsWithTags : list PostWithTags.t) : string :=
  let rss := channelOpen baseUrl now in
  let rss := fold_left (fun acc post => acc ++ item baseUrl post)
                       postsWithTags rss in
  rss ++ channelClose.
End Rss.

Module Routes.

Section Handlers.
Context {S : Type} `{IStorage S}.

(** [try { ... } catch (error) { ... }] around the calls of the store *)
Definition tryCatch (m : Async S Response)
           (handler : DbError -> Response) : S -> Response * S :=
  fun s =>
    match m s with
    | (Resolved r, s') => (r, s')
    | (Rejected e, s') => (handler e, s')
    end.

(** Fetch tags for each post *)
Definition withTags (ps : list Post.t) : Async S (list PostWithTags.t) :=
  forEachAsync
    (fun post =>
       tags <- getTagsByPostId (Post.id post) ;;
       ret (PostWithTags.mk post tags))
    ps.

(** [GET /api/posts] *)
Definition get_api_posts (q : PostsQuery) : S -> Response * S :=
  tryCatch
    (let page := orNumber (query_page q) 1 in
     let limit := orNumber (query_limit q) 6 in
     result <- getPaginatedPosts page limit ;;
     postsWithTags <- withTags (page_posts result) ;;
     ret (mkResponse 200
            (PostsJson postsWithTags
               (mkPagination (page_total result) page limit
                             (ceilDiv (page_total result) limit)))))
    (fun _ => mkResponse 500 (MessageJson "Error fetching posts")).

(** [GET /api/posts/featured] *)
Definition get_api_posts_featured : S -> Response * S :=
  tryCatch
    (featuredPost <- getFeaturedPost ;;
     match featuredPost with
     | None =>
         ret (mkResponse 404 (MessageJson "No featured post found"))
     | Some post =>
         tags <- getTagsByPostId (Post.id post) ;;
         ret (mkResponse 200 (PostJson (PostWithTags.mk post tags)))
     end)
    (fun _ => mkResponse 500 (MessageJson "Error fetching featured post")).

(** [GET /api/tags/:slug/posts] *)
Definition get_api_tags_slug_posts (slug : string) : S -> Response * S :=
  tryCatch
    (posts <- getPostsByTagSlug slug ;;
     postsWithTags <- withTags posts ;;
     ret (mkResponse 200 (PostListJson postsWithTags)))
    (fun _ => mkResponse 500 (MessageJson "Error fetching posts by tag")).

(** [POST /api/subscribe]; [now] is the clock read by the store. *)
Definition post_api_subscribe (now : Z)
           (parsed : Parsed InsertSubscriber.t) : S -> Response * S :=
  match parsed with
  | ZodError message => fun s => (mkResponse 400 (MessageJson message), s)
  | Valid data =>
      let email := InsertSubscriber.email data in
      tryCatch
        (existingSubscriber <- getSubscriberByEmail email ;;
         match existingSubscriber with
         | Some _ =>
             ret (mkResponse 400 (MessageJson "Email already subscribed"))
         | None =>
             subscriber <- createSubscriber now (InsertSubscriber.mk email) ;;
             ret (mkResponse 201 (MessageJson "Subscription successful"))
         end)
        (fun _ =>
           mkResponse 500 (MessageJson "Error processing subscription"))
  end.

(** [GET /rss.xml]; [now] is the value of [new Date()]. *)
Definition get_rss_xml (BASE_URL host : option string) (now : Z)
  : S -> Response * S :=
  tryCatch
    (posts <- getAllPosts ;;
     postsWithTags <- withTags posts ;;
     let baseUrl := Rss.baseUrlOf BASE_URL host in
     ret (mkResponse 200 (Xml (Rss.build baseUrl now postsWithTags))))
    (fun _ => mkResponse 500 (Text "Error generating RSS feed")).
End Handlers.

End Routes.

(* ================================================================= *)
(** ** Predicates of the specification                                *)
(* ================================================================= *)

(** The tag ids [getTagsByPostId] collects for a post. *)
Definition tagIdsOf (postId : Z) (rows : list PostTag.t) : list Z :=
  map PostTag.tagId
      (Js.filter (fun pt => PostTag.postId pt =? postId) rows).

(** Every post of the list carries a [publishedAt]. *)
Definition dated (l : list Post.t) : Prop :=
  forall p, In p l -> Post.publishedAt p <> None.

(** [a] was published no earlier than [b].  Between posts that carry a
    [publishedAt] this compares the timestamps; a post without one counts
    as the most recent, which is where [ORDER BY ... DESC] would put a
    NULL. *)
Definition notBefore (a b : Post.t) : Prop :=
  match Post.publishedAt a, Post.publishedAt b with
  | Some ta, Some tb => tb <= ta
  | None, _ => True
  | Some _, None => False
  end.

(** Non-increasing [publishedAt]: every post is at least as recent as all
    the posts after it. *)
Definition descending (l : list Post.t) : Prop :=
  StronglySorted notBefore l.

(** Two listings of the same posts by recency, which can differ in the
    order of posts of equal [publishedAt] only. *)
Definition sameUpToTies (l l' : list Post.t) : Prop :=
  Permutation l l' /\ descending l /\ descending l'.

(* ================================================================= *)
(** ** Sample data                                                    *)
(* ================================================================= *)

(** Stores to evaluate the code on. *)
Module Sample.
Local Open Scope string_scope.

(** The in-memory store after construction, the Markdown bodies empty. *)
Definition mem : MemStorage.t := MemStorage.new (fun _ => "").

(** The same store after [deletePost 6]: five posts. *)
Definition fivePosts : MemStorage.t := snd (MemStorage.deletePost 6 mem).

(** Rows for a small database, taken from the seed data. *)
Definition admin : InsertUser.t := InsertUser.mk "admin" "admin123".

Definition nextjs : InsertTag.t := InsertTag.mk "Next.js" "nextjs".
Definition mdx : InsertTag.t := InsertTag.mk "MDX" "mdx".

Definition seedPost (slug title excerpt : string) (publishedAt : Z)
           (readingTime : string) : InsertPost.t :=
  InsertPost.mk slug title excerpt "" None (Some publishedAt) readingTime
                (Some 1%Z).

Definition post1 : InsertPost.t :=
  seedPost "getting-started-with-nextjs-and-mdx"
    "Getting Started with Next.js and MDX"
    "Learn how to set up a blog with Next.js and MDX for powerful content management."
    1686787200000 "5 min read".
Definition post2 : InsertPost.t :=
  seedPost "creating-dynamic-routes-in-nextjs"
    "Creating Dynamic Routes in Next.js"
    "Explore how to implement dynamic routing in Next.js for your blog posts and category pages."
    1686355200000 "7 min read".
Definition post3 : InsertPost.t :=
  seedPost "advanced-mdx-techniques"
    "Advanced MDX Techniques"
    "Take your MDX skills to the next level with custom components and dynamic content."
    1685923200000 "9 min read".
Definition post4 : InsertPost.t :=
  seedPost "optimizing-images-in-nextjs"
    "Optimizing Images in Next.js"
    "Learn best practices for image optimization in Next.js using the Image component."
    1685232000000 "6 min read".
Definition post5 : InsertPost.t :=
  seedPost "implementing-dark-mode-with-tailwind-css"
    "Implementing Dark Mode with Tailwind CSS"
    "A comprehensive guide to adding dark mode support to your Next.js blog."
    1684540800000 "8 min read".

Definition after {S A : Type} (f : S -> A * S) (s : S) : S := snd (f s).

(** A database of one user, two tags and five posts, created oldest
    first at the time 0; the first seed post (id 5) carries both tags. *)
Definition dbBase : DatabaseStorage.t :=
  after (DatabaseStorage.createTag mdx)
    (after (DatabaseStorage.createTag nextjs)
       (after (DatabaseStorage.createUser admin) DatabaseStorage.empty)).

Definition db : DatabaseStorage.t :=
  after (DatabaseStorage.addTagToPost (InsertPostTag.mk 5 2))
    (after (DatabaseStorage.addTagToPost (InsertPostTag.mk 5 1))
       (after (DatabaseStorage.createPost 0 post1)
          (after (DatabaseStorage.createPost 0 post2)
             (after (DatabaseStorage.createPost 0 post3)
                (after (DatabaseStorage.createPost 0 post4)
                   (after (DatabaseStorage.createPost 0 post5) dbBase)))))).
End Sample.

(** The maps of a store that was built by its own operations: the key of
    an entry is the id of its row, no key occurs twice, and every key is
    below the counter that issues the next id. *)
Definition wf_map {V : Type} (idOf : V -> Z) (next : Z) (m : Js.Map V)
  : Prop :=
  NoDup (map fst m)
  /\ Forall (fun e => fst e = idOf (snd e) /\ fst e < next) m.

Definition wellFormed (s : MemStorage.t) : Prop :=
  wf_map User.id (MemStorage.currentUserId s) (MemStorage.users s)
  /\ wf_map Post.id (MemStorage.currentPostId s) (MemStorage.posts s)
  /\ wf_map Tag.id (MemStorage.currentTagId s) (MemStorage.tags s)
  /\ wf_map PostTag.id (MemStorage.currentPostTagId s) (MemStorage.postTags s)
  /\ wf_map Subscriber.id (MemStorage.currentSubscriberId s)
            (MemStorage.subscribers s).

(** [{ ...post, tags }] with the tags the in-memory store returns. *)
Definition tagged (s : MemStorage.t) (p : Post.t) : PostWithTags.t :=
  PostWithTags.mk p (MemStorage.getTagsByPostId (Post.id p) s).

(** What the schema's constraints say about an insert into the persistent
    store. *)
Module Constraint.
Definition slug_taken (d : DatabaseStorage.t) (slug : string) : Prop :=
  exists p, In p (DatabaseStorage.posts d) /\ Post.slug p = slug.

Definition author_missing (d : DatabaseStorage.t) (a : option Z) : Prop :=
  exists uid, a = Some uid
              /\ forall u, In u (DatabaseStorage.users d) -> User.id u <> uid.

Definition tag_name_taken (d : DatabaseStorage.t) (name : string) : Prop :=
  exists g, In g (DatabaseStorage.tags d) /\ Tag.name g = name.

Definition tag_slug_taken (d : DatabaseStorage.t) (slug : string) : Prop :=
  exists g, In g (DatabaseStorage.tags d) /\ Tag.slug g = slug.

Definition email_taken (d : DatabaseStorage.t) (email : string) : Prop :=
  exists sub, In sub (DatabaseStorage.subscribers d)
              /\ Subscriber.email sub = email.
End Constraint.

(** A post with a slug no seed post has and an author no user has. *)
Definition orphanPost : InsertPost.t :=
  InsertPost.mk "a-post-without-author" "A Post Without Author" "" "" None
                (Some 1686787200000) "1 min read" (Some 99).

(** Plain-text measures of a document. *)
Module Text.
(** The number of positions of [s] at which [pat] starts. *)
Fixpoint occurrences (pat s : string) : nat :=
  match s with
  | EmptyString => 0
  | String _ s' =>
      ((if Js.startsWith s pat then 1 else 0) + occurrences pat s')%nat
  end.

(** [s] does not contain the character [c]. *)
Fixpoint lacks (c : ascii) (s : string) : bool :=
  match s with
  | EmptyString => true
  | String b s' => negb (Ascii.eqb c b) && lacks c s'
  end.

Definition lt : ascii := "<"%char.
Definition itemTag : string := "<item>".

(** The texts the feed interpolates for a post carry no markup. *)
Definition plain (p : Post.t) : bool :=
  lacks lt (Post.title p) && lacks lt (Post.slug p)
  && lacks lt (Post.excerpt p).
End Text.

(** A post whose title closes its item and opens another. *)
Definition injectedPost : InsertPost.t :=
  InsertPost.mk "injected" "</title></item><item><title>" "" "" None
                (Some 1686787200000) "1 min read" (Some 1).

(** A post that is created without [publishedAt], and one dated 1 January
    2024, after every seed post. *)
Definition undatedPost : InsertPost.t :=
  InsertPost.mk "a-draft" "A Draft" "" "" None None "1 min read" (Some 1).

Definition latestPost : InsertPost.t :=
  InsertPost.mk "new-year" "New Year" "" "" None (Some 1704067200000)
                "1 min read" (Some 1).

(** A second post of the day of [Sample.post1]. *)
Definition sameDayPost : InsertPost.t :=
  InsertPost.mk "release-notes" "Release Notes" "" "" None
                (Some 1686787200000) "1 min read" (Some 1).

(** What [createPost] of the first and then of the second make of a
    store. *)
Definition draftThenNews (s : MemStorage.t) : MemStorage.t :=
  snd (MemStorage.createPost latestPost
         (snd (MemStorage.createPost undatedPost s))).

(** The constructed store after [deletePost] of the posts 4, 5 and 6. *)
Definition threePosts (content : nat -> string) : MemStorage.t :=
  snd (MemStorage.deletePost 6
         (snd (MemStorage.deletePost 5
                 (snd (MemStorage.deletePost 4 (MemStorage.new content)))))).

(** Calls of the storage interface, and what a caller observes of them. *)
Module Session.

Inductive Op :=
| GetUser (id : Z)
| GetUserByUsername (username : string)
| CreateUser (user : InsertUser.t)
| GetAllPosts
| GetPostById (id : Z)
| GetPostBySlug (slug : string)
| CreatePost (now : Z) (post : InsertPost.t)
| UpdatePost (id : Z) (post : PartialInsertPost.t)
| DeletePost (id : Z)
| GetFeaturedPost
| GetPaginatedPosts (page limit : Z)
| GetAllTags
| GetTagById (id : Z)
| GetTagBySlug (slug : string)
| CreateTag (tag : InsertTag.t)
| GetPostsByTagId (tagId : Z)
| GetPostsByTagSlug (tagSlug : string)
| GetTagsByPostId (postId : Z)
| AddTagToPost (postTag : InsertPostTag.t)
| RemoveTagFromPost (postId tagId : Z)
| CreateSubscriber (now : Z) (subscriber : InsertSubscriber.t)
| GetSubscriberByEmail (email : string)
| GetAllSubscribers.

Inductive Result :=
| OptUser (r : option User.t)
| UserRow (r : User.t)
| Posts (r : list Post.t)
| OptPost (r : option Post.t)
| PostRow (r : Post.t)
| Flag (r : bool)
| Page (r : PostsPage)
| Tags (r : list Tag.t)
| OptTag (r : option Tag.t)
| TagRow (r : Tag.t)
| PostTagRow (r : PostTag.t)
| SubscriberRow (r : Subscriber.t)
| OptSubscriber (r : option Subscriber.t)
| Subscribers (r : list Subscriber.t).

Section Perform.
Context {S : Type} `{IStorage S}.

Definition answer {A : Type} (wrap : A -> Result) (m : Async S A)
  : Async S Result :=
  a <- m ;; ret (wrap a).

Definition perform (op : Op) : Async S Result :=
  match op with
  | GetUser id => answer OptUser (getUser id)
  | GetUserByUsername username => answer OptUser (getUserByUsername username)
  | CreateUser user => answer UserRow (createUser user)
  | GetAllPosts => answer Posts getAllPosts
  | GetPostById id => answer OptPost (getPostById id)
  | GetPostBySlug slug => answer OptPost (getPostBySlug slug)
  | CreatePost now post => answer PostRow (createPost now post)
  | UpdatePost id post => answer OptPost (updatePost id post)
  | DeletePost id => answer Flag (deletePost id)
  | GetFeaturedPost => answer OptPost getFeaturedPost
  | GetPaginatedPosts page limit => answer Page (getPaginatedPosts page limit)
  | GetAllTags => answer Tags getAllTags
  | GetTagById id => answer OptTag (getTagById id)
  | GetTagBySlug slug => answer OptTag (getTagBySlug slug)
  | CreateTag tag => answer TagRow (createTag tag)
  | GetPostsByTagId tagId => answer Posts (getPostsByTagId tagId)
  | GetPostsByTagSlug tagSlug => answer Posts (getPostsByTagSlug tagSlug)
  | GetTagsByPostId postId => answer Tags (getTagsByPostId postId)
  | AddTagToPost postTag => answer PostTagRow (addTagToPost postTag)
  | RemoveTagFromPost postId tagId =>
      answer Flag (removeTagFromPost postId tagId)
  | CreateSubscriber now subscriber =>
      answer SubscriberRow (createSubscriber now subscriber)
  | GetSubscriberByEmail email =>
      answer OptSubscriber (getSubscriberByEmail email)
  | GetAllSubscribers => answer Subscribers getAllSubscribers
  end.

(** The outcomes of a sequence of calls, in order. *)
Fixpoint run (ops : list Op) (s : S) : list (Outcome Result) :=
  match ops with
  | [] => []
  | op :: rest =>
      let '(outcome, s') := perform op s in
      outcome :: run rest s'
  end.
End Perform.

(** At most one row of the join table per (post, tag) pair. *)
Definition singleLinks (rows : list PostTag.t) : Prop :=
  forall p t : Z,
    Z.of_nat
      (List.length
         (List.filter (fun pt => (PostTag.postId pt =? p)
                                 && (PostTag.tagId pt =? t)) rows)) <= 1.

(** An in-memory store and a database that hold the same rows and issue
    the same ids next; the posts, in whatever order the table has them,
    each with a [publishedAt] and a slug of its own, as the schema
    declares. *)
Record corresponds (m : MemStorage.t) (d : DatabaseStorage.t) : Prop := {
  mem_wellFormed : wellFormed m;
  same_users : Js.values (MemStorage.users m) = DatabaseStorage.users d;
  same_posts :
    Permutation (Js.values (MemStorage.posts m)) (DatabaseStorage.posts d);
  posts_dated : dated (DatabaseStorage.posts d);
  slugs_differ : NoDup (map Post.slug (DatabaseStorage.posts d));
  same_tags : Js.values (MemStorage.tags m) = DatabaseStorage.tags d;
  same_postTags :
    Js.values (MemStorage.postTags m) = DatabaseStorage.postTags d;
  same_subscribers :
    Js.values (MemStorage.subscribers m) = DatabaseStorage.subscribers d;
  same_user_id : MemStorage.currentUserId m = DatabaseStorage.users_id_seq d;
  same_post_id : MemStorage.currentPostId m = DatabaseStorage.posts_id_seq d;
  same_tag_id : MemStorage.currentTagId m = DatabaseStorage.tags_id_seq d;
  same_postTag_id :
    MemStorage.currentPostTagId m = DatabaseStorage.post_tags_id_seq d;
  same_subscriber_id :
    MemStorage.currentSubscriberId m = DatabaseStorage.subscribers_id_seq d;
  links_single : singleLinks (DatabaseStorage.postTags d)
}.

(** The calls on which the two stores are compared: a post is created
    with its [publishedAt], a page is asked for with a limit that is not
    negative, a post is deleted only when no row of the join table refers
    to it, and a tag is added to a post only when the pair is not
    associated yet. *)
Definition allowed (op : Op) (d : DatabaseStorage.t) : Prop :=
  match op with
  | CreatePost _ ins => InsertPost.publishedAt ins <> None
  | GetPaginatedPosts _ limit => 0 <= limit
  | DeletePost id =>
      forall pt, In pt (DatabaseStorage.postTags d) -> PostTag.postId pt <> id
  | AddTagToPost ins =>
      forall pt, In pt (DatabaseStorage.postTags d) ->
                 ~ (PostTag.postId pt = InsertPostTag.postId ins
                    /\ PostTag.tagId pt = InsertPostTag.tagId ins)
  | _ => True
  end.

(** A sequence of allowed calls none of which the database rejects. *)
Fixpoint admitted (ops : list Op) (d : DatabaseStorage.t) : Prop :=
  match ops with
  | [] => True
  | op :: rest =>
      allowed op d
      /\ match perform op d with
         | (Resolved _, d') => admitted rest d'
         | (Rejected _, _) => False
         end
  end.

(** The same conditions as computable checks. *)
Definition allowedb (op : Op) (d : DatabaseStorage.t) : bool :=
  match op with
  | CreatePost _ ins =>
      match InsertPost.publishedAt ins with Some _ => true | None => false end
  | GetPaginatedPosts _ limit => 0 <=? limit
  | DeletePost id =>
      forallb (fun pt => negb (PostTag.postId pt =? id))
              (DatabaseStorage.postTags d)
  | AddTagToPost ins =>
      forallb (fun pt => negb ((PostTag.postId pt =? InsertPostTag.postId ins)
                               && (PostTag.tagId pt
                                   =? InsertPostTag.tagId ins)))
              (DatabaseStorage.postTags d)
  | _ => true
  end.

Fixpoint admittedb (ops : list Op) (d : DatabaseStorage.t) : bool :=
  match ops with
  | [] => true
  | op :: rest =>
      allowedb op d
      && match perform op d with
         | (Resolved _, d') => admittedb rest d'
         | (Rejected _, _) => false
         end
  end.

(** What a caller can tell apart of the results [r] and [r'] of a call:
    nothing, when they are equal; and of a listing by recency, of its first
    post and of one of its pages, nothing that goes beyond the order of
    posts of equal [publishedAt]. *)
Definition indistinguishable (op : Op) (r r' : Result) : Prop :=
  match op with
  | GetAllPosts | GetPostsByTagId _ | GetPostsByTagSlug _ =>
      exists l l', sameUpToTies l l' /\ r = Posts l /\ r' = Posts l'
  | GetFeaturedPost =>
      exists l l',
        sameUpToTies l l'
        /\ r = OptPost (hd_error l) /\ r' = OptPost (hd_error l')
  | GetPaginatedPosts page limit =>
      let pageOf l :=
        Page (mkPage (Js.slice l ((page - 1) * limit) (page * limit))
                     (Z.of_nat (List.length l))) in
      exists l l', sameUpToTies l l' /\ r = pageOf l /\ r' = pageOf l'
  | _ => r = r'
  end.

(** Two runs of a sequence of calls resolve every call, with results the
    caller cannot tell apart. *)
Fixpoint agree (ops : list Op) (rs rs' : list (Outcome Result)) : Prop :=
  match ops, rs, rs' with
  | [], [], [] => True
  | op :: ops', Resolved r :: rest, Resolved r' :: rest' =>
      indistinguishable op r r' /\ agree ops' rest rest'
  | _, _, _ => False
  end.

End Session.

(** A session over empty stores: seed rows, reads, an update, removals, a
    deletion and a subscription. *)
Definition sampleCalls : list Session.Op :=
  [ Session.CreateUser Sample.admin;
    Session.CreateTag Sample.nextjs;
    Session.CreateTag Sample.mdx;
    Session.CreatePost 0 Sample.post2;
    Session.CreatePost 0 Sample.post1;
    Session.AddTagToPost (InsertPostTag.mk 2 1);
    Session.AddTagToPost (InsertPostTag.mk 2 2);
    Session.AddTagToPost (InsertPostTag.mk 1 1);
    Session.GetTagsByPostId 2;
    Session.GetPostsByTagSlug "nextjs";
    Session.GetAllPosts;
    Session.GetPaginatedPosts 1 6;
    Session.GetFeaturedPost;
    Session.UpdatePost 1
      (PartialInsertPost.mk None (Some "Dynamic Routes"%string) None None
                            None None None None);
    Session.RemoveTagFromPost 2 1;
    Session.RemoveTagFromPost 2 2;
    Session.GetTagsByPostId 2;
    Session.DeletePost 2;
    Session.GetPostBySlug "getting-started-with-nextjs-and-mdx";
    Session.CreateSubscriber 1686787200000 (InsertSubscriber.mk "a@b.com");
    Session.GetSubscriberByEmail "a@b.com" ].

(** The states of the in-memory store: what calls of the interface make of
    the store the constructor builds. *)
Inductive reachable : MemStorage.t -> Prop :=
| reachable_new (content : nat -> string) :
    reachable (MemStorage.new content)
| reachable_call (op : Session.Op) (s : MemStorage.t) :
    reachable s -> reachable (snd (Session.perform op s)).

(** The pages of [getPaginatedPosts] for a page size, first to last. *)
Definition pagesOf (limit : Z) (s : MemStorage.t) : list (list Post.t) :=
  map (fun k =>
         page_posts (MemStorage.getPaginatedPosts (Z.of_nat k + 1) limit s))
      (seq 0 (Z.to_nat (ceilDiv (Js.size (MemStorage.posts s)) limit))).

(** The routes that answer with rows of the store. *)
Module RowRoutes.

(** [res.status(n).json(value)]: the value, or a [{ message }] object. *)
Inductive Json (A : Type) :=
| Value (a : A)
| Message (message : string).
Arguments Value {A} a.
Arguments Message {A} message.

Record Reply (A : Type) := mkReply { replyStatus : Z; replyJson : Json A }.
Arguments mkReply {A} replyStatus replyJson.
Arguments replyStatus {A} r.
Arguments replyJson {A} r.

Section Handlers.
Context {S : Type} `{IStorage S}.

(** [try { ... } catch (error) { ... }] around the calls of the store *)
Definition tryCatch {A : Type} (m : Async S (Reply A))
           (handler : DbError -> Reply A) : S -> Reply A * S :=
  fun s =>
    match m s with
    | (Resolved r, s') => (r, s')
    | (Rejected e, s') => (handler e, s')
    end.

(** [GET /api/posts/:slug] *)
Definition get_api_posts_slug (slug : string) : S -> Response * S :=
  Routes.tryCatch
    (post <- getPostBySlug slug ;;
     match post with
     | None => ret (mkResponse 404 (MessageJson "Post not found"))
     | Some post =>
         tags <- getTagsByPostId (Post.id post) ;;
         ret (mkResponse 200 (PostJson (PostWithTags.mk post tags)))
     end)
    (fun _ => mkResponse 500 (MessageJson "Error fetching post")).

(** [GET /api/tags] *)
Definition get_api_tags : S -> Reply (list Tag.t) * S :=
  tryCatch
    (tags <- getAllTags ;;
     ret (mkReply 200 (Value tags)))
    (fun _ => mkReply 500 (Message "Error fetching tags")).

(** [GET /api/tags/:slug] *)
Definition get_api_tags_slug (slug : string) : S -> Reply Tag.t * S :=
  tryCatch
    (tag <- getTagBySlug slug ;;
     match tag with
     | None => ret (mkReply 404 (Message "Tag not found"))
     | Some tag => ret (mkReply 200 (Value tag))
     end)
    (fun _ => mkReply 500 (Message "Error fetching tag")).

(** [POST /api/tags] *)
Definition post_api_tags (parsed : Parsed InsertTag.t)
  : S -> Reply Tag.t * S :=
  match parsed with
  | ZodError message => fun s => (mkReply 400 (Message message), s)
  | Valid tagData =>
      tryCatch
        (tag <- createTag tagData ;;
         ret (mkReply 201 (Value tag)))
        (fun _ => mkReply 500 (Message "Error creating tag"))
  end.
End Handlers.

End RowRoutes.

(** The start of [registerRoutes]:
    [try { await storage.seedData() } catch (error) { console.error(...) }]
    on the exported store, a [DatabaseStorage]; a failure is logged and the
    routes are registered all the same. *)
Definition registerRoutes (content : nat -> string)
           (random : DatabaseStorage.Random) (now : Z) (d : DatabaseStorage.t)
  : DatabaseStorage.t :=
  snd (DatabaseStorage.seedData content random now d).

(** Text of ASCII characters, on which the string functions above agree
    with their JavaScript originals. *)
Fixpoint isAscii (s : string) : bool :=
  match s with
  | EmptyString => true
  | String c s' => Nat.ltb (nat_of_ascii c) 128 && isAscii s'
  end.

(** The characters of a slug: lower-case letters, digits, the underscore
    and the hyphen. *)
Definition isSlugChar (c : ascii) : bool :=
  Js.between 97 122 c || Js.between 48 57 c || Js.between 95 95 c
  || Js.between 45 45 c.

Fixpoint allChars (p : ascii -> bool) (s : string) : bool :=
  match s with
  | EmptyString => true
  | String c s' => p c && allChars p s'
  end.

(** The rows that [seedLinks] appends for a post, the first under the id
    [next]. *)
Fixpoint linkRows (postId next : Z) (tags : list Tag.t) : list PostTag.t :=
  match tags with
  | [] => []
  | tag :: rest =>
      PostTag.mk next postId (Tag.id tag) :: linkRows postId (next + 1) rest
  end.

(** The tags that seeding creates, under the ids a fresh store gives
    them. *)
Definition seededTags : list Tag.t :=
  [ Tag.mk 1 "Next.js" "nextjs"; Tag.mk 2 "MDX" "mdx";
    Tag.mk 3 "React" "react"; Tag.mk 4 "Routing" "routing";
    Tag.mk 5 "Web Development" "web-development";
    Tag.mk 6 "Advanced" "advanced"; Tag.mk 7 "Components" "components";
    Tag.mk 8 "Performance" "performance"; Tag.mk 9 "Images" "images";
    Tag.mk 10 "Tailwind CSS" "tailwind-css";
    Tag.mk 11 "Dark Mode" "dark-mode"; Tag.mk 12 "CSS" "css";
    Tag.mk 13 "RSS" "rss"; Tag.mk 14 "SEO" "seo" ]%string.

(** A source of randomness that leaves the tags in place and draws 0. *)
Definition noShuffle : DatabaseStorage.Random :=
  DatabaseStorage.mkRandom (fun _ tags => tags) (fun _ => 0).

(** An asynchronous call on the database leaves the users alone. *)
Definition keepsUsers {A : Type} (m : Async DatabaseStorage.t A) : Prop :=
  forall d, DatabaseStorage.users (snd (m d)) = DatabaseStorage.users d.

(** [{ ...post, tags }] with the tags the persistent store returns. *)
Definition persistentTags (d : DatabaseStorage.t) (postId : Z) : list Tag.t :=
  match fst (DatabaseStorage.getTagsByPostId postId d) with
  | Resolved tags => tags
  | Rejected _ => []
  end.

Definition persistentTagged (d : DatabaseStorage.t) (p : Post.t)
  : PostWithTags.t :=
  PostWithTags.mk p (persistentTags d (Post.id p)).

(** What [shared/schema.ts] declares of the tables of a database: the
    primary keys, the unique columns, the references and that
    [published_at] is not null; and, of the model, that each sequence is
    ahead of the ids in use. *)
Module Schema.
Record holds (d : DatabaseStorage.t) : Prop := {
  users_pkey : NoDup (map User.id (DatabaseStorage.users d));
  users_username_unique :
    NoDup (map User.username (DatabaseStorage.users d));
  posts_pkey : NoDup (map Post.id (DatabaseStorage.posts d));
  posts_slug_unique : NoDup (map Post.slug (DatabaseStorage.posts d));
  posts_published_at_not_null : dated (DatabaseStorage.posts d);
  tags_pkey : NoDup (map Tag.id (DatabaseStorage.tags d));
  tags_name_unique : NoDup (map Tag.name (DatabaseStorage.tags d));
  tags_slug_unique : NoDup (map Tag.slug (DatabaseStorage.tags d));
  post_tags_pkey : NoDup (map PostTag.id (DatabaseStorage.postTags d));
  subscribers_pkey :
    NoDup (map Subscriber.id (DatabaseStorage.subscribers d));
  subscribers_email_unique :
    NoDup (map Subscriber.email (DatabaseStorage.subscribers d));
  posts_author_id_fkey :
    forall p, In p (DatabaseStorage.posts d) ->
              DatabaseStorage.references_user d (Post.authorId p) = true;
  post_tags_post_id_fkey :
    forall pt, In pt (DatabaseStorage.postTags d) ->
               DatabaseStorage.post_exists d (PostTag.postId pt) = true;
  post_tags_tag_id_fkey :
    forall pt, In pt (DatabaseStorage.postTags d) ->
               DatabaseStorage.tag_exists d (PostTag.tagId pt) = true;
  users_seq_ahead :
    forall u, In u (DatabaseStorage.users d) ->
              User.id u < DatabaseStorage.users_id_seq d;
  posts_seq_ahead :
    forall p, In p (DatabaseStorage.posts d) ->
              Post.id p < DatabaseStorage.posts_id_seq d;
  tags_seq_ahead :
    forall g, In g (DatabaseStorage.tags d) ->
              Tag.id g < DatabaseStorage.tags_id_seq d;
  post_tags_seq_ahead :
    forall pt, In pt (DatabaseStorage.postTags d) ->
               PostTag.id pt < DatabaseStorage.post_tags_id_seq d;
  subscribers_seq_ahead :
    forall s, In s (DatabaseStorage.subscribers d) ->
              Subscriber.id s < DatabaseStorage.subscribers_id_seq d
}.
End Schema.

(** An asynchronous call keeps a property of the store, whatever its
    outcome. *)
Definition keeps {S A : Type} (P : S -> Prop) (m : Async S A) : Prop :=
  forall s, P s -> P (snd (m s)).

(** What [update(posts).set(u).where(eq(posts.id, id))] makes of a row. *)
Definition rewritePost (id : Z) (u : PartialInsertPost.t) (p : Post.t)
  : Post.t :=
  if Post.id p =? id then apply_updates p u else p.

(* ================================================================= *)
(** * Properties                                                      *)
(* ================================================================= *)

Example seeded_posts_by_recency (content : nat -> string) :
  map Post.id (MemStorage.getAllPosts (MemStorage.new content))
  = [1; 2; 3; 4; 5; 6].
Proof. vm_compute. reflexivity. Qed.

Example seeded_links (content : nat -> string) :
  map (fun pt => (PostTag.postId pt, PostTag.tagId pt))
      (Js.values (MemStorage.postTags (MemStorage.new content)))
  = [(1, 1); (1, 2); (2, 1); (3, 6); (3, 2); (4, 9); (4, 1); (5, 11);
     (5, 10); (6, 13)].
Proof. vm_compute. reflexivity. Qed.

Example seeded_tags_of_first_post (content : nat -> string) :
  map Tag.name (MemStorage.getTagsByPostId 1 (MemStorage.new content))
  = ["Next.js"; "MDX"]%string.
Proof. vm_compute. reflexivity. Qed.

Example slugOf_tag_name :
  MemStorage.slugOf "Web Development" = "web-development"%string.
Proof. reflexivity. Qed.

Example sample_db_posts_and_tags :
  option_map (map Post.id) (match fst (DatabaseStorage.getAllPosts Sample.db)
                            with Resolved ps => Some ps | Rejected _ => None
                            end)
  = Some [5; 4; 3; 2; 1]
  /\ fst (DatabaseStorage.getTagsByPostId 5 Sample.db)
     = Resolved [Tag.mk 1 "Next.js" "nextjs"; Tag.mk 2 "MDX" "mdx"].
Proof. split; reflexivity. Qed.

Example toUTCString_seed_date :
  JsDate.toUTCString 1686787200000 = "Thu, 15 Jun 2023 00:00:00 GMT"%string.
Proof. reflexivity. Qed.

(* ================================================================= *)
(** ** Facts about the built-ins                                      *)
(* ================================================================= *)

Module JsFacts.

Section Sort.
Context {A : Type} (cmp : A -> A -> Z).

(** Whatever the comparator, the sort returns the elements it was given. *)

Lemma insert_perm (x : A) (l : list A) :
  Permutation (Js.insert cmp x l) (x :: l).
Proof.
  induction l as [|y l IH]; simpl.
  - reflexivity.
  - destruct (cmp x y <=? 0).
    + reflexivity.
    + rewrite IH. apply perm_swap.
Qed.

Lemma sort_perm (l : list A) : Permutation (Js.sort cmp l) l.
Proof.
  induction l as [|x l IH]; simpl.
  - constructor.
  - rewrite insert_perm. now constructor.
Qed.

Lemma sort_length (l : list A) :
  List.length (Js.sort cmp l) = List.length l.
Proof. apply Permutation_length, sort_perm. Qed.

Lemma sort_In (x : A) (l : list A) : In x (Js.sort cmp l) <-> In x l.
Proof.
  split; apply Permutation_in; [|symmetry]; apply sort_perm.
Qed.

(** An array whose neighbours all compare in order is returned as it
    is. *)
Lemma sort_in_order (l : list A) :
  Sorted (fun a b => cmp a b <= 0) l -> Js.sort cmp l = l.
Proof.
  induction 1 as [|x l Hsorted IH Hhd]; [reflexivity|].
  change (Js.insert cmp x (Js.sort cmp l) = x :: l). rewrite IH.
  destruct Hhd as [|y l' Hxy]; [reflexivity|].
  cbn [Js.insert]. now rewrite (proj2 (Z.leb_le _ _) Hxy).
Qed.

(** Comparators that agree on the elements of an array sort it alike. *)
Lemma insert_ext_in (cmp' : A -> A -> Z) (x : A) (l : list A) :
  (forall y, In y l -> cmp x y = cmp' x y) ->
  Js.insert cmp x l = Js.insert cmp' x l.
Proof.
  induction l as [|y l IH]; intros Hsame; [reflexivity|].
  cbn [Js.insert]. rewrite (Hsame y) by now left.
  destruct (cmp' x y <=? 0); [reflexivity|].
  f_equal. apply IH. intros z Hz. apply Hsame. now right.
Qed.

(** A comparator that is total and transitive sorts: every element
    compares in order with all the elements behind it. *)
Hypothesis cmp_total : forall a b, 0 < cmp a b -> cmp b a <= 0.
Hypothesis cmp_trans :
  forall a b c, cmp a b <= 0 -> cmp b c <= 0 -> cmp a c <= 0.

Lemma insert_sorted (x : A) (l : list A) :
  StronglySorted (fun a b => cmp a b <= 0) l ->
  StronglySorted (fun a b => cmp a b <= 0) (Js.insert cmp x l).
Proof.
  induction 1 as [|y l Hs IH Hall]; simpl.
  - repeat constructor.
  - destruct (Z.leb_spec (cmp x y) 0) as [Hle|Hgt].
    + constructor; [now constructor|].
      constructor; [exact Hle|].
      rewrite Forall_forall in Hall |- *.
      intros z Hz. exact (cmp_trans _ _ _ Hle (Hall z Hz)).
    + constructor; [assumption|].
      rewrite Forall_forall in Hall |- *.
      intros z Hz.
      apply (Permutation_in _ (insert_perm x l)) in Hz.
      destruct Hz as [<-|Hz]; [now apply cmp_total | now apply Hall].
Qed.

Lemma sort_sorted (l : list A) :
  StronglySorted (fun a b => cmp a b <= 0) (Js.sort cmp l).
Proof.
  induction l as [|x l IH]; simpl.
  - constructor.
  - now apply insert_sorted.
Qed.
End Sort.

Lemma sort_ext_in {A : Type} (cmp cmp' : A -> A -> Z) (l : list A) :
  (forall a b, In a l -> In b l -> cmp a b = cmp' a b) ->
  Js.sort cmp l = Js.sort cmp' l.
Proof.
  induction l as [|x l IH]; intros Hsame; [reflexivity|].
  change (Js.insert cmp x (Js.sort cmp l)
          = Js.insert cmp' x (Js.sort cmp' l)).
  rewrite <- IH by (intros a b Ha Hb; apply Hsame; now right).
  apply insert_ext_in. intros y Hy. apply Hsame; [now left|].
  right. exact (proj1 (sort_In cmp y l) Hy).
Qed.

Section Parts.
Context {A : Type} (R : A -> A -> Prop).

Lemma sorted_skipn (n : nat) (l : list A) :
  StronglySorted R l -> StronglySorted R (skipn n l).
Proof.
  revert l. induction n as [|n IH]; intros l Hs; simpl.
  - assumption.
  - destruct l as [|x l]; [constructor|].
    inversion Hs; subst. now apply IH.
Qed.

Lemma In_take (n : nat) (l : list A) (x : A) :
  In x (firstn n l) -> In x l.
Proof.
  revert l. induction n as [|n IH]; intros [|y l]; simpl; try tauto.
  intros [->|Hx]; [now left | right; now apply IH].
Qed.

Lemma sorted_firstn (n : nat) (l : list A) :
  StronglySorted R l -> StronglySorted R (firstn n l).
Proof.
  revert l. induction n as [|n IH]; intros l Hs; simpl.
  - constructor.
  - destruct l as [|x l]; [constructor|].
    inversion Hs as [|? ? Hs' Hall]; subst.
    constructor; [now apply IH|].
    rewrite Forall_forall in Hall |- *.
    intros z Hz. apply Hall. eapply In_take, Hz.
Qed.

Lemma sorted_slice (l : list A) (a b : Z) :
  StronglySorted R l -> StronglySorted R (Js.slice l a b).
Proof.
  intros Hs. unfold Js.slice. now apply sorted_firstn, sorted_skipn.
Qed.
End Parts.

(** On a window that starts at or after the first element, [slice] is
    [take] after [drop]. *)
Lemma slice_window {A : Type} (l : list A) (a b : Z) :
  0 <= a <= b ->
  Js.slice l a b = firstn (Z.to_nat (b - a)) (skipn (Z.to_nat a) l).
Proof.
  intros Hab. unfold Js.slice, Js.relativeIndex.
  set (len := Z.of_nat (List.length l)).
  assert (Hlen : 0 <= len) by (unfold len; lia).
  destruct (Z.ltb_spec a 0) as [?|_]; [lia|].
  destruct (Z.ltb_spec b 0) as [?|_]; [lia|].
  destruct (Z_le_gt_dec len a) as [Hout|Hin].
  - (* the window starts past the end *)
    rewrite !skipn_all2 by (unfold len in *; lia).
    now rewrite !firstn_nil.
  - rewrite (Z.min_l a len) by lia.
    destruct (Z_le_gt_dec b len) as [Hb|Hb].
    + now rewrite (Z.min_l b len) by lia.
    + rewrite (Z.min_r b len) by lia.
      rewrite !firstn_all2; try reflexivity;
        rewrite length_skipn; unfold len in *; lia.
Qed.

Lemma slice_length_le {A : Type} (l : list A) (a b : Z) :
  0 <= a <= b -> Z.of_nat (List.length (Js.slice l a b)) <= b - a.
Proof.
  intros Hab. rewrite slice_window by assumption.
  rewrite length_firstn. lia.
Qed.

Lemma has_false_iff {V : Type} (k : Z) (m : Js.Map V) :
  Js.has k m = false <-> ~ In k (map fst m).
Proof.
  unfold Js.has. induction m as [|[k' v] m IH]; simpl.
  - tauto.
  - rewrite orb_false_iff, IH. destruct (Z.eqb_spec k' k); intuition congruence.
Qed.

End JsFacts.

(* ================================================================= *)
(** ** Listings by recency                                            *)
(* ================================================================= *)

Module Recency.

Lemma notBefore_iff (a b : Post.t) :
  DatabaseStorage.descPublishedAt a b <= 0 <-> notBefore a b.
Proof.
  unfold DatabaseStorage.descPublishedAt, notBefore.
  destruct (Post.publishedAt a) as [ta|], (Post.publishedAt b) as [tb|];
    split; intros H; try exact I; try lia; try contradiction.
Qed.

Lemma notBefore_refl (a : Post.t) : notBefore a a.
Proof. unfold notBefore. destruct (Post.publishedAt a); [lia | exact I]. Qed.

Lemma desc_total (a b : Post.t) :
  0 < DatabaseStorage.descPublishedAt a b ->
  DatabaseStorage.descPublishedAt b a <= 0.
Proof.
  unfold DatabaseStorage.descPublishedAt.
  destruct (Post.publishedAt a), (Post.publishedAt b); lia.
Qed.

Lemma desc_trans (a b c : Post.t) :
  DatabaseStorage.descPublishedAt a b <= 0 ->
  DatabaseStorage.descPublishedAt b c <= 0 ->
  DatabaseStorage.descPublishedAt a c <= 0.
Proof.
  unfold DatabaseStorage.descPublishedAt.
  destruct (Post.publishedAt a), (Post.publishedAt b), (Post.publishedAt c);
    lia.
Qed.

(** The order the database gives the rows. *)
Lemma ordered_descending (rows : list Post.t) :
  descending (DatabaseStorage.orderByPublishedAtDesc rows).
Proof.
  unfold descending, DatabaseStorage.orderByPublishedAtDesc.
  pose proof (JsFacts.sort_sorted DatabaseStorage.descPublishedAt
                desc_total desc_trans rows) as Hsorted.
  induction Hsorted as [|p l _ IH Hall]; constructor; [exact IH|].
  eapply Forall_impl; [|exact Hall]. intros q. apply notBefore_iff.
Qed.

(** On posts that carry a [publishedAt] the comparator of the in-memory
    store is the one of the database. *)
Lemma dated_sort (l : list Post.t) :
  dated l ->
  Js.sort byPublishedAtDesc l = DatabaseStorage.orderByPublishedAtDesc l.
Proof.
  intros Hdated. apply JsFacts.sort_ext_in. intros a b Ha Hb.
  apply Hdated in Ha, Hb.
  unfold byPublishedAtDesc, DatabaseStorage.descPublishedAt.
  destruct (Post.publishedAt a), (Post.publishedAt b); congruence.
Qed.

Lemma dated_descending (l : list Post.t) :
  dated l -> descending (Js.sort byPublishedAtDesc l).
Proof. intros Hdated. rewrite dated_sort by assumption. apply ordered_descending. Qed.

Lemma head_not_before (p q : Post.t) (rest : list Post.t) :
  descending (p :: rest) -> In q (p :: rest) -> notBefore p q.
Proof.
  intros Hsorted [<-|Hq]; [apply notBefore_refl|].
  inversion Hsorted as [|? ? _ Hall]; subst.
  rewrite Forall_forall in Hall. now apply Hall.
Qed.

Lemma dated_filter (f : Post.t -> bool) (l : list Post.t) :
  dated l -> dated (List.filter f l).
Proof. intros Hdated p Hp. apply filter_In in Hp as [Hp _]. now apply Hdated. Qed.

Lemma dated_perm (l l' : list Post.t) :
  Permutation l l' -> dated l -> dated l'.
Proof.
  intros Hperm Hdated p Hp. apply Hdated.
  apply (Permutation_in _ (Permutation_sym Hperm)). exact Hp.
Qed.

End Recency.

(* ================================================================= *)
(** ** The in-memory store: listings                                  *)
(* ================================================================= *)

Module MemFacts.

Lemma getAllPosts_perm (s : MemStorage.t) :
  Permutation (MemStorage.getAllPosts s) (Js.values (MemStorage.posts s)).
Proof. apply JsFacts.sort_perm. Qed.

Lemma getAllPosts_descending (s : MemStorage.t) :
  dated (Js.values (MemStorage.posts s)) ->
  descending (MemStorage.getAllPosts s).
Proof. apply Recency.dated_descending. Qed.

Lemma getAllPosts_length (s : MemStorage.t) :
  Z.of_nat (List.length (MemStorage.getAllPosts s))
  = Js.size (MemStorage.posts s).
Proof.
  unfold MemStorage.getAllPosts, Js.size, Js.values.
  rewrite JsFacts.sort_length, length_map. reflexivity.
Qed.

Lemma getAllPosts_In (s : MemStorage.t) (p : Post.t) :
  In p (MemStorage.getAllPosts s) <-> In p (Js.values (MemStorage.posts s)).
Proof. apply JsFacts.sort_In. Qed.

(** Calls of the interface lead from reachable stores to reachable
    stores. *)
Lemma reachable_createPost (ins : InsertPost.t) (s : MemStorage.t) :
  reachable s -> reachable (snd (MemStorage.createPost ins s)).
Proof. exact (reachable_call (Session.CreatePost 0 ins) s). Qed.

Lemma reachable_deletePost (id : Z) (s : MemStorage.t) :
  reachable s -> reachable (snd (MemStorage.deletePost id s)).
Proof. exact (reachable_call (Session.DeletePost id) s). Qed.

Lemma reachable_addTagToPost (ins : InsertPostTag.t) (s : MemStorage.t) :
  reachable s -> reachable (snd (MemStorage.addTagToPost ins s)).
Proof. exact (reachable_call (Session.AddTagToPost ins) s). Qed.

(** One column of a table of pairs that was computed. *)
Ltac first_column H :=
  let Hf := fresh in
  pose proof (f_equal (map fst) H) as Hf; rewrite map_map in Hf; exact Hf.

Ltac second_column H :=
  let Hf := fresh in
  pose proof (f_equal (map snd) H) as Hf; rewrite map_map in Hf; exact Hf.

(** An order by recency does not put a post before a later one. *)
Lemma later_post_first (l : list Post.t) (p q : Post.t) (tp tq : Z)
      (before between : list Post.t) :
  l = before ++ p :: between ++ [q] ->
  Post.publishedAt p = Some tp -> Post.publishedAt q = Some tq ->
  tp < tq -> ~ descending l.
Proof.
  intros -> Hp Hq Hlater Hsorted.
  induction before as [|x before IH]; cbn [app] in Hsorted.
  - assert (Hpq : notBefore p q).
    { apply (Recency.head_not_before p q (between ++ [q]) Hsorted).
      right. apply in_or_app. right. now left. }
    unfold notBefore in Hpq. rewrite Hp, Hq in Hpq. lia.
  - inversion Hsorted; subst. now apply IH.
Qed.

End MemFacts.

(** A post that is created last with the latest date is listed first; with
    a post without [publishedAt] created before it, it stays last. *)
Example dated_post_listed_first :
  map Post.id
      (MemStorage.getAllPosts
         (snd (MemStorage.createPost latestPost Sample.mem)))
  = [7; 1; 2; 3; 4; 5; 6]
  /\ map Post.id (MemStorage.getAllPosts (draftThenNews Sample.mem))
     = [1; 2; 3; 4; 5; 6; 7; 8].
Proof. split; vm_compute; reflexivity. Qed.

(** C6, on the in-memory store.  [createPost] stores a post that is given
    no [publishedAt] without one.  After such a call (post 7) and a
    [createPost] with the date of 1 January 2024 (post 8) on the
    constructed store, [getAllPosts] returns the posts in the order of
    their ids: post 8, the most recent, comes last, behind the seed posts
    of 2023; the second page of four and, once the posts 7 and 8 carry tag
    1, [getPostsByTagId] and [getPostsByTagSlug] end on post 8 as well.
    None of these lists is in non-increasing order of [publishedAt]. *)
Theorem mem_listing_out_of_order (content : nat -> string) :
  let s := draftThenNews (MemStorage.new content) in
  let tagged :=
    snd (MemStorage.addTagToPost
           (InsertPostTag.mk 8 1)
           (snd (MemStorage.addTagToPost (InsertPostTag.mk 7 1) s))) in
  let ofTag := MemStorage.getPostsByTagId 1 tagged in
  let page := page_posts (MemStorage.getPaginatedPosts 2 4 s) in
  reachable tagged
  /\ map Post.id (MemStorage.getAllPosts s) = [1; 2; 3; 4; 5; 6; 7; 8]
  /\ map Post.publishedAt (MemStorage.getAllPosts s)
     = [Some 1686787200000; Some 1686355200000; Some 1685923200000;
        Some 1685232000000; Some 1684540800000; Some 1684108800000;
        None; Some 1704067200000]
  /\ map Post.id page = [5; 6; 7; 8]
  /\ map Post.id ofTag = [1; 2; 4; 7; 8]
  /\ MemStorage.getPostsByTagSlug "nextjs" tagged = ofTag
  /\ ~ descending (MemStorage.getAllPosts s)
  /\ ~ descending page
  /\ ~ descending ofTag.
Proof.
  intros s tagged ofTag page.
  assert (Hall : map (fun p => (Post.id p, Post.publishedAt p))
                     (MemStorage.getAllPosts s)
                 = [(1, Some 1686787200000); (2, Some 1686355200000);
                    (3, Some 1685923200000); (4, Some 1685232000000);
                    (5, Some 1684540800000); (6, Some 1684108800000);
                    (7, None); (8, Some 1704067200000)]).
  { vm_compute. reflexivity. }
  assert (Hpage : map (fun p => (Post.id p, Post.publishedAt p)) page
                  = [(5, Some 1684540800000); (6, Some 1684108800000);
                     (7, None); (8, Some 1704067200000)]).
  { vm_compute. reflexivity. }
  assert (Htag : map (fun p => (Post.id p, Post.publishedAt p)) ofTag
                 = [(1, Some 1686787200000); (2, Some 1686355200000);
                    (4, Some 1685232000000); (7, None);
                    (8, Some 1704067200000)]).
  { vm_compute. reflexivity. }
  assert (Hslug : MemStorage.getPostsByTagSlug "nextjs" tagged = ofTag).
  { vm_compute. reflexivity. }
  assert (Hreach : reachable tagged).
  { unfold tagged, s, draftThenNews.
    apply MemFacts.reachable_addTagToPost, MemFacts.reachable_addTagToPost,
      MemFacts.reachable_createPost, MemFacts.reachable_createPost,
      reachable_new. }
  clearbody page ofTag tagged. set (all := MemStorage.getAllPosts s) in *.
  clearbody all. clearbody s.
  split; [exact Hreach|].
  split; [MemFacts.first_column Hall|].
  split; [MemFacts.second_column Hall|].
  split; [MemFacts.first_column Hpage|].
  split; [MemFacts.first_column Htag|].
  split; [exact Hslug|].
  split; [|split].
  - destruct all as [|p1 [|p2 [|p3 [|p4 [|p5 [|p6 [|p7 [|p8 [|]]]]]]]]];
      try discriminate Hall.
    injection Hall as _ H1 _ _ _ _ _ _ _ _ _ _ _ _ _ H8.
    exact (MemFacts.later_post_first
             _ p1 p8 _ _ [] [p2; p3; p4; p5; p6; p7] eq_refl H1 H8
             ltac:(lia)).
  - destruct page as [|p5 [|p6 [|p7 [|p8 [|]]]]]; try discriminate Hpage.
    injection Hpage as _ H5 _ _ _ _ _ H8.
    exact (MemFacts.later_post_first
             _ p5 p8 _ _ [] [p6; p7] eq_refl H5 H8 ltac:(lia)).
  - destruct ofTag as [|p1 [|p2 [|p4 [|p7 [|p8 [|]]]]]]; try discriminate Htag.
    injection Htag as _ H1 _ _ _ _ _ _ _ H8.
    exact (MemFacts.later_post_first
             _ p1 p8 _ _ [] [p2; p4; p7] eq_refl H1 H8 ltac:(lia)).
Qed.

(* ================================================================= *)
(** ** The routes over the in-memory store                            *)
(* ================================================================= *)

Module MemRoutes.

Lemma withTags_resolves (ps : list Post.t) (s : MemStorage.t) :
  Routes.withTags ps s = (Resolved (map (tagged s) ps), s).
Proof.
  unfold Routes.withTags. cbn [getTagsByPostId MemStorage_IStorage].
  induction ps as [|p ps IH]; [reflexivity|].
  cbn [forEachAsync]. unfold bind at 1. unfold bind at 1.
  unfold reads at 1.
  unfold ret at 1. unfold bind at 1. rewrite IH. reflexivity.
Qed.

Lemma ceilDiv_bounds (a b : Z) :
  0 < b -> (ceilDiv a b - 1) * b < a <= ceilDiv a b * b.
Proof.
  intros Hb. unfold ceilDiv.
  pose proof (Z.div_mod (- a) b ltac:(lia)) as Hdm.
  pose proof (Z.mod_pos_bound (- a) b Hb) as Hm.
  nia.
Qed.

Lemma nth_error_take_drop {A : Type} (l : list A) (n d k : nat) :
  (k < n)%nat -> nth_error (firstn n (skipn d l)) k = nth_error l (d + k).
Proof.
  intros Hk. rewrite nth_error_firstn.
  destruct (Nat.ltb_spec k n) as [_|?]; [|lia].
  apply nth_error_skipn.
Qed.

(** For page >= 1 and limit >= 1 a page is a window of the listing. *)
Lemma page_window (s : MemStorage.t) (page limit : Z) :
  1 <= page -> 1 <= limit ->
  page_posts (MemStorage.getPaginatedPosts page limit s)
  = firstn (Z.to_nat limit)
           (skipn (Z.to_nat ((page - 1) * limit)) (MemStorage.getAllPosts s)).
Proof.
  intros Hpage Hlimit. simpl. rewrite JsFacts.slice_window by nia.
  do 2 f_equal. lia.
Qed.

Lemma posts_route (q : PostsQuery) (s : MemStorage.t) :
  let page := orNumber (query_page q) 1 in
  let limit := orNumber (query_limit q) 6 in
  let r := MemStorage.getPaginatedPosts page limit s in
  Routes.get_api_posts q s
  = (mkResponse 200
       (PostsJson (map (tagged s) (page_posts r))
                  (mkPagination (page_total r) page limit
                                (ceilDiv (page_total r) limit))), s).
Proof.
  intros page limit r. unfold Routes.get_api_posts, Routes.tryCatch.
  fold page. fold limit.
  unfold bind at 1. cbn [getPaginatedPosts MemStorage_IStorage].
  unfold reads at 1. fold r.
  unfold bind at 1. rewrite withTags_resolves. reflexivity.
Qed.

End MemRoutes.

(** C1, on the in-memory store.  The constructed store without its posts
    4, 5 and 6, after [createPost] without [publishedAt] (post 7) and
    [createPost] with the date of 1 January 2024 (post 8), holds five
    posts.  [getAllPosts] returns them as 1, 2, 3, 7, 8, and page 2 with
    limit 2 holds the posts 3 and 7, with three pages in all: post 8, the
    most recent of the five, is on the last page, and the posts 1 and 2 of
    2023, which two posts are more recent than, are on the first. *)
Theorem mem_page_not_by_recency (content : nat -> string) :
  let s := draftThenNews (threePosts content) in
  let r := MemStorage.getPaginatedPosts 2 2 s in
  reachable s
  /\ Js.size (MemStorage.posts s) = 5
  /\ map Post.id (MemStorage.getAllPosts s) = [1; 2; 3; 7; 8]
  /\ map Post.publishedAt (MemStorage.getAllPosts s)
     = [Some 1686787200000; Some 1686355200000; Some 1685923200000;
        None; Some 1704067200000]
  /\ map Post.id (page_posts r) = [3; 7]
  /\ map Post.id (page_posts (MemStorage.getPaginatedPosts 3 2 s)) = [8]
  /\ Routes.get_api_posts (mkQuery (Some 2) (Some 2)) s
     = (mkResponse 200
          (PostsJson (map (tagged s) (page_posts r)) (mkPagination 5 2 2 3)),
        s)
  /\ ~ descending (MemStorage.getAllPosts s).
Proof.
  intros s r.
  assert (Hall : map (fun p => (Post.id p, Post.publishedAt p))
                     (MemStorage.getAllPosts s)
                 = [(1, Some 1686787200000); (2, Some 1686355200000);
                    (3, Some 1685923200000); (7, None);
                    (8, Some 1704067200000)]).
  { vm_compute. reflexivity. }
  assert (Hpage : map Post.id (page_posts r) = [3; 7]).
  { vm_compute. reflexivity. }
  assert (Hlast : map Post.id
                      (page_posts (MemStorage.getPaginatedPosts 3 2 s))
                  = [8]).
  { vm_compute. reflexivity. }
  assert (Hsize : Js.size (MemStorage.posts s) = 5).
  { vm_compute. reflexivity. }
  assert (Htotal : page_total r = 5).
  { vm_compute. reflexivity. }
  assert (Hreach : reachable s).
  { unfold s, draftThenNews, threePosts.
    apply MemFacts.reachable_createPost, MemFacts.reachable_createPost,
      MemFacts.reachable_deletePost, MemFacts.reachable_deletePost,
      MemFacts.reachable_deletePost, reachable_new. }
  pose proof (MemRoutes.posts_route (mkQuery (Some 2) (Some 2)) s) as Hroute.
  cbn [orNumber query_page query_limit Z.eqb] in Hroute. fold r in Hroute.
  rewrite Htotal in Hroute. change (ceilDiv 5 2) with 3 in Hroute.
  set (all := MemStorage.getAllPosts s) in *.
  clearbody r all. clearbody s.
  split; [exact Hreach|]. split; [exact Hsize|].
  split; [MemFacts.first_column Hall|].
  split; [MemFacts.second_column Hall|].
  split; [exact Hpage|]. split; [exact Hlast|]. split; [exact Hroute|].
  destruct all as [|p1 [|p2 [|p3 [|p7 [|p8 [|]]]]]]; try discriminate Hall.
  injection Hall as _ H1 _ _ _ _ _ _ _ H8.
  exact (MemFacts.later_post_first
           _ p1 p8 _ _ [] [p2; p3; p7] eq_refl H1 H8 ltac:(lia)).
Qed.

Module MemLookup.

Lemma find_none_iff {A : Type} (p : A -> bool) (l : list A) :
  Js.find p l = None <-> forall x, In x l -> p x = false.
Proof.
  unfold Js.find. split.
  - intros Hnone x Hx. eapply find_none; eassumption.
  - induction l as [|y l IH]; simpl; intros Hall; [reflexivity|].
    rewrite (Hall y) by now left. apply IH. intros x Hx. apply Hall. now right.
Qed.

Lemma head_is_latest (s : MemStorage.t) (p : Post.t) (rest : list Post.t) :
  dated (Js.values (MemStorage.posts s)) ->
  MemStorage.getAllPosts s = p :: rest ->
  In p (Js.values (MemStorage.posts s))
  /\ forall q, In q (Js.values (MemStorage.posts s)) -> notBefore p q.
Proof.
  intros Hdated Hall.
  pose proof (MemFacts.getAllPosts_descending s Hdated) as Hsorted.
  split.
  - apply MemFacts.getAllPosts_In. rewrite Hall. now left.
  - intros q Hq. apply MemFacts.getAllPosts_In in Hq.
    rewrite Hall in Hq, Hsorted.
    now apply (Recency.head_not_before p q rest).
Qed.

Lemma getAllPosts_nil_iff (s : MemStorage.t) :
  MemStorage.getAllPosts s = [] <-> MemStorage.posts s = [].
Proof.
  pose proof (MemFacts.getAllPosts_length s) as Hlen. unfold Js.size in Hlen.
  split; intros Hnil; rewrite Hnil in Hlen; simpl in Hlen.
  - destruct (MemStorage.posts s); [reflexivity | simpl in Hlen; lia].
  - destruct (MemStorage.getAllPosts s); [reflexivity | simpl in Hlen; lia].
Qed.

Lemma featured_route (s : MemStorage.t) :
  Routes.get_api_posts_featured s
  = match MemStorage.getFeaturedPost s with
    | Some p => (mkResponse 200 (PostJson (tagged s p)), s)
    | None => (mkResponse 404 (MessageJson "No featured post found"), s)
    end.
Proof.
  unfold Routes.get_api_posts_featured, Routes.tryCatch.
  unfold bind at 1. cbn [getFeaturedPost MemStorage_IStorage].
  unfold reads at 1.
  destruct (MemStorage.getFeaturedPost s); reflexivity.
Qed.

End MemLookup.

(** C8, on the in-memory store.  After [createPost] without
    [publishedAt] (post 7) and [createPost] with the date of 1 January 2024
    (post 8) on the constructed store, [getFeaturedPost] returns post 1, of
    15 June 2023, and [GET /api/posts/featured] answers 200 with it, while
    post 8 of the store is more recent. *)
Theorem mem_featured_not_latest (content : nat -> string) :
  let s := draftThenNews (MemStorage.new content) in
  exists featured latest,
    reachable s
    /\ MemStorage.getFeaturedPost s = Some featured
    /\ Post.id featured = 1
    /\ Post.publishedAt featured = Some 1686787200000
    /\ MemStorage.getPostById 8 s = Some latest
    /\ Post.publishedAt latest = Some 1704067200000
    /\ ~ notBefore featured latest
    /\ Routes.get_api_posts_featured s
       = (mkResponse 200 (PostJson (tagged s featured)), s).
Proof.
  intros s.
  assert (Hfirst : option_map (fun p => (Post.id p, Post.publishedAt p))
                              (MemStorage.getFeaturedPost s)
                   = Some (1, Some 1686787200000)).
  { vm_compute. reflexivity. }
  assert (Hlast : option_map Post.publishedAt (MemStorage.getPostById 8 s)
                  = Some (Some 1704067200000)).
  { vm_compute. reflexivity. }
  assert (Hreach : reachable s).
  { unfold s, draftThenNews.
    apply MemFacts.reachable_createPost, MemFacts.reachable_createPost,
      reachable_new. }
  pose proof (MemLookup.featured_route s) as Hroute.
  clearbody s.
  destruct (MemStorage.getFeaturedPost s) as [featured|];
    [|discriminate Hfirst].
  destruct (MemStorage.getPostById 8 s) as [latest|]; [|discriminate Hlast].
  injection Hfirst as Hid Hdate. injection Hlast as Hlatest.
  exists featured, latest.
  split; [exact Hreach|]. split; [reflexivity|]. split; [exact Hid|].
  split; [exact Hdate|]. split; [reflexivity|]. split; [exact Hlatest|].
  split; [|exact Hroute].
  unfold notBefore. rewrite Hdate, Hlatest. lia.
Qed.

(** X30. In an in-memory store whose posts all carry a [publishedAt]:
    [getAllPosts] returns the posts of the store in non-increasing order
    of [publishedAt]; so do [getPostsByTagId], [getPostsByTagSlug] and
    every page of [getPaginatedPosts], whose [total] is the number of
    posts; for page >= 1 and limit >= 1 the page holds the posts at the
    positions [(page-1)*limit + k] of that order, at most [limit], and
    [GET /api/posts] answers 200 with them and with [totalPages] the
    ceiling of [total / limit]; [getFeaturedPost] returns a post of the
    store that no post of the store is more recent than, with which
    [GET /api/posts/featured] answers 200; and when the store holds no
    post, [getFeaturedPost] returns nothing and the route answers 404. *)
Theorem dated_store_lists_by_recency (s : MemStorage.t) :
  dated (Js.values (MemStorage.posts s)) ->
  let listing := MemStorage.getAllPosts s in
  descending listing
  /\ Permutation listing (Js.values (MemStorage.posts s))
  /\ (forall tagId, descending (MemStorage.getPostsByTagId tagId s))
  /\ (forall tagSlug, descending (MemStorage.getPostsByTagSlug tagSlug s))
  /\ (forall page limit,
        descending (page_posts (MemStorage.getPaginatedPosts page limit s))
        /\ page_total (MemStorage.getPaginatedPosts page limit s)
           = Js.size (MemStorage.posts s))
  /\ (forall page limit,
        1 <= page -> 1 <= limit ->
        let r := MemStorage.getPaginatedPosts page limit s in
        let pages := ceilDiv (page_total r) limit in
        Z.of_nat (List.length (page_posts r)) <= limit
        /\ (forall k, Z.of_nat k < limit ->
              nth_error (page_posts r) k
              = nth_error listing (Z.to_nat ((page - 1) * limit) + k))
        /\ Routes.get_api_posts (mkQuery (Some page) (Some limit)) s
           = (mkResponse 200
                (PostsJson (map (tagged s) (page_posts r))
                           (mkPagination (page_total r) page limit pages)),
              s)
        /\ (pages - 1) * limit < page_total r <= pages * limit)
  /\ (MemStorage.posts s <> [] ->
      exists p,
        MemStorage.getFeaturedPost s = Some p
        /\ hd_error listing = Some p
        /\ In p (Js.values (MemStorage.posts s))
        /\ (forall q, In q (Js.values (MemStorage.posts s)) -> notBefore p q)
        /\ Routes.get_api_posts_featured s
           = (mkResponse 200 (PostJson (tagged s p)), s))
  /\ (MemStorage.posts s = [] ->
      MemStorage.getFeaturedPost s = None
      /\ Routes.get_api_posts_featured s
         = (mkResponse 404 (MessageJson "No featured post found"), s)).
Proof.
  intros Hdated listing.
  assert (Hsorted : descending listing).
  { now apply MemFacts.getAllPosts_descending. }
  assert (Htag : forall tagId,
             descending (MemStorage.getPostsByTagId tagId s)).
  { intros tagId. apply Recency.dated_descending.
    now apply Recency.dated_filter. }
  split; [exact Hsorted|]. split; [apply MemFacts.getAllPosts_perm|].
  split; [exact Htag|]. split; [|split; [|split; [|split]]].
  - intros tagSlug. unfold MemStorage.getPostsByTagSlug.
    destruct (MemStorage.getTagBySlug tagSlug s); [apply Htag | constructor].
  - intros page limit. split.
    + simpl. now apply JsFacts.sorted_slice.
    + apply MemFacts.getAllPosts_length.
  - intros page limit Hpage Hlimit r pages.
    split; [|split; [|split]].
    + unfold r. rewrite MemRoutes.page_window by assumption.
      rewrite length_firstn. lia.
    + intros k Hk. unfold r. rewrite MemRoutes.page_window by assumption.
      apply MemRoutes.nth_error_take_drop. lia.
    + pose proof (MemRoutes.posts_route (mkQuery (Some page) (Some limit)) s)
        as Hroute.
      cbn [orNumber query_page query_limit] in Hroute.
      destruct (Z.eqb_spec page 0) as [?|_]; [lia|].
      destruct (Z.eqb_spec limit 0) as [?|_]; [lia|].
      exact Hroute.
    + apply MemRoutes.ceilDiv_bounds. lia.
  - intros Hsome. rewrite MemLookup.featured_route.
    unfold MemStorage.getFeaturedPost. fold listing.
    destruct listing as [|p rest] eqn:Hall.
    + apply MemLookup.getAllPosts_nil_iff in Hall. contradiction.
    + exists p.
      destruct (MemLookup.head_is_latest s p rest Hdated Hall) as [Hin Hmax].
      repeat split; assumption.
  - intros Hnone. rewrite MemLookup.featured_route.
    unfold MemStorage.getFeaturedPost.
    apply MemLookup.getAllPosts_nil_iff in Hnone. rewrite Hnone.
    split; reflexivity.
Qed.

(** The constructed store after [deletePost 6] holds five posts, all with a
    [publishedAt]: page 2 with limit 2 holds the third and the fourth of
    the five by recency, and there are three pages. *)
Lemma dated_store_lists_by_recency_witness :
  dated (Js.values (MemStorage.posts Sample.fivePosts))
  /\ Js.size (MemStorage.posts Sample.fivePosts) = 5
  /\ descending (MemStorage.getAllPosts Sample.fivePosts)
  /\ map Post.id (MemStorage.getAllPosts Sample.fivePosts) = [1; 2; 3; 4; 5]
  /\ (let r := MemStorage.getPaginatedPosts 2 2 Sample.fivePosts in
      descending (page_posts r)
      /\ map Post.id (page_posts r) = [3; 4]
      /\ ceilDiv (page_total r) 2 = 3
      /\ nth_error (page_posts r) 1
         = nth_error (MemStorage.getAllPosts Sample.fivePosts) 3).
Proof.
  assert (Hcheck : forallb (fun p => match Post.publishedAt p with
                                     | Some _ => true
                                     | None => false
                                     end)
                           (Js.values (MemStorage.posts Sample.fivePosts))
                   = true).
  { vm_compute. reflexivity. }
  assert (Hdated : dated (Js.values (MemStorage.posts Sample.fivePosts))).
  { intros p Hp Hnone.
    pose proof (proj1 (forallb_forall _ _) Hcheck p Hp) as Hsome.
    cbn beta in Hsome. rewrite Hnone in Hsome. discriminate Hsome. }
  destruct (dated_store_lists_by_recency Sample.fivePosts Hdated)
    as (Hsorted & _ & _ & _ & Hpages & Hpage & _).
  destruct (Hpage 2 2 ltac:(lia) ltac:(lia)) as (_ & Hnth & _).
  split; [exact Hdated|]. split; [vm_compute; reflexivity|].
  split; [exact Hsorted|]. split; [vm_compute; reflexivity|].
  split; [apply Hpages|]. split; [vm_compute; reflexivity|].
  split; [vm_compute; reflexivity|].
  exact (Hnth 1%nat ltac:(lia)).
Defined.

(** C10. In the in-memory store, when no tag has the slug [slug],
    [getPostsByTagSlug slug] returns the empty list and
    [GET /api/tags/:slug/posts] answers 200 with an empty array. *)
Theorem unknown_tag_slug (s : MemStorage.t) (slug : string) :
  (forall g, In g (Js.values (MemStorage.tags s)) -> Tag.slug g <> slug) ->
  MemStorage.getPostsByTagSlug slug s = []
  /\ Routes.get_api_tags_slug_posts slug s
     = (mkResponse 200 (PostListJson []), s).
Proof.
  intros Hfresh.
  assert (Hnone : MemStorage.getTagBySlug slug s = None).
  { apply MemLookup.find_none_iff. intros g Hg.
    apply String.eqb_neq. now apply Hfresh. }
  assert (Hposts : MemStorage.getPostsByTagSlug slug s = []).
  { unfold MemStorage.getPostsByTagSlug. now rewrite Hnone. }
  split; [exact Hposts|].
  unfold Routes.get_api_tags_slug_posts, Routes.tryCatch.
  unfold bind at 1. cbn [getPostsByTagSlug MemStorage_IStorage].
  unfold reads at 1. rewrite Hposts. reflexivity.
Qed.

Lemma unknown_tag_slug_witness :
  MemStorage.getPostsByTagSlug "no-such-tag" Sample.mem = []
  /\ Routes.get_api_tags_slug_posts "no-such-tag" Sample.mem
     = (mkResponse 200 (PostListJson []), Sample.mem).
Proof.
  assert (Hnone : forallb (fun g => negb (String.eqb (Tag.slug g)
                                                      "no-such-tag"))
                           (Js.values (MemStorage.tags Sample.mem)) = true).
  { vm_compute. reflexivity. }
  apply (unknown_tag_slug Sample.mem "no-such-tag").
  intros g Hg.
  apply String.eqb_neq, negb_true_iff.
  exact (proj1 (forallb_forall _ _) Hnone g Hg).
Defined.

(* ================================================================= *)
(** ** The in-memory store stays well formed                          *)
(* ================================================================= *)

Module MemInvariant.

Section MapFacts.
Context {V : Type} (idOf : V -> Z).

Lemma has_true_iff (k : Z) (m : Js.Map V) :
  Js.has k m = true <-> In k (map fst m).
Proof.
  destruct (Js.has k m) eqn:Hhas.
  - split; [intros _|reflexivity].
    destruct (in_dec Z.eq_dec k (map fst m)) as [Hin|Hout]; [assumption|].
    apply JsFacts.has_false_iff in Hout. congruence.
  - apply JsFacts.has_false_iff in Hhas. split; [discriminate|contradiction].
Qed.

Lemma fresh_key (next : Z) (m : Js.Map V) :
  wf_map idOf next m -> Js.has next m = false.
Proof.
  intros [_ Hall]. apply JsFacts.has_false_iff. intros Hin.
  apply in_map_iff in Hin as (e & Hk & He).
  rewrite Forall_forall in Hall. specialize (Hall e He). lia.
Qed.

Lemma set_fresh (k : Z) (v : V) (m : Js.Map V) :
  Js.has k m = false -> Js.set k v m = m ++ [(k, v)].
Proof. unfold Js.set. now intros ->. Qed.

Lemma values_set_next (next : Z) (v : V) (m : Js.Map V) :
  wf_map idOf next m ->
  Js.values (Js.set next v m) = Js.values m ++ [v].
Proof.
  intros Hwf. rewrite set_fresh by now apply fresh_key.
  unfold Js.values. now rewrite map_app.
Qed.

Lemma wf_map_set_next (next : Z) (v : V) (m : Js.Map V) :
  wf_map idOf next m -> idOf v = next ->
  wf_map idOf (next + 1) (Js.set next v m).
Proof.
  intros Hwf Hid. pose proof (fresh_key _ _ Hwf) as Hfresh.
  rewrite set_fresh by assumption.
  destruct Hwf as [Hnd Hall]. split.
  - rewrite map_app. simpl.
    apply NoDup_app; [assumption | repeat constructor; intros [] |].
    intros k Hk [<-|[]].
    apply JsFacts.has_false_iff in Hfresh. contradiction.
  - apply Forall_app. split.
    + eapply Forall_impl; [|exact Hall]. simpl. intros e [? ?]. split; lia.
    + repeat constructor; simpl; lia.
Qed.

Lemma wf_map_set_same (next k : Z) (v : V) (m : Js.Map V) :
  wf_map idOf next m -> idOf v = k -> Js.has k m = true ->
  wf_map idOf next (Js.set k v m).
Proof.
  intros [Hnd Hall] Hid Hhas. unfold Js.set. rewrite Hhas.
  assert (Hkeys : map fst (map (fun e : Z * V =>
                                  if fst e =? k then (k, v) else e) m)
                  = map fst m).
  { rewrite map_map. apply map_ext. intros [k' v']. simpl.
    destruct (Z.eqb_spec k' k); simpl; congruence. }
  assert (Hnext : k < next).
  { apply has_true_iff, in_map_iff in Hhas as (e & <- & He).
    rewrite Forall_forall in Hall. now apply Hall. }
  split.
  - now rewrite Hkeys.
  - apply Forall_map. eapply Forall_impl; [|exact Hall].
    intros [k' v'] [? ?]. simpl in *.
    destruct (Z.eqb_spec k' k); simpl; split; congruence || lia.
Qed.

Lemma wf_map_delete (next k : Z) (m : Js.Map V) :
  wf_map idOf next m -> wf_map idOf next (snd (Js.delete k m)).
Proof.
  intros [Hnd Hall]. simpl. split.
  - clear Hall. induction m as [|[k' v'] m IH]; simpl; [constructor|].
    inversion Hnd as [|? ? Hnotin Hnd']; subst.
    destruct (Z.eqb_spec k' k); simpl; [now apply IH|].
    constructor; [|now apply IH].
    intros Hin. apply Hnotin.
    apply in_map_iff in Hin as (e & <- & He).
    apply filter_In in He as [He _]. now apply in_map.
  - rewrite Forall_forall in Hall |- *.
    intros e He. apply filter_In in He as [He _]. now apply Hall.
Qed.

Lemma wf_map_weaken (next next' : Z) (m : Js.Map V) :
  wf_map idOf next m -> next <= next' -> wf_map idOf next' m.
Proof.
  intros [Hnd Hall] Hle. split; [assumption|].
  eapply Forall_impl; [|exact Hall]. simpl. intros e [? ?]. split; lia.
Qed.

(** Looking a row up by key is looking it up by id. *)
Lemma get_some_iff (next k : Z) (v : V) (m : Js.Map V) :
  wf_map idOf next m ->
  Js.get k m = Some v <-> In (k, v) m.
Proof.
  intros [Hnd _]. unfold Js.get.
  induction m as [|[k' v'] m IH]; simpl.
  - split; [discriminate|tauto].
  - inversion Hnd as [|? ? Hnotin Hnd']; subst.
    destruct (Z.eqb_spec k' k) as [->|Hne]; simpl.
    + split.
      * intros [= ->]. now left.
      * intros [[= ->]|Hin]; [reflexivity|].
        exfalso. apply Hnotin. now apply (in_map fst) in Hin.
    + rewrite (IH Hnd'). split; [tauto|].
      intros [[= ? ?]|Hin]; [contradiction | assumption].
Qed.
End MapFacts.

Lemma empty_wellFormed : wellFormed MemStorage.empty.
Proof. repeat split; constructor. Qed.

Lemma apply_updates_id (p : Post.t) (u : PartialInsertPost.t) :
  Post.id (apply_updates p u) = Post.id p.
Proof. reflexivity. Qed.

Lemma createUser_wellFormed ins s :
  wellFormed s -> wellFormed (snd (MemStorage.createUser ins s)).
Proof.
  intros Hwf. destruct Hwf as (Hu & Hp & Hg & Hpt & Hsub).
  repeat split; simpl; try apply Hp; try apply Hg; try apply Hpt;
    try apply Hsub; now apply (wf_map_set_next User.id).
Qed.

Lemma createPost_wellFormed ins s :
  wellFormed s -> wellFormed (snd (MemStorage.createPost ins s)).
Proof.
  intros Hwf. destruct Hwf as (Hu & Hp & Hg & Hpt & Hsub).
  repeat split; simpl; try apply Hu; try apply Hg; try apply Hpt;
    try apply Hsub; now apply (wf_map_set_next Post.id).
Qed.

Lemma createTag_wellFormed ins s :
  wellFormed s -> wellFormed (snd (MemStorage.createTag ins s)).
Proof.
  intros Hwf. destruct Hwf as (Hu & Hp & Hg & Hpt & Hsub).
  repeat split; simpl; try apply Hu; try apply Hp; try apply Hpt;
    try apply Hsub; now apply (wf_map_set_next Tag.id).
Qed.

Lemma addTagToPost_wellFormed ins s :
  wellFormed s -> wellFormed (snd (MemStorage.addTagToPost ins s)).
Proof.
  intros Hwf. destruct Hwf as (Hu & Hp & Hg & Hpt & Hsub).
  repeat split; simpl; try apply Hu; try apply Hp; try apply Hg;
    try apply Hsub; now apply (wf_map_set_next PostTag.id).
Qed.

Lemma createSubscriber_wellFormed now ins s :
  wellFormed s -> wellFormed (snd (MemStorage.createSubscriber now ins s)).
Proof.
  intros Hwf. destruct Hwf as (Hu & Hp & Hg & Hpt & Hsub).
  repeat split; simpl; try apply Hu; try apply Hp; try apply Hg;
    try apply Hpt; now apply (wf_map_set_next Subscriber.id).
Qed.

Lemma updatePost_wellFormed id u s :
  wellFormed s -> wellFormed (snd (MemStorage.updatePost id u s)).
Proof.
  intros Hwf. unfold MemStorage.updatePost.
  destruct (Js.get id (MemStorage.posts s)) as [post|] eqn:Hget;
    [|exact Hwf].
  destruct Hwf as (Hu & Hp & Hg & Hpt & Hsub).
  assert (Hin : In (id, post) (MemStorage.posts s)).
  { now apply (get_some_iff Post.id _ _ _ _ Hp). }
  refine (conj Hu (conj _ (conj Hg (conj Hpt Hsub)))). simpl.
  apply (wf_map_set_same Post.id); try assumption.
  - destruct Hp as [_ Hall]. rewrite Forall_forall in Hall.
    destruct (Hall _ Hin) as [Hid _]. simpl in Hid. now rewrite Hid.
  - apply has_true_iff. now apply (in_map fst) in Hin.
Qed.

Lemma deletePost_wellFormed id s :
  wellFormed s -> wellFormed (snd (MemStorage.deletePost id s)).
Proof.
  intros (Hu & Hp & Hg & Hpt & Hsub).
  refine (conj Hu (conj _ (conj Hg (conj Hpt Hsub)))).
  exact (wf_map_delete Post.id _ id _ Hp).
Qed.

Lemma removeTagFromPost_wellFormed postId tagId s :
  wellFormed s ->
  wellFormed (snd (MemStorage.removeTagFromPost postId tagId s)).
Proof.
  intros Hwf. unfold MemStorage.removeTagFromPost.
  destruct (Js.find _ _) as [e|]; [|exact Hwf].
  destruct Hwf as (Hu & Hp & Hg & Hpt & Hsub).
  refine (conj Hu (conj Hp (conj Hg (conj _ Hsub)))).
  exact (wf_map_delete PostTag.id _ (PostTag.id e) _ Hpt).
Qed.

Lemma fold_left_wellFormed {A : Type} (f : MemStorage.t -> A -> MemStorage.t)
      (l : list A) (s : MemStorage.t) :
  (forall s' a, wellFormed s' -> wellFormed (f s' a)) ->
  wellFormed s -> wellFormed (fold_left f l s).
Proof.
  intros Hstep. revert s. induction l as [|a l IH]; intros s Hwf; simpl.
  - exact Hwf.
  - apply IH, Hstep, Hwf.
Qed.

Lemma seedTagsOf_wellFormed (post : Post.t) (title : string)
      (s : MemStorage.t) :
  wellFormed s -> wellFormed (MemStorage.seedTagsOf post title s).
Proof.
  unfold MemStorage.seedTagsOf. apply fold_left_wellFormed.
  intros s' tagName Hwf.
  destruct (MemStorage.getTagBySlug _ s'); [|exact Hwf].
  now apply addTagToPost_wellFormed.
Qed.

Lemma seedData_wellFormed (content : nat -> string) (s : MemStorage.t) :
  wellFormed s -> wellFormed (MemStorage.seedData content s).
Proof.
  intros Hwf. unfold MemStorage.seedData.
  pose proof (createUser_wellFormed (InsertUser.mk "admin" "admin123") s Hwf)
    as Huser.
  destruct (MemStorage.createUser _ s) as [author s1]. simpl in Huser.
  apply fold_left_wellFormed.
  - intros s' postData Hwf'.
    pose proof (createPost_wellFormed postData s' Hwf') as Hpost.
    destruct (MemStorage.createPost postData s') as [post s2].
    now apply seedTagsOf_wellFormed.
  - apply fold_left_wellFormed; [|exact Huser].
    intros s' name Hwf'. now apply createTag_wellFormed.
Qed.

(** The store of the constructor is well formed. *)
Lemma new_wellFormed (content : nat -> string) :
  wellFormed (MemStorage.new content).
Proof.
  unfold MemStorage.new.
  exact (seedData_wellFormed content MemStorage.empty empty_wellFormed).
Qed.

End MemInvariant.

(* ================================================================= *)
(** ** Subscriptions                                                  *)
(* ================================================================= *)

Module Subscribe.

Lemma find_some_of_In {A : Type} (p : A -> bool) (l : list A) (x : A) :
  In x l -> p x = true -> exists y, Js.find p l = Some y.
Proof.
  unfold Js.find. induction l as [|z l IH]; simpl; [tauto|].
  intros [->|Hin] Hp.
  - rewrite Hp. eauto.
  - destruct (p z); eauto.
Qed.

(** The route over the in-memory store, by cases on the pre-check. *)
Lemma subscribe_route_mem (now : Z) (email : string) (s : MemStorage.t) :
  Routes.post_api_subscribe now (Valid (InsertSubscriber.mk email)) s
  = match MemStorage.getSubscriberByEmail email s with
    | Some _ =>
        (mkResponse 400 (MessageJson "Email already subscribed"), s)
    | None =>
        (mkResponse 201 (MessageJson "Subscription successful"),
         snd (MemStorage.createSubscriber now (InsertSubscriber.mk email) s))
    end.
Proof.
  unfold Routes.post_api_subscribe, Routes.tryCatch.
  cbn [InsertSubscriber.email]. unfold bind at 1.
  cbn [getSubscriberByEmail MemStorage_IStorage]. unfold reads at 1.
  destruct (MemStorage.getSubscriberByEmail email s); reflexivity.
Qed.

Lemma first_filter_existsb {A : Type} (p : A -> bool) (l : list A) :
  match DatabaseStorage.first (List.filter p l) with
  | Some x => In x l /\ p x = true /\ existsb p l = true
  | None => existsb p l = false
  end.
Proof.
  induction l as [|x l IH]; simpl; [reflexivity|].
  destruct (p x) eqn:Hp; simpl.
  - auto.
  - destruct (DatabaseStorage.first (List.filter p l)); [|exact IH].
    destruct IH as (? & ? & ?). auto.
Qed.

(** The same route over the persistent store: after the pre-check the
    insert cannot violate the unique email. *)
Lemma subscribe_route_db (now : Z) (email : string) (d : DatabaseStorage.t) :
  Routes.post_api_subscribe now (Valid (InsertSubscriber.mk email)) d
  = if existsb (fun sub => String.eqb (Subscriber.email sub) email)
               (DatabaseStorage.subscribers d)
    then (mkResponse 400 (MessageJson "Email already subscribed"), d)
    else (mkResponse 201 (MessageJson "Subscription successful"),
          snd (DatabaseStorage.createSubscriber
                 now (InsertSubscriber.mk email) d)).
Proof.
  unfold Routes.post_api_subscribe, Routes.tryCatch.
  cbn [InsertSubscriber.email]. unfold bind at 1.
  cbn [getSubscriberByEmail createSubscriber DatabaseStorage_IStorage].
  unfold DatabaseStorage.getSubscriberByEmail, reads.
  pose proof (first_filter_existsb
                (fun sub => String.eqb (Subscriber.email sub) email)
                (DatabaseStorage.subscribers d)) as Hfirst.
  destruct (DatabaseStorage.first _) as [sub|].
  - destruct Hfirst as (_ & _ & ->). reflexivity.
  - rewrite Hfirst. unfold bind, DatabaseStorage.createSubscriber.
    cbn [InsertSubscriber.email]. rewrite Hfirst. reflexivity.
Qed.

End Subscribe.

(** C4. Over a well-formed in-memory store, [POST /api/subscribe] with an
    email that a subscriber already has answers 400 "Email already
    subscribed" and leaves the store as it was; with an email that no
    subscriber has it answers 201 and appends exactly one subscriber with
    that email, after which the same request answers 400. *)
Theorem subscribe_once (s : MemStorage.t) (now : Z) (email : string) :
  wellFormed s ->
  let request := Valid (InsertSubscriber.mk email) in
  let out := Routes.post_api_subscribe now request s in
  ((exists sub, In sub (MemStorage.getAllSubscribers s)
                /\ Subscriber.email sub = email) ->
     fst out = mkResponse 400 (MessageJson "Email already subscribed")
     /\ snd out = s)
  /\ ((forall sub, In sub (MemStorage.getAllSubscribers s) ->
                   Subscriber.email sub <> email) ->
      fst out = mkResponse 201 (MessageJson "Subscription successful")
      /\ (exists sub,
            MemStorage.getAllSubscribers (snd out)
            = MemStorage.getAllSubscribers s ++ [sub]
            /\ Subscriber.email sub = email)
      /\ (forall later,
            Routes.post_api_subscribe later request (snd out)
            = (mkResponse 400 (MessageJson "Email already subscribed"),
               snd out))).
Proof.
  intros Hwf request out. unfold out, request.
  rewrite Subscribe.subscribe_route_mem. split.
  - intros (sub & Hin & Hemail).
    destruct (Subscribe.find_some_of_In
                (fun x => String.eqb (Subscriber.email x) email)
                _ sub Hin) as [y Hy].
    { now apply String.eqb_eq. }
    unfold MemStorage.getSubscriberByEmail.
    unfold MemStorage.getAllSubscribers in Hy. rewrite Hy. now split.
  - intros Hfresh.
    assert (Hnone : MemStorage.getSubscriberByEmail email s = None).
    { apply MemLookup.find_none_iff. intros sub Hsub.
      apply String.eqb_neq. now apply Hfresh. }
    rewrite Hnone. cbn [fst snd].
    destruct Hwf as (_ & _ & _ & _ & Hsubs).
    set (sub := subscriber_of (InsertSubscriber.mk email)
                              (MemStorage.currentSubscriberId s) now).
    remember (snd (MemStorage.createSubscriber
                     now (InsertSubscriber.mk email) s)) as s1 eqn:Hs1.
    assert (Hvalues : Js.values (MemStorage.subscribers s1)
                      = Js.values (MemStorage.subscribers s) ++ [sub]).
    { subst s1. simpl.
      now apply (MemInvariant.values_set_next Subscriber.id _ _ _ Hsubs). }
    split; [reflexivity|]. split.
    + exists sub. split; [exact Hvalues | reflexivity].
    + intros later. rewrite Subscribe.subscribe_route_mem.
      destruct (Subscribe.find_some_of_In
                  (fun x => String.eqb (Subscriber.email x) email)
                  (Js.values (MemStorage.subscribers s1)) sub)
        as [y Hy].
      { rewrite Hvalues. apply in_or_app. right. now left. }
      { apply String.eqb_refl. }
      unfold MemStorage.getSubscriberByEmail. now rewrite Hy.
Qed.

Lemma subscribe_once_witness :
  wellFormed MemStorage.empty
  /\ fst (Routes.post_api_subscribe 0 (Valid (InsertSubscriber.mk "a@b.com"))
                                    MemStorage.empty)
     = mkResponse 201 (MessageJson "Subscription successful")
  /\ fst (Routes.post_api_subscribe 1 (Valid (InsertSubscriber.mk "a@b.com"))
            (snd (Routes.post_api_subscribe
                    0 (Valid (InsertSubscriber.mk "a@b.com"))
                    MemStorage.empty)))
     = mkResponse 400 (MessageJson "Email already subscribed").
Proof.
  split; [exact MemInvariant.empty_wellFormed|].
  destruct (subscribe_once MemStorage.empty 0 "a@b.com"
                           MemInvariant.empty_wellFormed)
    as [_ Hfresh].
  destruct Hfresh as (Hcreated & _ & Hagain).
  - intros sub [].
  - split; [exact Hcreated|]. now rewrite Hagain.
Defined.

(* ================================================================= *)
(** ** Tags of a post                                                 *)
(* ================================================================= *)

Module TagLinks.

Section ById.
Context {V : Type} (idOf : V -> Z).

Lemma no_row_with_absent_key (next k : Z) (m : Js.Map V) :
  wf_map idOf next m -> ~ In k (map fst m) ->
  List.filter (fun x => idOf x =? k) (Js.values m) = [].
Proof.
  intros [_ Hall] Hout. induction m as [|[k' v'] m IH]; simpl; [reflexivity|].
  inversion Hall as [|? ? [Hid _] Hall']; subst. simpl in *.
  destruct (Z.eqb_spec (idOf v') k) as [Heq|_].
  - exfalso. apply Hout. left. congruence.
  - apply IH; [assumption | tauto].
Qed.

(** A map holds one row per id. *)
Lemma one_row_per_id (next k : Z) (v : V) (m : Js.Map V) :
  wf_map idOf next m -> Js.get k m = Some v ->
  List.filter (fun x => idOf x =? k) (Js.values m) = [v].
Proof.
  intros Hwf. pose proof Hwf as [Hnd Hall]. unfold Js.get.
  induction m as [|[k' v'] m IH]; simpl; [discriminate|].
  inversion Hnd as [|? ? Hnotin Hnd']; subst.
  inversion Hall as [|? ? [Hid Hlt] Hall']; subst. simpl in *.
  assert (Hwf' : wf_map idOf next m) by now split.
  destruct (Z.eqb_spec k' k) as [->|Hne]; simpl.
  - intros [= ->]. rewrite <- Hid, Z.eqb_refl. f_equal.
    now apply (no_row_with_absent_key next).
  - intros Hget. destruct (Z.eqb_spec (idOf v') k) as [?|_]; [congruence|].
    now apply IH.
Qed.

Lemma delete_last (next : Z) (v : V) (m : Js.Map V) :
  wf_map idOf next m ->
  Js.delete next (m ++ [(next, v)]) = (true, m).
Proof.
  intros [_ Hall]. unfold Js.delete. f_equal.
  - unfold Js.has. rewrite existsb_app. simpl.
    rewrite Z.eqb_refl. now rewrite orb_true_r.
  - rewrite filter_app. simpl. rewrite Z.eqb_refl. simpl.
    rewrite app_nil_r. induction m as [|[k' v'] m IH]; simpl; [reflexivity|].
    inversion Hall as [|? ? [_ Hlt] Hall']; subst. simpl in *.
    destruct (Z.eqb_spec k' next) as [?|_]; [lia|]. simpl.
    f_equal. now apply IH.
Qed.
End ById.

Lemma filter_filter_implied {A : Type} (f g : A -> bool) (l : list A) :
  (forall x, f x = true -> g x = true) ->
  List.filter f (List.filter g l) = List.filter f l.
Proof.
  intros Himp. induction l as [|x l IH]; simpl; [reflexivity|].
  destruct (g x) eqn:Hg; simpl.
  - now rewrite IH.
  - destruct (f x) eqn:Hf; [|exact IH].
    apply Himp in Hf. congruence.
Qed.

Lemma find_appended {A : Type} (f : A -> bool) (l : list A) (x : A) :
  (forall y, In y l -> f y = false) -> f x = true ->
  Js.find f (l ++ [x]) = Some x.
Proof.
  intros Hnone Hx. unfold Js.find.
  induction l as [|y l IH]; simpl.
  - now rewrite Hx.
  - rewrite (Hnone y) by now left. apply IH. intros z Hz. apply Hnone. now right.
Qed.

Lemma includes_true_iff (l : list Z) (x : Z) :
  Js.includes l x = true <-> In x l.
Proof.
  unfold Js.includes. rewrite existsb_exists. split.
  - intros (y & Hy & Heq). apply Z.eqb_eq in Heq. now subst.
  - intros Hin. exists x. split; [assumption | apply Z.eqb_refl].
Qed.

Lemma tagIdsOf_In (postId t : Z) (rows : list PostTag.t) :
  In t (tagIdsOf postId rows)
  <-> exists pt, In pt rows /\ PostTag.postId pt = postId
                 /\ PostTag.tagId pt = t.
Proof.
  unfold tagIdsOf, Js.filter. rewrite in_map_iff. split.
  - intros (pt & Ht & Hin). apply filter_In in Hin as [Hin Hp].
    apply Z.eqb_eq in Hp. eauto.
  - intros (pt & Hin & Hp & Ht). exists pt. split; [assumption|].
    apply filter_In. split; [assumption | now apply Z.eqb_eq].
Qed.

(** [deletePost] of the in-memory store touches the posts only. *)
Lemma mem_deletePost_keeps_rows (id : Z) (s : MemStorage.t) :
  MemStorage.postTags (snd (MemStorage.deletePost id s))
  = MemStorage.postTags s
  /\ forall postId,
       MemStorage.getTagsByPostId postId (snd (MemStorage.deletePost id s))
       = MemStorage.getTagsByPostId postId s.
Proof. split; reflexivity. Qed.

(** [deletePost] of the persistent store deletes the rows of the join
    table first. *)
Lemma db_deletePost_cascades (id : Z) (d : DatabaseStorage.t) :
  let d' := snd (DatabaseStorage.deletePost id d) in
  (forall pt, In pt (DatabaseStorage.postTags d') -> PostTag.postId pt <> id)
  /\ DatabaseStorage.getTagsByPostId id d' = (Resolved [], d').
Proof.
  intros d'.
  assert (Hgone : forall pt, In pt (DatabaseStorage.postTags d') ->
                             PostTag.postId pt <> id).
  { intros pt Hin. unfold d' in Hin. simpl in Hin.
    apply filter_In in Hin as [_ Hne].
    apply negb_true_iff, Z.eqb_neq in Hne. exact Hne. }
  split; [exact Hgone|]. clearbody d'.
  unfold DatabaseStorage.getTagsByPostId, reads. f_equal. f_equal.
  unfold DatabaseStorage.innerJoin.
  generalize (DatabaseStorage.tags d') as gs.
  induction gs as [|g gs IH]; simpl; [reflexivity|].
  rewrite filter_app, map_app, IH, app_nil_r.
  clear IH. induction (DatabaseStorage.postTags d') as [|pt pts IH];
    simpl; [reflexivity|].
  destruct (Tag.id g =? PostTag.tagId pt); simpl.
  - destruct (Z.eqb_spec (PostTag.postId pt) id) as [Heq|_].
    + exfalso. apply (Hgone pt); [now left | exact Heq].
    + apply IH. intros pt' Hin. apply Hgone. now right.
  - apply IH. intros pt' Hin. apply Hgone. now right.
Qed.

Lemma sample_mem_wellFormed : wellFormed Sample.mem.
Proof. exact (MemInvariant.new_wellFormed (fun _ => EmptyString)). Qed.

End TagLinks.

(** C2, on the in-memory store.  In the store of the constructor the first
    seed post (id 1) carries the tags Next.js and MDX; [deletePost 1]
    reports success and removes the post, yet its two rows of the join map
    remain and [getTagsByPostId 1] still returns the two tags. *)
Theorem mem_deletePost_orphans_post_tags (content : nat -> string) :
  let out := MemStorage.deletePost 1 (MemStorage.new content) in
  fst out = true
  /\ MemStorage.getPostById 1 (snd out) = None
  /\ map PostTag.tagId
       (List.filter (fun pt => PostTag.postId pt =? 1)
                    (Js.values (MemStorage.postTags (snd out))))
     = [1; 2]
  /\ map Tag.name (MemStorage.getTagsByPostId 1 (snd out))
     = ["Next.js"; "MDX"]%string.
Proof. vm_compute. repeat split. Qed.

(** C5, as the in-memory store has it.  In a well-formed store that holds
    tag [t]: after [addTagToPost {postId: p, tagId: t}],
    [getTagsByPostId p] contains tag [t] exactly once; and when [p] was not
    associated with [t] before, a following [removeTagFromPost p t]
    succeeds and [getTagsByPostId p] no longer contains tag [t]. *)
Theorem tag_added_then_removed (s : MemStorage.t) (p t : Z) (tag : Tag.t) :
  wellFormed s ->
  MemStorage.getTagById t s = Some tag ->
  let s1 := snd (MemStorage.addTagToPost (InsertPostTag.mk p t) s) in
  let s2 := snd (MemStorage.removeTagFromPost p t s1) in
  List.filter (fun g => Tag.id g =? t) (MemStorage.getTagsByPostId p s1)
  = [tag]
  /\ ((forall pt, In pt (Js.values (MemStorage.postTags s)) ->
                  ~ (PostTag.postId pt = p /\ PostTag.tagId pt = t)) ->
      fst (MemStorage.removeTagFromPost p t s1) = true
      /\ forall g, In g (MemStorage.getTagsByPostId p s2) -> Tag.id g <> t).
Proof.
  intros Hwf Htag s1 s2.
  destruct Hwf as (_ & _ & Htags & Hpts & _).
  set (next := MemStorage.currentPostTagId s) in *.
  set (row := postTag_of (InsertPostTag.mk p t) next).
  assert (Hrows1 : MemStorage.postTags s1 = MemStorage.postTags s ++ [(next, row)]).
  { unfold s1. simpl.
    apply MemInvariant.set_fresh, (MemInvariant.fresh_key PostTag.id), Hpts. }
  assert (Hvalues1 : Js.values (MemStorage.postTags s1)
                     = Js.values (MemStorage.postTags s) ++ [row]).
  { rewrite Hrows1. unfold Js.values. now rewrite map_app. }
  split.
  - unfold MemStorage.getTagsByPostId, Js.filter.
    rewrite TagLinks.filter_filter_implied.
    + change (MemStorage.tags s1) with (MemStorage.tags s).
      exact (TagLinks.one_row_per_id Tag.id _ _ _ _ Htags Htag).
    + intros g Hg. apply Z.eqb_eq in Hg.
      apply TagLinks.includes_true_iff.
      apply (TagLinks.tagIdsOf_In p (Tag.id g)).
      exists row. rewrite Hvalues1. split; [|split].
      * apply in_or_app. right. now left.
      * reflexivity.
      * simpl. congruence.
  - intros Hnew.
    assert (Hfind :
              Js.find (fun pt => (PostTag.postId pt =? p)
                                 && (PostTag.tagId pt =? t))
                      (Js.values (MemStorage.postTags s1)) = Some row).
    { rewrite Hvalues1. apply TagLinks.find_appended.
      - intros pt Hin.
        destruct (Z.eqb_spec (PostTag.postId pt) p) as [Hp|_];
          [|reflexivity].
        destruct (Z.eqb_spec (PostTag.tagId pt) t) as [Ht|_];
          [|reflexivity].
        exfalso. now apply (Hnew pt Hin).
      - simpl. now rewrite !Z.eqb_refl. }
    assert (Hrows2 : MemStorage.removeTagFromPost p t s1
                     = (true,
                        MemStorage.with_postTags s1 (MemStorage.postTags s)
                                                 (next + 1))).
    { unfold MemStorage.removeTagFromPost. rewrite Hfind.
      change (PostTag.id row) with next. rewrite Hrows1.
      rewrite (TagLinks.delete_last PostTag.id _ _ _ Hpts). reflexivity. }
    split; [now rewrite Hrows2|].
    unfold s2. rewrite Hrows2. simpl snd.
    intros g Hg Heq. unfold MemStorage.getTagsByPostId, Js.filter in Hg.
    apply filter_In in Hg as [_ Hinc]. simpl in Hinc.
    apply TagLinks.includes_true_iff in Hinc.
    apply (TagLinks.tagIdsOf_In p (Tag.id g)) in Hinc
      as (pt & Hin & Hp & Ht).
    apply (Hnew pt Hin). split; congruence.
Qed.

Lemma tag_added_then_removed_witness :
  let s1 := snd (MemStorage.addTagToPost (InsertPostTag.mk 3 1) Sample.mem) in
  let s2 := snd (MemStorage.removeTagFromPost 3 1 s1) in
  wellFormed Sample.mem
  /\ MemStorage.getTagById 1 Sample.mem = Some (Tag.mk 1 "Next.js" "nextjs")
  /\ List.filter (fun g => Tag.id g =? 1) (MemStorage.getTagsByPostId 3 s1)
     = [Tag.mk 1 "Next.js" "nextjs"]
  /\ fst (MemStorage.removeTagFromPost 3 1 s1) = true
  /\ (forall g, In g (MemStorage.getTagsByPostId 3 s2) -> Tag.id g <> 1).
Proof.
  intros s1 s2.
  split; [exact TagLinks.sample_mem_wellFormed|].
  assert (Htag : MemStorage.getTagById 1 Sample.mem
                 = Some (Tag.mk 1 "Next.js" "nextjs")).
  { vm_compute. reflexivity. }
  split; [exact Htag|].
  destruct (tag_added_then_removed
              Sample.mem 3 1 (Tag.mk 1 "Next.js" "nextjs")
              TagLinks.sample_mem_wellFormed Htag) as [Honce Hgone].
  split; [exact Honce|]. apply Hgone.
  assert (Hfree : forallb (fun pt => negb ((PostTag.postId pt =? 3)
                                           && (PostTag.tagId pt =? 1)))
                          (Js.values (MemStorage.postTags Sample.mem)) = true).
  { vm_compute. reflexivity. }
  intros pt Hin [Hp Ht].
  pose proof (proj1 (forallb_forall _ _) Hfree pt Hin) as Hmiss.
  cbn beta in Hmiss. rewrite Hp, Ht in Hmiss. discriminate Hmiss.
Defined.

(** The first seed post of the constructed store already carries tag 1;
    adding the tag again and removing it once leaves the tag on the
    post. *)
Lemma tag_remains_after_remove :
  let s1 := snd (MemStorage.addTagToPost (InsertPostTag.mk 1 1) Sample.mem) in
  let s2 := snd (MemStorage.removeTagFromPost 1 1 s1) in
  wellFormed Sample.mem
  /\ Js.has 1 (MemStorage.posts Sample.mem) = true
  /\ Js.has 1 (MemStorage.tags Sample.mem) = true
  /\ fst (MemStorage.removeTagFromPost 1 1 s1) = true
  /\ In (Tag.mk 1 "Next.js" "nextjs") (MemStorage.getTagsByPostId 1 s2).
Proof.
  split; [exact TagLinks.sample_mem_wellFormed|].
  vm_compute. repeat split. now left.
Qed.

(* ================================================================= *)
(** ** Creation and the constraints of the schema                     *)
(* ================================================================= *)

Module Creation.

Lemma references_user_false_iff (d : DatabaseStorage.t) (a : option Z) :
  DatabaseStorage.references_user d a = false
  <-> Constraint.author_missing d a.
Proof.
  unfold DatabaseStorage.references_user, Constraint.author_missing.
  destruct a as [uid|].
  - split.
    + intros Hnone. exists uid. split; [reflexivity|].
      intros u Hu Heq.
      assert (Hex : existsb (fun u => User.id u =? uid)
                            (DatabaseStorage.users d) = true).
      { apply existsb_exists. exists u. split; [assumption|].
        now apply Z.eqb_eq. }
      congruence.
    + intros (uid' & [= <-] & Hall).
      destruct (existsb _ _) eqn:Hex; [|reflexivity].
      apply existsb_exists in Hex as (u & Hu & Heq).
      apply Z.eqb_eq in Heq. now apply Hall in Hu.
  - split; [discriminate|]. intros (uid & Habs & _). discriminate.
Qed.

Lemma taken_iff {A : Type} (field : A -> string) (v : string) (l : list A) :
  existsb (fun x => String.eqb (field x) v) l = true
  <-> exists x, In x l /\ field x = v.
Proof.
  rewrite existsb_exists. split; intros (x & Hx & Heq); exists x;
    (split; [assumption|]); now apply String.eqb_eq.
Qed.

Lemma not_taken_iff {A : Type} (field : A -> string) (v : string)
      (l : list A) :
  existsb (fun x => String.eqb (field x) v) l = false
  <-> ~ exists x, In x l /\ field x = v.
Proof.
  rewrite <- taken_iff. destruct (existsb _ l); split; congruence.
Qed.

End Creation.

(** C9, as the persistent store has it.  [createPost], [createTag] and
    [createSubscriber] either resolve with the created row, which is
    appended to its table under the next id of the sequence (a post with
    the time of the insert for a [publishedAt] it was not given), or reject
    and leave the table as it was; they reject exactly when the insert violates
    a constraint of the schema: a taken post slug or an author id that no
    user has, a taken tag name or tag slug, a taken subscriber email.  In
    particular [createPost] with the slug of an existing post is rejected
    and adds no row. *)
Theorem db_creation_outcomes (d : DatabaseStorage.t) :
  (forall now ins,
     match DatabaseStorage.createPost now ins d with
     | (Resolved row, d') =>
         ~ Constraint.slug_taken d (InsertPost.slug ins)
         /\ ~ Constraint.author_missing d (InsertPost.authorId ins)
         /\ row = DatabaseStorage.inserted now ins
                    (DatabaseStorage.posts_id_seq d)
         /\ DatabaseStorage.posts d' = DatabaseStorage.posts d ++ [row]
     | (Rejected _, d') =>
         (Constraint.slug_taken d (InsertPost.slug ins)
          \/ Constraint.author_missing d (InsertPost.authorId ins))
         /\ DatabaseStorage.posts d' = DatabaseStorage.posts d
     end)
  /\ (forall ins,
        match DatabaseStorage.createTag ins d with
        | (Resolved row, d') =>
            ~ Constraint.tag_name_taken d (InsertTag.name ins)
            /\ ~ Constraint.tag_slug_taken d (InsertTag.slug ins)
            /\ row = tag_of ins (DatabaseStorage.tags_id_seq d)
            /\ DatabaseStorage.tags d' = DatabaseStorage.tags d ++ [row]
        | (Rejected _, d') =>
            (Constraint.tag_name_taken d (InsertTag.name ins)
             \/ Constraint.tag_slug_taken d (InsertTag.slug ins))
            /\ DatabaseStorage.tags d' = DatabaseStorage.tags d
        end)
  /\ (forall now ins,
        match DatabaseStorage.createSubscriber now ins d with
        | (Resolved row, d') =>
            ~ Constraint.email_taken d (InsertSubscriber.email ins)
            /\ row = subscriber_of ins (DatabaseStorage.subscribers_id_seq d)
                                   now
            /\ DatabaseStorage.subscribers d'
               = DatabaseStorage.subscribers d ++ [row]
        | (Rejected _, d') =>
            Constraint.email_taken d (InsertSubscriber.email ins)
            /\ DatabaseStorage.subscribers d' = DatabaseStorage.subscribers d
        end)
  /\ (forall now ins,
        Constraint.slug_taken d (InsertPost.slug ins) ->
        fst (DatabaseStorage.createPost now ins d)
        = Rejected (UniqueViolation "posts_slug_unique")
        /\ DatabaseStorage.posts (snd (DatabaseStorage.createPost now ins d))
           = DatabaseStorage.posts d).
Proof.
  split; [|split; [|split]].
  - intros now ins. unfold DatabaseStorage.createPost.
    destruct (existsb _ (DatabaseStorage.posts d)) eqn:Hslug.
    + apply (Creation.taken_iff Post.slug) in Hslug. split; [now left|reflexivity].
    + apply (Creation.not_taken_iff Post.slug) in Hslug.
      destruct (DatabaseStorage.references_user d (InsertPost.authorId ins))
        eqn:Hauthor; simpl.
      * repeat split; try assumption.
        intros Hmissing. apply Creation.references_user_false_iff in Hmissing.
        congruence.
      * apply Creation.references_user_false_iff in Hauthor.
        split; [now right | reflexivity].
  - intros ins. unfold DatabaseStorage.createTag.
    destruct (existsb _ (DatabaseStorage.tags d)) eqn:Hname.
    + apply (Creation.taken_iff Tag.name) in Hname. split; [now left|reflexivity].
    + apply (Creation.not_taken_iff Tag.name) in Hname.
      destruct (existsb _ (DatabaseStorage.tags d)) eqn:Hslug.
      * apply (Creation.taken_iff Tag.slug) in Hslug.
        split; [now right|reflexivity].
      * apply (Creation.not_taken_iff Tag.slug) in Hslug.
        repeat split; assumption.
  - intros now ins. unfold DatabaseStorage.createSubscriber.
    destruct (existsb _ (DatabaseStorage.subscribers d)) eqn:Hemail.
    + apply (Creation.taken_iff Subscriber.email) in Hemail.
      split; [assumption|reflexivity].
    + apply (Creation.not_taken_iff Subscriber.email) in Hemail.
      repeat split; assumption.
  - intros now ins Htaken. unfold DatabaseStorage.createPost.
    apply (Creation.taken_iff Post.slug) in Htaken. rewrite Htaken.
    split; reflexivity.
Qed.

Lemma db_creation_outcomes_witness :
  Constraint.slug_taken Sample.db (InsertPost.slug Sample.post1)
  /\ fst (DatabaseStorage.createPost 0 Sample.post1 Sample.db)
     = Rejected (UniqueViolation "posts_slug_unique")
  /\ DatabaseStorage.posts
       (snd (DatabaseStorage.createPost 0 Sample.post1 Sample.db))
     = DatabaseStorage.posts Sample.db.
Proof.
  assert (Htaken : Constraint.slug_taken Sample.db
                     (InsertPost.slug Sample.post1)).
  { exists (post_of Sample.post1 5). split; [|reflexivity].
    simpl. do 4 right. now left. }
  split; [exact Htaken|].
  apply (proj2 (proj2 (proj2 (db_creation_outcomes Sample.db))) 0).
  exact Htaken.
Defined.

(** In the constructed in-memory store [createPost] with the slug of the
    first seed post resolves with a second row of that slug; in the
    persistent store [createPost] with a slug no post has is rejected when
    its author id belongs to no user. *)
Lemma creation_outside_uniqueness :
  (let out := MemStorage.createPost Sample.post1 Sample.mem in
   Post.id (fst out) = 7
   /\ map Post.id
        (List.filter
           (fun p => String.eqb (Post.slug p) (InsertPost.slug Sample.post1))
           (Js.values (MemStorage.posts (snd out))))
      = [1; 7])
  /\ (fst (DatabaseStorage.createPost 0 orphanPost Sample.db)
      = Rejected (ForeignKeyViolation "posts_author_id_users_id_fk")
      /\ ~ Constraint.slug_taken Sample.db (InsertPost.slug orphanPost)).
Proof.
  split; [vm_compute; split; reflexivity|]. split; [reflexivity|].
  apply (Creation.not_taken_iff Post.slug). reflexivity.
Qed.

(* ================================================================= *)
(** ** The RSS feed                                                   *)
(* ================================================================= *)

Module RssFacts.

Local Open Scope string_scope.

Lemma append_assoc (a b c : string) : (a ++ b) ++ c = a ++ (b ++ c).
Proof. induction a as [|x a IH]; simpl; [reflexivity | now rewrite IH]. Qed.

Lemma append_empty (a : string) : a ++ "" = a.
Proof. induction a as [|x a IH]; simpl; [reflexivity | now rewrite IH]. Qed.

Lemma concat_cons (x : string) (xs : list string) :
  String.concat "" (x :: xs) = x ++ String.concat "" xs.
Proof. destruct xs; simpl; [now rewrite append_empty | reflexivity]. Qed.

(** The loop that appends the items amounts to a concatenation. *)
Lemma fold_items (baseUrl : string) (ps : list PostWithTags.t) (acc : string) :
  fold_left (fun rss post => rss ++ Rss.item baseUrl post) ps acc
  = acc ++ String.concat "" (map (Rss.item baseUrl) ps).
Proof.
  revert acc. induction ps as [|p ps IH]; intros acc.
  - simpl. now rewrite append_empty.
  - cbn [fold_left map]. rewrite IH, concat_cons. apply append_assoc.
Qed.

Lemma build_concat (baseUrl : string) (now : Z) (ps : list PostWithTags.t) :
  Rss.build baseUrl now ps
  = Rss.channelOpen baseUrl now
    ++ String.concat "" (map (Rss.item baseUrl) ps) ++ Rss.channelClose.
Proof. unfold Rss.build. rewrite fold_items. apply append_assoc. Qed.

Lemma lacks_append (c : ascii) (a b : string) :
  Text.lacks c (a ++ b) = Text.lacks c a && Text.lacks c b.
Proof.
  induction a as [|x a IH]; simpl; [reflexivity|].
  rewrite IH. now rewrite andb_assoc.
Qed.

(** Text without ['<'] holds no start of the tag. *)
Lemma occurrences_skip (f rest : string) :
  Text.lacks Text.lt f = true ->
  Text.occurrences Text.itemTag (f ++ rest)
  = Text.occurrences Text.itemTag rest.
Proof.
  induction f as [|c f IH]; simpl; [reflexivity|].
  intros Hlacks. apply andb_prop in Hlacks as [Hc Hf].
  apply negb_true_iff in Hc. unfold Text.lt in Hc. rewrite Hc. simpl.
  now apply IH.
Qed.

(** *** The date text carries no markup *)

Lemma digitsOf_plain (u : Decimal.uint) :
  Text.lacks Text.lt (JsDate.digitsOf u) = true.
Proof. induction u; simpl; auto. Qed.

Lemma zeros_plain (n : nat) : Text.lacks Text.lt (JsDate.zeros n) = true.
Proof. induction n; simpl; auto. Qed.

Lemma padded_plain (n : Z) (w : nat) :
  Text.lacks Text.lt (JsDate.ToZeroPaddedDecimalString n w) = true.
Proof.
  unfold JsDate.ToZeroPaddedDecimalString.
  now rewrite lacks_append, zeros_plain, digitsOf_plain.
Qed.

Lemma weekdayName_plain (d : Z) :
  Text.lacks Text.lt (JsDate.weekdayName d) = true.
Proof.
  destruct d as [|p|p]; try reflexivity.
  do 3 (try destruct p as [p|p|]); reflexivity.
Qed.

Lemma monthName_plain (m : Z) :
  Text.lacks Text.lt (JsDate.monthName m) = true.
Proof.
  destruct m as [|p|p]; try reflexivity.
  do 4 (try destruct p as [p|p|]); reflexivity.
Qed.

Lemma toUTCString_plain (t : Z) :
  Text.lacks Text.lt (JsDate.toUTCString t) = true.
Proof.
  unfold JsDate.toUTCString, JsDate.TimeString.
  repeat rewrite lacks_append.
  rewrite weekdayName_plain, monthName_plain, !padded_plain.
  destruct (JsDate.YearFromTime t <? 0)%Z; reflexivity.
Qed.

Lemma pubDate_plain (publishedAt : option Z) :
  Text.lacks Text.lt (Rss.pubDate publishedAt) = true.
Proof.
  destruct publishedAt as [t|]; [apply toUTCString_plain | reflexivity].
Qed.

End RssFacts.

Module RssCount.

Local Open Scope string_scope.

(** Walk through a template: literal text is counted by computation,
    interpolated text without ['<'] is skipped. *)
Ltac walk :=
  repeat first
    [ rewrite RssFacts.append_assoc
    | rewrite RssFacts.occurrences_skip by assumption
    | progress cbn ].

Lemma channelOpen_count (baseUrl : string) (now : Z) (rest : string) :
  Text.lacks Text.lt baseUrl = true ->
  Text.occurrences Text.itemTag (Rss.channelOpen baseUrl now ++ rest)
  = Text.occurrences Text.itemTag rest.
Proof.
  intros Hbase. unfold Rss.channelOpen.
  pose proof (RssFacts.toUTCString_plain now) as Hdate.
  revert Hdate. generalize (JsDate.toUTCString now). intros date Hdate.
  walk. reflexivity.
Qed.

Lemma item_count (baseUrl : string) (p : PostWithTags.t) (rest : string) :
  Text.lacks Text.lt baseUrl = true ->
  Text.plain (PostWithTags.post p) = true ->
  Text.occurrences Text.itemTag (Rss.item baseUrl p ++ rest)
  = S (Text.occurrences Text.itemTag rest).
Proof.
  intros Hbase Hplain. unfold Rss.item, Text.plain in *.
  apply andb_prop in Hplain as [Hplain Hexcerpt].
  apply andb_prop in Hplain as [Htitle Hslug].
  pose proof (RssFacts.pubDate_plain
                (Post.publishedAt (PostWithTags.post p))) as Hdate.
  revert Hdate Htitle Hslug Hexcerpt.
  generalize (Rss.pubDate (Post.publishedAt (PostWithTags.post p))).
  generalize (Post.title (PostWithTags.post p)).
  generalize (Post.slug (PostWithTags.post p)).
  generalize (Post.excerpt (PostWithTags.post p)).
  intros excerpt slug title date Hdate Htitle Hslug Hexcerpt.
  walk. reflexivity.
Qed.

Lemma items_count (baseUrl : string) (ps : list PostWithTags.t)
      (rest : string) :
  Text.lacks Text.lt baseUrl = true ->
  (forall p, In p ps -> Text.plain (PostWithTags.post p) = true) ->
  Text.occurrences Text.itemTag
    (String.concat "" (map (Rss.item baseUrl) ps) ++ rest)
  = (List.length ps + Text.occurrences Text.itemTag rest)%nat.
Proof.
  intros Hbase. induction ps as [|p ps IH]; intros Hplain.
  - reflexivity.
  - cbn [map]. rewrite RssFacts.concat_cons, RssFacts.append_assoc.
    rewrite item_count; [|assumption | apply Hplain; now left].
    rewrite IH; [reflexivity|]. intros q Hq. apply Hplain. now right.
Qed.

Lemma build_count (baseUrl : string) (now : Z) (ps : list PostWithTags.t) :
  Text.lacks Text.lt baseUrl = true ->
  (forall p, In p ps -> Text.plain (PostWithTags.post p) = true) ->
  Text.occurrences Text.itemTag (Rss.build baseUrl now ps) = List.length ps.
Proof.
  intros Hbase Hplain.
  rewrite RssFacts.build_concat, channelOpen_count by assumption.
  rewrite items_count by assumption.
  change (Text.occurrences Text.itemTag Rss.channelClose) with 0%nat.
  apply Nat.add_0_r.
Qed.

(** The route over the in-memory store. *)
Lemma rss_route_mem (BASE_URL host : option string) (now : Z)
      (s : MemStorage.t) :
  Routes.get_rss_xml BASE_URL host now s
  = (mkResponse 200
       (Xml (Rss.build (Rss.baseUrlOf BASE_URL host) now
                       (map (tagged s) (MemStorage.getAllPosts s)))), s).
Proof.
  unfold Routes.get_rss_xml, Routes.tryCatch.
  unfold bind at 1. cbn [getAllPosts MemStorage_IStorage]. unfold reads at 1.
  unfold bind at 1. rewrite MemRoutes.withTags_resolves. reflexivity.
Qed.

End RssCount.

(** C7, as the handler has it.  Over the in-memory store [GET /rss.xml]
    answers 200 with the channel header, then one item text per post of
    [getAllPosts] in that order, then the channel footer; an item carries
    the title, the link [baseUrl/posts/slug], the same text as guid, the
    [toUTCString] form of [publishedAt] (which is "Invalid Date" for a
    post without one) and the excerpt inside CDATA.
    When the base URL and the titles, slugs and excerpts of the posts hold
    no ['<'], the tag [<item>] occurs in the document exactly once per
    post, hence not at all for a store without posts. *)
Theorem rss_feed_items (s : MemStorage.t) (BASE_URL host : option string)
        (now : Z) :
  let baseUrl := Rss.baseUrlOf BASE_URL host in
  let posts := MemStorage.getAllPosts s in
  let itemOf (p : Post.t) : string :=
    let link := (baseUrl ++ "/posts/" ++ Post.slug p)%string in
    (Rss.nl ++ "    <item>" ++ Rss.nl ++
     "      <title>" ++ Post.title p ++ "</title>" ++ Rss.nl ++
     "      <link>" ++ link ++ "</link>" ++ Rss.nl ++
     "      <guid>" ++ link ++ "</guid>" ++ Rss.nl ++
     "      <pubDate>" ++ Rss.pubDate (Post.publishedAt p)
       ++ "</pubDate>" ++ Rss.nl ++
     "      <description><![CDATA[" ++ Post.excerpt p
       ++ "]]></description>" ++ Rss.nl ++
     "    </item>")%string in
  exists document,
    Routes.get_rss_xml BASE_URL host now s
    = (mkResponse 200 (Xml document), s)
    /\ document
       = (Rss.channelOpen baseUrl now
          ++ String.concat "" (map itemOf posts) ++ Rss.channelClose)%string
    /\ (Text.lacks Text.lt baseUrl = true ->
        (forall p, In p posts -> Text.plain p = true) ->
        Text.occurrences Text.itemTag document = List.length posts).
Proof.
  intros baseUrl posts itemOf.
  exists (Rss.build baseUrl now (map (tagged s) posts)).
  split; [apply RssCount.rss_route_mem|]. split.
  - rewrite RssFacts.build_concat, map_map. do 3 f_equal.
    apply map_ext. intros p. unfold Rss.item, itemOf, tagged.
    cbn [PostWithTags.post].
    now rewrite !RssFacts.append_assoc.
  - intros Hbase Hplain.
    rewrite RssCount.build_count, length_map; [reflexivity | assumption |].
    intros p Hp. apply in_map_iff in Hp as (q & <- & Hq). now apply Hplain.
Qed.

Lemma rss_feed_items_witness :
  exists document,
    Routes.get_rss_xml (Some "https://devblog.example"%string) None
                       1686787200000 Sample.mem
    = (mkResponse 200 (Xml document), Sample.mem)
    /\ Text.occurrences Text.itemTag document = 6%nat.
Proof.
  destruct (rss_feed_items Sample.mem (Some "https://devblog.example"%string)
                           None 1686787200000)
    as (document & Hroute & _ & Hcount).
  assert (Hplain : forallb Text.plain (MemStorage.getAllPosts Sample.mem)
                    = true).
  { vm_compute. reflexivity. }
  assert (Hsix : List.length (MemStorage.getAllPosts Sample.mem) = 6%nat).
  { vm_compute. reflexivity. }
  exists document. split; [exact Hroute|].
  rewrite <- Hsix. apply Hcount; [reflexivity|].
  exact (proj1 (forallb_forall _ _) Hplain).
Defined.

(** Adding to the constructed store one post whose title holds markup
    gives seven posts and a document with eight [<item>] tags. *)
Lemma rss_item_injected :
  let s := snd (MemStorage.createPost injectedPost Sample.mem) in
  List.length (MemStorage.getAllPosts s) = 7%nat
  /\ exists document,
       fst (Routes.get_rss_xml None (Some "localhost:5000"%string) 0 s)
       = mkResponse 200 (Xml document)
       /\ Text.occurrences Text.itemTag document = 8%nat.
Proof.
  intros s. split; [vm_compute; reflexivity|].
  exists (Rss.build (Rss.baseUrlOf None (Some "localhost:5000"%string)) 0
                    (map (tagged s) (MemStorage.getAllPosts s))).
  split.
  - now rewrite RssCount.rss_route_mem.
  - vm_compute. reflexivity.
Qed.

(* ================================================================= *)
(** ** The two stores compared                                        *)
(* ================================================================= *)

Module Tables.

Lemma find_as_first {A : Type} (p : A -> bool) (l : list A) :
  Js.find p l = DatabaseStorage.first (List.filter p l).
Proof.
  unfold Js.find. induction l as [|x l IH]; simpl; [reflexivity|].
  destruct (p x); [reflexivity | exact IH].
Qed.

Lemma has_as_count {A : Type} (p : A -> bool) (l : list A) :
  existsb p l = (0 <? Z.of_nat (List.length (List.filter p l))).
Proof.
  induction l as [|x l IH]; simpl; [reflexivity|].
  destruct (p x); simpl; [|exact IH].
  symmetry. apply Z.ltb_lt. lia.
Qed.

Section Keyed.
Context {V : Type} (idOf : V -> Z) (next : Z).

Lemma keys_are_ids (m : Js.Map V) (p : Z -> bool) :
  wf_map idOf next m ->
  map snd (List.filter (fun e => p (fst e)) m)
  = List.filter (fun v => p (idOf v)) (Js.values m).
Proof.
  intros [_ Hall]. induction m as [|[k v] m IH]; simpl; [reflexivity|].
  inversion Hall as [|? ? [Hid _] Hall']; subst. simpl in Hid. subst k.
  destruct (p (idOf v)); simpl; now rewrite IH.
Qed.

(** A lookup by key finds what a selection by id finds. *)
Lemma get_as_first (k : Z) (m : Js.Map V) :
  wf_map idOf next m ->
  Js.get k m
  = DatabaseStorage.first (List.filter (fun v => idOf v =? k) (Js.values m)).
Proof.
  intros [_ Hall]. unfold Js.get.
  induction m as [|[k' v] m IH]; simpl; [reflexivity|].
  inversion Hall as [|? ? [Hid _] Hall']; subst. simpl in Hid. subst k'.
  destruct (idOf v =? k); [reflexivity | now apply IH].
Qed.

Lemma has_as_exists (k : Z) (m : Js.Map V) :
  wf_map idOf next m ->
  Js.has k m = existsb (fun v => idOf v =? k) (Js.values m).
Proof.
  intros [_ Hall]. unfold Js.has.
  induction m as [|[k' v] m IH]; simpl; [reflexivity|].
  inversion Hall as [|? ? [Hid _] Hall']; subst. simpl in Hid. subst k'.
  now rewrite IH.
Qed.

Lemma delete_as_filter (k : Z) (m : Js.Map V) :
  wf_map idOf next m ->
  fst (Js.delete k m)
  = (0 <? Z.of_nat (List.length
                      (List.filter (fun v => idOf v =? k) (Js.values m))))
  /\ Js.values (snd (Js.delete k m))
     = List.filter (fun v => negb (idOf v =? k)) (Js.values m).
Proof.
  intros Hwf. split.
  - simpl. rewrite has_as_exists by assumption. apply has_as_count.
  - simpl. unfold Js.values at 1.
    apply (keys_are_ids m (fun k' => negb (k' =? k)) Hwf).
Qed.

(** Replacing the row of a key rewrites the rows of that id. *)
Lemma set_as_map (k : Z) (f : V -> V) (v0 : V) (m : Js.Map V) :
  wf_map idOf next m -> Js.get k m = Some v0 ->
  Js.values (Js.set k (f v0) m)
  = map (fun v => if idOf v =? k then f v else v) (Js.values m).
Proof.
  intros Hwf Hget. pose proof Hwf as [Hnd Hall].
  assert (Hin : In (k, v0) m) by now apply (MemInvariant.get_some_iff idOf next).
  assert (Hhas : Js.has k m = true).
  { apply MemInvariant.has_true_iff. now apply (in_map fst) in Hin. }
  unfold Js.set. rewrite Hhas. unfold Js.values. rewrite !map_map.
  apply map_ext_in. intros [k' v] He. simpl.
  rewrite Forall_forall in Hall. destruct (Hall _ He) as [Hid _].
  simpl in Hid. subst k'.
  destruct (Z.eqb_spec (idOf v) k) as [Heq|_]; [|reflexivity].
  simpl. f_equal. subst k.
  assert (Hv : Js.get (idOf v) m = Some v).
  { now apply (MemInvariant.get_some_iff idOf next). }
  congruence.
Qed.
End Keyed.

(** Sorting pairs by their first component sorts the first components. *)
Lemma sort_fst {A B : Type} (cmp : A -> A -> Z) (l : list (A * B)) :
  map fst (Js.sort (fun a b => cmp (fst a) (fst b)) l)
  = Js.sort cmp (map fst l).
Proof.
  induction l as [|x l IH]; simpl; [reflexivity|].
  rewrite <- IH. clear IH.
  induction (Js.sort (fun a b => cmp (fst a) (fst b)) l) as [|y s IH];
    simpl; [reflexivity|].
  destruct (cmp (fst x) (fst y) <=? 0); simpl; [reflexivity|].
  now rewrite IH.
Qed.

Section Join.
Context {A : Type} (idOf : A -> Z).
Context (near far : PostTag.t -> Z).

(** With at most one row per pair, the join of a table with the rows of
    one [far] id selects the rows of the table whose id is among the
    [near] ids, once each and in table order. *)
Lemma join_as_filter (v : Z) (rows : list PostTag.t) (l : list A) :
  (forall a b,
     Z.of_nat (List.length
                 (List.filter (fun pt => (near pt =? a) && (far pt =? b))
                              rows)) <= 1) ->
  map fst
    (List.filter (fun r => far (snd r) =? v)
       (DatabaseStorage.innerJoin (fun x pt => idOf x =? near pt) l rows))
  = List.filter
      (fun x => Js.includes
                  (map near (Js.filter (fun pt => far pt =? v) rows))
                  (idOf x))
      l.
Proof.
  intros Hsingle. unfold DatabaseStorage.innerJoin.
  induction l as [|x l IH]; simpl; [reflexivity|].
  rewrite filter_app, map_app, IH. clear IH.
  specialize (Hsingle (idOf x) v).
  assert (Hhead :
            map fst
              (List.filter (fun r : A * PostTag.t => far (snd r) =? v)
                 (map (fun y => (x, y))
                      (List.filter (fun pt => idOf x =? near pt) rows)))
            = if Js.includes
                   (map near (Js.filter (fun pt => far pt =? v) rows))
                   (idOf x)
              then [x] else []).
  { unfold Js.includes, Js.filter.
    induction rows as [|pt rows IHr]; simpl in *; [reflexivity|].
    rewrite (Z.eqb_sym (near pt) (idOf x)) in Hsingle.
    destruct (Z.eqb_spec (idOf x) (near pt)) as [Hnear|Hnear];
      destruct (Z.eqb_spec (far pt) v) as [Hfar|Hfar]; simpl in *.
    - rewrite (proj2 (Z.eqb_eq _ _) Hnear). simpl.
      destruct (Z.eqb_spec (far pt) v) as [_|?]; [|contradiction]. simpl.
      f_equal.
      assert (Hnone : List.filter
                        (fun pt0 => (near pt0 =? idOf x) && (far pt0 =? v))
                        rows = []).
      { destruct (List.filter _ rows); [reflexivity | simpl in Hsingle; lia]. }
      clear IHr Hsingle.
      induction rows as [|pt' rows IHr]; simpl in *; [reflexivity|].
      rewrite (Z.eqb_sym (near pt') (idOf x)) in Hnone.
      destruct (idOf x =? near pt'); simpl in *.
      + destruct (far pt' =? v); [discriminate | now apply IHr].
      + now apply IHr.
    - destruct (Z.eqb_spec (far pt) v) as [?|_]; [contradiction|].
      simpl. now apply IHr.
    - destruct (Z.eqb_spec (idOf x) (near pt)) as [?|_]; [contradiction|].
      simpl. now apply IHr.
    - now apply IHr. }
  rewrite Hhead. now destruct (Js.includes _ _).
Qed.
End Join.

(** Rows of a well-formed map with the same id are the same row. *)
Lemma same_id_same_row {V : Type} (idOf : V -> Z) (next : Z)
      (m : Js.Map V) (a b : V) :
  wf_map idOf next m ->
  In a (Js.values m) -> In b (Js.values m) -> idOf a = idOf b -> a = b.
Proof.
  intros Hwf Ha Hb Hid. pose proof Hwf as [_ Hall].
  apply in_map_iff in Ha as ([k v] & <- & Hin). simpl in *.
  rewrite Forall_forall in Hall. destruct (Hall _ Hin) as [Hk _].
  simpl in Hk. subst k.
  apply (MemInvariant.get_some_iff idOf next) in Hin; [|assumption].
  pose proof (TagLinks.one_row_per_id idOf _ _ _ _ Hwf Hin) as Hone.
  assert (Hbin : In b (List.filter (fun x => idOf x =? idOf v) (Js.values m))).
  { apply filter_In. split; [assumption | apply Z.eqb_eq; congruence]. }
  rewrite Hone in Hbin. destruct Hbin as [<-|[]]. reflexivity.
Qed.

(** Lists with a key column. *)
Lemma NoDup_app_one {A B : Type} (f : A -> B) (l : list A) (x : A) :
  NoDup (map f l) -> ~ In (f x) (map f l) -> NoDup (map f (l ++ [x])).
Proof.
  intros Hnd Hout. rewrite map_app. simpl.
  apply NoDup_app; [assumption | repeat constructor; intros [] |].
  intros y Hy [<-|[]]. contradiction.
Qed.

Lemma NoDup_map_filter {A B : Type} (f : A -> B) (g : A -> bool)
      (l : list A) :
  NoDup (map f l) -> NoDup (map f (List.filter g l)).
Proof.
  induction l as [|x l IH]; simpl; [constructor|].
  intros Hnd. inversion Hnd as [|? ? Hout Hnd']; subst.
  destruct (g x); simpl; [|now apply IH].
  constructor; [|now apply IH].
  intros Hin. apply Hout. apply in_map_iff in Hin as (y & Hy & Hin).
  apply filter_In in Hin as [Hin _]. rewrite <- Hy. now apply in_map.
Qed.

Lemma fresh_text {A : Type} (f : A -> string) (v : string) (l : list A) :
  existsb (fun x => String.eqb (f x) v) l = false -> ~ In v (map f l).
Proof.
  intros Hnone Hin. apply in_map_iff in Hin as (x & Hx & Hin).
  apply Creation.not_taken_iff in Hnone. apply Hnone. eauto.
Qed.

Lemma fresh_id {A : Type} (f : A -> Z) (next : Z) (l : list A) :
  (forall x, In x l -> f x < next) -> ~ In next (map f l).
Proof.
  intros Hall Hin. apply in_map_iff in Hin as (x & Hx & Hin).
  specialize (Hall x Hin). lia.
Qed.

Section Permuted.
Context {A : Type}.

Lemma filter_perm (p : A -> bool) (l l' : list A) :
  Permutation l l' -> Permutation (List.filter p l) (List.filter p l').
Proof.
  induction 1 as [|x l l' _ IH|x y l|l l1 l2 _ IH1 _ IH2]; simpl.
  - constructor.
  - destruct (p x); [now constructor | exact IH].
  - destruct (p x), (p y); try reflexivity. apply perm_swap.
  - now transitivity (List.filter p l1).
Qed.

(** A selection that at most one row matches finds the same row in
    whatever order the table is scanned. *)
Lemma first_perm (p : A -> bool) (l l' : list A) :
  Permutation l l' ->
  (forall a b, In a l -> In b l -> p a = true -> p b = true -> a = b) ->
  DatabaseStorage.first (List.filter p l)
  = DatabaseStorage.first (List.filter p l').
Proof.
  intros Hperm Hone.
  pose proof (filter_perm p _ _ Hperm) as Hf.
  assert (Hin : forall x, In x (List.filter p l) -> In x l /\ p x = true).
  { intros x. apply filter_In. }
  destruct (List.filter p l) as [|a r].
  - apply Permutation_nil in Hf. now rewrite Hf.
  - destruct (List.filter p l') as [|b r'].
    + symmetry in Hf. now apply Permutation_nil in Hf.
    + simpl. f_equal.
      destruct (Hin a) as [Ha Hpa]; [now left|].
      destruct (Hin b) as [Hb Hpb].
      { apply (Permutation_in _ (Permutation_sym Hf)). now left. }
      now apply Hone.
Qed.

Lemma unique_by {B : Type} (f : A -> B) (l : list A) (a b : A) :
  NoDup (map f l) -> In a l -> In b l -> f a = f b -> a = b.
Proof.
  induction l as [|x l IH]; simpl; intros Hnd Ha Hb Hf; [contradiction|].
  inversion Hnd as [|? ? Hnotin Hnd']; subst.
  destruct Ha as [->|Ha], Hb as [->|Hb]; try reflexivity.
  - exfalso. apply Hnotin. rewrite Hf. now apply in_map.
  - exfalso. apply Hnotin. rewrite <- Hf. now apply in_map.
  - now apply IH.
Qed.

(** Rewriting the rows that match in place, or writing their new versions
    behind the rows that stay, gives the same rows. *)
Lemma rewrite_perm (hit : A -> bool) (f : A -> A) (l : list A) :
  Permutation (map (fun x => if hit x then f x else x) l)
              (List.filter (fun x => negb (hit x)) l
               ++ map f (List.filter hit l)).
Proof.
  induction l as [|x l IH]; simpl; [constructor|].
  destruct (hit x); simpl.
  - rewrite IH. apply Permutation_middle.
  - now constructor.
Qed.
End Permuted.

End Tables.

(** Rows of the posts table under [updatePost]. *)
Module PostRows.

Section Rewrite.
Variables (id : Z) (u : PartialInsertPost.t).

(** Writing the new versions of the rows behind the rows that stay gives
    the rows that rewriting them in place gives. *)
Lemma updated_perm (l : list Post.t) :
  Permutation
    (map (rewritePost id u) l)
    (List.filter (fun p => negb (Post.id p =? id)) l
     ++ map (fun p => apply_updates p u)
            (List.filter (fun p => Post.id p =? id) l)).
Proof.
  exact (Tables.rewrite_perm (fun p => Post.id p =? id)
                             (fun p => apply_updates p u) l).
Qed.

Lemma rewritten_id (l : list Post.t) :
  map Post.id (map (rewritePost id u) l) = map Post.id l.
Proof.
  rewrite map_map. apply map_ext. intros p. unfold rewritePost.
  now destruct (Post.id p =? id).
Qed.

Lemma rewritten_exists (k : Z) (l : list Post.t) :
  existsb (fun p => Post.id p =? k) (map (rewritePost id u) l)
  = existsb (fun p => Post.id p =? k) l.
Proof.
  induction l as [|p l IH]; [reflexivity|]. simpl. rewrite IH.
  unfold rewritePost. now destruct (Post.id p =? id).
Qed.

Lemma rewritten_slug_kept (l : list Post.t) :
  PartialInsertPost.slug u = None ->
  map Post.slug (map (rewritePost id u) l) = map Post.slug l.
Proof.
  intros Hnone. rewrite map_map. apply map_ext. intros p. unfold rewritePost.
  destruct (Post.id p =? id); [|reflexivity].
  unfold apply_updates. cbn [Post.slug]. now rewrite Hnone.
Qed.

Lemma rewritten_slug_new (sl : string) (l : list Post.t) :
  PartialInsertPost.slug u = Some sl ->
  NoDup (map Post.id l) -> NoDup (map Post.slug l) ->
  existsb (fun p => String.eqb (Post.slug p) sl && negb (Post.id p =? id)) l
  = false ->
  NoDup (map Post.slug (map (rewritePost id u) l)).
Proof.
  intros Hsome Hids Hslugs Hfree.
  assert (Hslug : forall p, Post.slug (rewritePost id u p)
                            = if Post.id p =? id then sl else Post.slug p).
  { intros p. unfold rewritePost. destruct (Post.id p =? id); [|reflexivity].
    unfold apply_updates. cbn [Post.slug]. now rewrite Hsome. }
  assert (Hother : forall p, In p l -> Post.slug p = sl -> Post.id p = id).
  { intros p Hp Heq. destruct (Z.eq_dec (Post.id p) id) as [?|Hne];
      [assumption|].
    exfalso.
    assert (Hex : existsb (fun p => String.eqb (Post.slug p) sl
                                    && negb (Post.id p =? id)) l = true).
    { apply existsb_exists. exists p. split; [assumption|].
      apply andb_true_intro. split; [now apply String.eqb_eq|].
      now apply negb_true_iff, Z.eqb_neq. }
    congruence. }
  clear Hfree. induction l as [|x l IH]; simpl; [constructor|].
  inversion Hids as [|? ? Hidout Hids']; subst.
  inversion Hslugs as [|? ? Hslugout Hslugs']; subst.
  constructor.
  - intros Hin. apply in_map_iff in Hin as (y' & Hy' & Hin).
    apply in_map_iff in Hin as (y & <- & Hy).
    rewrite !Hslug in Hy'.
    assert (Hyx : Post.id y <> Post.id x).
    { intros Heq. apply Hidout. rewrite <- Heq. now apply in_map. }
    destruct (Z.eqb_spec (Post.id y) id) as [Hyid|Hyid];
      destruct (Z.eqb_spec (Post.id x) id) as [Hxid|Hxid].
    + congruence.
    + apply Hxid. apply Hother; [now left | congruence].
    + apply Hyid. apply Hother; [now right | assumption].
    + apply Hslugout. rewrite <- Hy'. now apply in_map.
  - apply IH; try assumption. intros p Hp. apply Hother. now right.
Qed.

(** An update that the uniqueness of the slug admits leaves the slugs
    distinct. *)
Lemma rewritten_slugs_differ (l : list Post.t) :
  NoDup (map Post.id l) -> NoDup (map Post.slug l) ->
  match PartialInsertPost.slug u with
  | Some sl =>
      existsb (fun p => String.eqb (Post.slug p) sl
                        && negb (Post.id p =? id)) l
  | None => false
  end = false ->
  NoDup (map Post.slug (map (rewritePost id u) l)).
Proof.
  intros Hids Hslugs Hfree.
  destruct (PartialInsertPost.slug u) as [sl|] eqn:Hslug.
  - now apply (rewritten_slug_new sl).
  - now rewrite rewritten_slug_kept.
Qed.

Lemma rewritten_dated (l : list Post.t) :
  dated l -> dated (map (rewritePost id u) l).
Proof.
  intros Hdated p Hp. apply in_map_iff in Hp as (q & <- & Hq).
  specialize (Hdated q Hq). unfold rewritePost.
  destruct (Post.id q =? id); [|exact Hdated].
  unfold apply_updates. cbn [Post.publishedAt].
  now destruct (PartialInsertPost.publishedAt u).
Qed.
End Rewrite.

End PostRows.

Module Reads.

Import Session.

(** Two tables with the same dated posts list them alike by recency, up to
    the order of posts of equal [publishedAt]. *)
Lemma listings_agree (l l' : list Post.t) :
  Permutation l l' -> dated l' ->
  sameUpToTies (Js.sort byPublishedAtDesc l)
               (DatabaseStorage.orderByPublishedAtDesc l').
Proof.
  intros Hperm Hdated. split; [|split].
  - rewrite (JsFacts.sort_perm byPublishedAtDesc l), Hperm.
    symmetry. apply JsFacts.sort_perm.
  - apply Recency.dated_descending.
    exact (Recency.dated_perm _ _ (Permutation_sym Hperm) Hdated).
  - apply Recency.ordered_descending.
Qed.

Section Corresponding.
Variables (m : MemStorage.t) (d : DatabaseStorage.t).
Hypothesis R : corresponds m d.

Lemma getUser_same (id : Z) :
  DatabaseStorage.getUser id d = (Resolved (MemStorage.getUser id m), d).
Proof.
  destruct (mem_wellFormed _ _ R) as (Hu & _).
  unfold DatabaseStorage.getUser, reads, MemStorage.getUser.
  now rewrite (Tables.get_as_first User.id _ _ _ Hu), (same_users _ _ R).
Qed.

Lemma getUserByUsername_same (name : string) :
  DatabaseStorage.getUserByUsername name d
  = (Resolved (MemStorage.getUserByUsername name m), d).
Proof.
  unfold DatabaseStorage.getUserByUsername, reads,
    MemStorage.getUserByUsername.
  now rewrite Tables.find_as_first, (same_users _ _ R).
Qed.

Lemma getAllPosts_agree :
  sameUpToTies (MemStorage.getAllPosts m)
               (DatabaseStorage.orderByPublishedAtDesc
                  (DatabaseStorage.posts d)).
Proof.
  apply listings_agree; [apply (same_posts _ _ R) | apply (posts_dated _ _ R)].
Qed.

(** The row of an id is the same row in both stores. *)
Lemma row_of_id (id : Z) :
  Js.get id (MemStorage.posts m)
  = DatabaseStorage.first
      (List.filter (fun p => Post.id p =? id) (DatabaseStorage.posts d)).
Proof.
  destruct (mem_wellFormed _ _ R) as (_ & Hp & _).
  rewrite (Tables.get_as_first Post.id _ _ _ Hp).
  apply Tables.first_perm; [apply (same_posts _ _ R)|].
  intros a b Ha Hb Hia Hib. apply Z.eqb_eq in Hia, Hib.
  apply (Tables.same_id_same_row Post.id _ _ a b Hp Ha Hb). congruence.
Qed.

Lemma getPostById_same (id : Z) :
  DatabaseStorage.getPostById id d
  = (Resolved (MemStorage.getPostById id m), d).
Proof.
  unfold DatabaseStorage.getPostById, reads, MemStorage.getPostById.
  now rewrite row_of_id.
Qed.

Lemma getPostBySlug_same (slug : string) :
  DatabaseStorage.getPostBySlug slug d
  = (Resolved (MemStorage.getPostBySlug slug m), d).
Proof.
  unfold DatabaseStorage.getPostBySlug, reads, MemStorage.getPostBySlug.
  rewrite Tables.find_as_first. do 2 f_equal. symmetry.
  apply Tables.first_perm; [apply (same_posts _ _ R)|].
  intros a b Ha Hb Hsa Hsb. apply String.eqb_eq in Hsa, Hsb.
  apply (Tables.unique_by Post.slug (Js.values (MemStorage.posts m)));
    try assumption; [|congruence].
  apply (Permutation_NoDup (l := map Post.slug (DatabaseStorage.posts d)));
    [|apply (slugs_differ _ _ R)].
  apply Permutation_map, Permutation_sym, (same_posts _ _ R).
Qed.

Lemma getFeaturedPost_first :
  DatabaseStorage.getFeaturedPost d
  = (Resolved (hd_error (DatabaseStorage.orderByPublishedAtDesc
                           (DatabaseStorage.posts d))), d)
  /\ MemStorage.getFeaturedPost m = hd_error (MemStorage.getAllPosts m).
Proof.
  unfold DatabaseStorage.getFeaturedPost, reads, MemStorage.getFeaturedPost.
  split.
  - now destruct (DatabaseStorage.orderByPublishedAtDesc _).
  - now destruct (MemStorage.getAllPosts m).
Qed.

(** With a limit that is not negative, a page the database resolves is
    the window of its listing that the in-memory store slices. *)
Lemma getPaginatedPosts_window (page limit : Z) (r : PostsPage)
      (d' : DatabaseStorage.t) :
  0 <= limit ->
  DatabaseStorage.getPaginatedPosts page limit d = (Resolved r, d') ->
  r = mkPage
        (Js.slice (DatabaseStorage.orderByPublishedAtDesc
                     (DatabaseStorage.posts d))
                  ((page - 1) * limit) (page * limit))
        (Z.of_nat (List.length (DatabaseStorage.orderByPublishedAtDesc
                                  (DatabaseStorage.posts d))))
  /\ d' = d.
Proof.
  intros Hlimit. unfold DatabaseStorage.getPaginatedPosts.
  destruct (Z.ltb_spec ((page - 1) * limit) 0) as [|Hoffset]; [discriminate|].
  rewrite (proj2 (Z.leb_le 0 limit) Hlimit).
  intros [= <- <-]. split; [|reflexivity].
  rewrite JsFacts.slice_window by lia.
  unfold DatabaseStorage.orderByPublishedAtDesc.
  rewrite JsFacts.sort_length.
  replace (page * limit - (page - 1) * limit) with limit by lia.
  reflexivity.
Qed.

Lemma getAllTags_same :
  DatabaseStorage.getAllTags d = (Resolved (MemStorage.getAllTags m), d).
Proof.
  unfold DatabaseStorage.getAllTags, reads, MemStorage.getAllTags.
  now rewrite (same_tags _ _ R).
Qed.

Lemma getTagById_same (id : Z) :
  DatabaseStorage.getTagById id d = (Resolved (MemStorage.getTagById id m), d).
Proof.
  destruct (mem_wellFormed _ _ R) as (_ & _ & Hg & _).
  unfold DatabaseStorage.getTagById, reads, MemStorage.getTagById.
  now rewrite (Tables.get_as_first Tag.id _ _ _ Hg), (same_tags _ _ R).
Qed.

Lemma getTagBySlug_same (slug : string) :
  DatabaseStorage.getTagBySlug slug d
  = (Resolved (MemStorage.getTagBySlug slug m), d).
Proof.
  unfold DatabaseStorage.getTagBySlug, reads, MemStorage.getTagBySlug.
  now rewrite Tables.find_as_first, (same_tags _ _ R).
Qed.

Lemma getPostsByTagId_agree (tagId : Z) :
  exists l',
    DatabaseStorage.getPostsByTagId tagId d = (Resolved l', d)
    /\ sameUpToTies (MemStorage.getPostsByTagId tagId m) l'.
Proof.
  unfold DatabaseStorage.getPostsByTagId, reads.
  eexists. split; [reflexivity|]. cbv beta zeta.
  unfold MemStorage.getPostsByTagId, Js.filter.
  rewrite (Tables.sort_fst DatabaseStorage.descPublishedAt).
  rewrite (Tables.join_as_filter Post.id PostTag.postId PostTag.tagId)
    by apply (links_single _ _ R).
  rewrite (same_postTags _ _ R).
  apply listings_agree.
  - apply Tables.filter_perm, (same_posts _ _ R).
  - apply Recency.dated_filter, (posts_dated _ _ R).
Qed.

Lemma getPostsByTagSlug_agree (tagSlug : string) :
  exists l',
    DatabaseStorage.getPostsByTagSlug tagSlug d = (Resolved l', d)
    /\ sameUpToTies (MemStorage.getPostsByTagSlug tagSlug m) l'.
Proof.
  unfold DatabaseStorage.getPostsByTagSlug, MemStorage.getPostsByTagSlug.
  unfold bind. rewrite getTagBySlug_same.
  destruct (MemStorage.getTagBySlug tagSlug m) as [g|].
  - apply getPostsByTagId_agree.
  - exists []. split; [reflexivity|]. repeat split; constructor.
Qed.

Lemma getTagsByPostId_same (postId : Z) :
  DatabaseStorage.getTagsByPostId postId d
  = (Resolved (MemStorage.getTagsByPostId postId m), d).
Proof.
  unfold DatabaseStorage.getTagsByPostId, reads, MemStorage.getTagsByPostId.
  do 2 f_equal.
  rewrite (Tables.join_as_filter Tag.id PostTag.tagId PostTag.postId).
  - now rewrite (same_tags _ _ R), (same_postTags _ _ R).
  - intros a b. pose proof (links_single _ _ R b a) as Hsingle.
    erewrite filter_ext; [exact Hsingle|].
    intros pt. apply andb_comm.
Qed.

Lemma getSubscriberByEmail_same (email : string) :
  DatabaseStorage.getSubscriberByEmail email d
  = (Resolved (MemStorage.getSubscriberByEmail email m), d).
Proof.
  unfold DatabaseStorage.getSubscriberByEmail, reads,
    MemStorage.getSubscriberByEmail.
  now rewrite Tables.find_as_first, (same_subscribers _ _ R).
Qed.

Lemma getAllSubscribers_same :
  DatabaseStorage.getAllSubscribers d
  = (Resolved (MemStorage.getAllSubscribers m), d).
Proof.
  unfold DatabaseStorage.getAllSubscribers, reads,
    MemStorage.getAllSubscribers.
  now rewrite (same_subscribers _ _ R).
Qed.
End Corresponding.

End Reads.

Module Writes.

Import Session.

Lemma filter_all {A : Type} (p : A -> bool) (l : list A) :
  (forall x, In x l -> p x = true) -> List.filter p l = l.
Proof.
  intros Hall. induction l as [|x l IH]; simpl; [reflexivity|].
  rewrite (Hall x) by now left. f_equal. apply IH.
  intros y Hy. apply Hall. now right.
Qed.

Lemma first_none_filter {A : Type} (p : A -> bool) (l : list A) :
  DatabaseStorage.first (List.filter p l) = None ->
  forall x, In x l -> p x = false.
Proof.
  intros Hnone x Hx. destruct (p x) eqn:Hp; [|reflexivity].
  assert (Hin : In x (List.filter p l)) by now apply filter_In.
  destruct (List.filter p l); [contradiction | discriminate].
Qed.

Lemma singleLinks_filter (q : PostTag.t -> bool) (rows : list PostTag.t) :
  singleLinks rows -> singleLinks (List.filter q rows).
Proof.
  intros Hsingle p t. specialize (Hsingle p t).
  set (pair := fun pt => (PostTag.postId pt =? p)
                         && (PostTag.tagId pt =? t)) in *.
  assert (Hsub : (List.length (List.filter pair (List.filter q rows))
                  <= List.length (List.filter pair rows))%nat).
  { clear. induction rows as [|x l IH]; simpl; [lia|].
    destruct (q x); simpl; destruct (pair x); simpl; lia. }
  lia.
Qed.

Section Corresponding.
Variables (m : MemStorage.t) (d : DatabaseStorage.t).
Hypothesis R : corresponds m d.

(** The ids of the posts table are distinct. *)
Lemma ids_differ : NoDup (map Post.id (DatabaseStorage.posts d)).
Proof.
  destruct (mem_wellFormed _ _ R) as (_ & (Hnd & Hall) & _).
  apply (Permutation_NoDup
           (l := map Post.id (Js.values (MemStorage.posts m))));
    [apply Permutation_map, (same_posts _ _ R)|].
  unfold Js.values. rewrite map_map.
  erewrite map_ext_in; [exact Hnd|].
  intros e He. rewrite Forall_forall in Hall.
  symmetry. exact (proj1 (Hall e He)).
Qed.

Lemma createUser_same (ins : InsertUser.t) (r : User.t)
      (d' : DatabaseStorage.t) :
  DatabaseStorage.createUser ins d = (Resolved r, d') ->
  fst (MemStorage.createUser ins m) = r
  /\ corresponds (snd (MemStorage.createUser ins m)) d'.
Proof.
  unfold DatabaseStorage.createUser. destruct (existsb _ _); [discriminate|].
  intros [= <- <-].
  pose proof (MemInvariant.createUser_wellFormed ins m (mem_wellFormed _ _ R))
    as Hwf'.
  destruct R as [Hwf Hu Hp Hd Hsl Hg Hpt Hs Nu Np Ng Npt Ns Hl].
  split; [simpl; now rewrite Nu|].
  constructor; simpl; try assumption; try congruence.
  destruct Hwf as (Hwu & _).
  rewrite (MemInvariant.values_set_next User.id _ _ _ Hwu). congruence.
Qed.

Lemma createPost_same (now : Z) (ins : InsertPost.t) (r : Post.t)
      (d' : DatabaseStorage.t) :
  allowed (CreatePost now ins) d ->
  DatabaseStorage.createPost now ins d = (Resolved r, d') ->
  fst (MemStorage.createPost ins m) = r
  /\ corresponds (snd (MemStorage.createPost ins m)) d'.
Proof.
  intros Hdate. unfold DatabaseStorage.createPost.
  destruct (existsb _ _) eqn:Hslug; [discriminate|].
  destruct (negb _); [discriminate|].
  intros [= <- <-].
  pose proof (MemInvariant.createPost_wellFormed ins m (mem_wellFormed _ _ R))
    as Hwf'.
  destruct R as [Hwf Hu Hp Hd Hsl Hg Hpt Hs Nu Np Ng Npt Ns Hl].
  assert (Hrow : DatabaseStorage.inserted now ins (DatabaseStorage.posts_id_seq d)
                 = post_of ins (MemStorage.currentPostId m)).
  { rewrite Np. unfold DatabaseStorage.inserted, post_of. cbn [allowed] in Hdate.
    destruct (InsertPost.publishedAt ins); [reflexivity | contradiction]. }
  rewrite Hrow.
  split; [reflexivity|].
  constructor; simpl; try assumption; try congruence.
  - destruct Hwf as (_ & Hwp & _).
    rewrite (MemInvariant.values_set_next Post.id _ _ _ Hwp).
    now apply Permutation_app_tail.
  - intros p Hin. apply in_app_or in Hin as [Hin|[<-|[]]]; [now apply Hd|].
    exact Hdate.
  - now apply Tables.NoDup_app_one, Tables.fresh_text.
Qed.

Lemma createTag_same (ins : InsertTag.t) (r : Tag.t)
      (d' : DatabaseStorage.t) :
  DatabaseStorage.createTag ins d = (Resolved r, d') ->
  fst (MemStorage.createTag ins m) = r
  /\ corresponds (snd (MemStorage.createTag ins m)) d'.
Proof.
  unfold DatabaseStorage.createTag. destruct (existsb _ _); [discriminate|].
  destruct (existsb _ _); [discriminate|].
  intros [= <- <-].
  pose proof (MemInvariant.createTag_wellFormed ins m (mem_wellFormed _ _ R))
    as Hwf'.
  destruct R as [Hwf Hu Hp Hd Hsl Hg Hpt Hs Nu Np Ng Npt Ns Hl].
  split; [simpl; now rewrite Ng|].
  constructor; simpl; try assumption; try congruence.
  destruct Hwf as (_ & _ & Hwg & _).
  rewrite (MemInvariant.values_set_next Tag.id _ _ _ Hwg). congruence.
Qed.

Lemma createSubscriber_same (now : Z) (ins : InsertSubscriber.t)
      (r : Subscriber.t) (d' : DatabaseStorage.t) :
  DatabaseStorage.createSubscriber now ins d = (Resolved r, d') ->
  fst (MemStorage.createSubscriber now ins m) = r
  /\ corresponds (snd (MemStorage.createSubscriber now ins m)) d'.
Proof.
  unfold DatabaseStorage.createSubscriber.
  destruct (existsb _ _); [discriminate|].
  intros [= <- <-].
  pose proof (MemInvariant.createSubscriber_wellFormed
                now ins m (mem_wellFormed _ _ R)) as Hwf'.
  destruct R as [Hwf Hu Hp Hd Hsl Hg Hpt Hs Nu Np Ng Npt Ns Hl].
  split; [simpl; now rewrite Ns|].
  constructor; simpl; try assumption; try congruence.
  destruct Hwf as (_ & _ & _ & _ & Hws).
  rewrite (MemInvariant.values_set_next Subscriber.id _ _ _ Hws). congruence.
Qed.

Lemma addTagToPost_same (ins : InsertPostTag.t) (r : PostTag.t)
      (d' : DatabaseStorage.t) :
  allowed (AddTagToPost ins) d ->
  DatabaseStorage.addTagToPost ins d = (Resolved r, d') ->
  fst (MemStorage.addTagToPost ins m) = r
  /\ corresponds (snd (MemStorage.addTagToPost ins m)) d'.
Proof.
  intros Hnew. unfold DatabaseStorage.addTagToPost.
  destruct (negb _); [discriminate|]. destruct (negb _); [discriminate|].
  intros [= <- <-].
  pose proof (MemInvariant.addTagToPost_wellFormed
                ins m (mem_wellFormed _ _ R)) as Hwf'.
  destruct R as [Hwf Hu Hp Hd Hsl Hg Hpt Hs Nu Np Ng Npt Ns Hl].
  split; [simpl; now rewrite Npt|].
  constructor; simpl; try assumption; try congruence.
  - destruct Hwf as (_ & _ & _ & Hwpt & _).
    rewrite (MemInvariant.values_set_next PostTag.id _ _ _ Hwpt). congruence.
  - intros p t. rewrite filter_app, length_app. simpl.
    specialize (Hl p t).
    destruct (Z.eqb_spec (InsertPostTag.postId ins) p) as [<-|_];
      [|simpl; lia].
    destruct (Z.eqb_spec (InsertPostTag.tagId ins) t) as [<-|_];
      [|simpl; lia].
    simpl.
    assert (Hnone : List.filter
                      (fun pt => (PostTag.postId pt
                                  =? InsertPostTag.postId ins)
                                 && (PostTag.tagId pt
                                     =? InsertPostTag.tagId ins))
                      (DatabaseStorage.postTags d) = []).
    { destruct (List.filter _ _) as [|pt rest] eqn:Hf; [reflexivity|].
      assert (Hin : In pt (List.filter
                             (fun pt => (PostTag.postId pt
                                         =? InsertPostTag.postId ins)
                                        && (PostTag.tagId pt
                                            =? InsertPostTag.tagId ins))
                             (DatabaseStorage.postTags d))).
      { rewrite Hf. now left. }
      apply filter_In in Hin as [Hin Hhit].
      apply andb_prop in Hhit as [Hp' Ht'].
      apply Z.eqb_eq in Hp', Ht'. exfalso. now apply (Hnew pt Hin). }
    rewrite Hnone. simpl. lia.
Qed.

(** The in-memory store replaces the post where it is, the database writes
    the new version behind the other rows. *)
Lemma updatePost_same (id : Z) (u : PartialInsertPost.t)
      (r : option Post.t) (d' : DatabaseStorage.t) :
  DatabaseStorage.updatePost id u d = (Resolved r, d') ->
  fst (MemStorage.updatePost id u m) = r
  /\ corresponds (snd (MemStorage.updatePost id u m)) d'.
Proof.
  pose proof (MemInvariant.updatePost_wellFormed
                id u m (mem_wellFormed _ _ R)) as Hwf'.
  pose proof ids_differ as Hids.
  pose proof (Reads.row_of_id m d R id) as Hrow.
  revert Hwf'.
  unfold DatabaseStorage.updatePost, MemStorage.updatePost.
  destruct (DatabaseStorage.no_values u); [discriminate|].
  destruct R as [Hwf Hu Hp Hd Hsl Hg Hpt Hs Nu Np Ng Npt Ns Hl].
  pose proof Hwf as (_ & Hwp & _).
  rewrite Hrow.
  destruct (DatabaseStorage.first _) as [post|] eqn:Hfirst.
  - destruct (match PartialInsertPost.slug u with
              | Some _ => _ | None => _ end) eqn:Hfree; [discriminate|].
    destruct (match PartialInsertPost.authorId u with
              | Some _ => _ | None => _ end); [discriminate|].
    intros Hwf' [= <- <-]. split; [reflexivity|].
    pose proof (PostRows.updated_perm id u (DatabaseStorage.posts d))
      as Hheap.
    constructor; simpl; try assumption.
    + rewrite (Tables.set_as_map Post.id _ id (fun p => apply_updates p u)
                                 post _ Hwp Hrow).
      rewrite <- Hheap. now apply Permutation_map.
    + apply (Recency.dated_perm _ _ Hheap).
      now apply PostRows.rewritten_dated.
    + apply (Permutation_NoDup (Permutation_map Post.slug Hheap)).
      now apply PostRows.rewritten_slugs_differ.
  - intros _ [= <- <-]. split; [reflexivity|].
    now constructor.
Qed.

Lemma deletePost_same (id : Z) (r : bool) (d' : DatabaseStorage.t) :
  allowed (DeletePost id) d ->
  DatabaseStorage.deletePost id d = (Resolved r, d') ->
  fst (MemStorage.deletePost id m) = r
  /\ corresponds (snd (MemStorage.deletePost id m)) d'.
Proof.
  intros Hfree. unfold DatabaseStorage.deletePost. intros [= <- <-].
  pose proof (MemInvariant.deletePost_wellFormed
                id m (mem_wellFormed _ _ R)) as Hwf'.
  destruct R as [Hwf Hu Hp Hd Hsl Hg Hpt Hs Nu Np Ng Npt Ns Hl].
  pose proof Hwf as (_ & Hwp & _).
  destruct (Tables.delete_as_filter Post.id _ id _ Hwp) as [Hflag Hrows].
  assert (Hkeep : List.filter (fun pt => negb (PostTag.postId pt =? id))
                              (DatabaseStorage.postTags d)
                  = DatabaseStorage.postTags d).
  { apply filter_all. intros pt Hin.
    apply negb_true_iff, Z.eqb_neq. now apply Hfree. }
  unfold MemStorage.deletePost, Js.delete in *. simpl in *.
  split.
  { rewrite Hflag. do 2 f_equal.
    apply Permutation_length. now apply Tables.filter_perm. }
  constructor; simpl; try assumption; try congruence.
  - rewrite Hrows. now apply Tables.filter_perm.
  - now apply Recency.dated_filter.
  - now apply Tables.NoDup_map_filter.
  - now rewrite Hkeep.
Qed.

Lemma removeTagFromPost_same (postId tagId : Z) (r : bool)
      (d' : DatabaseStorage.t) :
  DatabaseStorage.removeTagFromPost postId tagId d = (Resolved r, d') ->
  fst (MemStorage.removeTagFromPost postId tagId m) = r
  /\ corresponds (snd (MemStorage.removeTagFromPost postId tagId m)) d'.
Proof.
  pose proof (MemInvariant.removeTagFromPost_wellFormed
                postId tagId m (mem_wellFormed _ _ R)) as Hwf'.
  revert Hwf'.
  unfold DatabaseStorage.removeTagFromPost, MemStorage.removeTagFromPost.
  destruct R as [Hwf Hu Hp Hd Hsl Hg Hpt Hs Nu Np Ng Npt Ns Hl].
  pose proof Hwf as (_ & _ & _ & Hwpt & _).
  set (hit := fun pt => (PostTag.postId pt =? postId)
                        && (PostTag.tagId pt =? tagId)).
  rewrite Tables.find_as_first, Hpt.
  destruct (DatabaseStorage.first (List.filter hit (DatabaseStorage.postTags d)))
    as [e|] eqn:Hfirst.
  - (* one row matches, and it is the only one *)
    assert (Honly : List.filter hit (DatabaseStorage.postTags d) = [e]).
    { specialize (Hl postId tagId). fold hit in Hl.
      destruct (List.filter hit (DatabaseStorage.postTags d)) as [|x [|y l]];
        simpl in *; try discriminate; [congruence | lia]. }
    assert (He : In e (DatabaseStorage.postTags d) /\ hit e = true).
    { apply filter_In. rewrite Honly. now left. }
    destruct He as [Hein Hehit].
    destruct (Tables.delete_as_filter PostTag.id _ (PostTag.id e) _ Hwpt)
      as [Hflag Hrows].
    unfold Js.delete in *. simpl in Hflag, Hrows |- *.
    intros Hwf' [= <- <-]. rewrite Honly. simpl.
    assert (Hsame : forall pt, In pt (DatabaseStorage.postTags d) ->
                               negb (PostTag.id pt =? PostTag.id e)
                               = negb (hit pt)).
    { intros pt Hin. f_equal.
      destruct (hit pt) eqn:Hhit.
      - assert (Hpt' : In pt [e]).
        { rewrite <- Honly. now apply filter_In. }
        destruct Hpt' as [<-|[]]. apply Z.eqb_refl.
      - apply Z.eqb_neq. intros Hid.
        rewrite <- Hpt in Hin, Hein.
        pose proof (Tables.same_id_same_row PostTag.id _ _ pt e Hwpt Hin Hein
                                            Hid).
        congruence. }
    split.
    + rewrite Hflag, Hpt.
      apply Z.ltb_lt.
      assert (Hin' : In e (List.filter
                             (fun v => PostTag.id v =? PostTag.id e)
                             (DatabaseStorage.postTags d))).
      { apply filter_In. split; [assumption | apply Z.eqb_refl]. }
      destruct (List.filter (fun v => PostTag.id v =? PostTag.id e)
                            (DatabaseStorage.postTags d)) as [|x l];
        [destruct Hin' | simpl; lia].
    + constructor; simpl; try assumption; try congruence.
      * rewrite Hrows, Hpt. now apply filter_ext_in.
      * now apply singleLinks_filter.
  - (* no row matches *)
    intros _ [= <- <-].
    pose proof (first_none_filter hit _ Hfirst) as Hnone.
    assert (Hempty : List.filter hit (DatabaseStorage.postTags d) = []).
    { destruct (List.filter hit (DatabaseStorage.postTags d));
        [reflexivity | discriminate]. }
    rewrite Hempty. split; [reflexivity|].
    constructor; simpl; try assumption.
    + rewrite filter_all; [assumption|].
      intros pt Hin. pose proof (Hnone pt Hin) as Hmiss.
      unfold hit in Hmiss. now rewrite Hmiss.
    + now apply singleLinks_filter.
Qed.
End Corresponding.

End Writes.

Module Simulation.

Import Session.

Lemma answer_inv {S A : Type} (wrap : A -> Result) (call : Async S A)
      (s s' : S) (r : Result) :
  bind call (fun x => ret (wrap x)) s = (Resolved r, s') ->
  exists a, call s = (Resolved a, s') /\ r = wrap a.
Proof.
  unfold bind, ret. destruct (call s) as [[a|e] s1]; [|discriminate].
  intros [= <- <-]. eauto.
Qed.

Lemma allowedb_sound (op : Op) (d : DatabaseStorage.t) :
  allowedb op d = true -> allowed op d.
Proof.
  destruct op; simpl; try (intros _; exact I).
  - destruct (InsertPost.publishedAt post); [discriminate 2 | discriminate 1].
  - intros Hall pt Hin.
    pose proof (proj1 (forallb_forall _ _) Hall pt Hin) as Hpt.
    cbn beta in Hpt. apply negb_true_iff in Hpt. now apply Z.eqb_neq.
  - apply Z.leb_le.
  - intros Hall pt Hin.
    pose proof (proj1 (forallb_forall _ _) Hall pt Hin) as Hpt.
    cbn beta in Hpt. apply negb_true_iff in Hpt.
    intros [Hp Ht]. rewrite Hp, Ht, !Z.eqb_refl in Hpt. discriminate Hpt.
Qed.

Lemma admittedb_sound (ops : list Op) (d : DatabaseStorage.t) :
  admittedb ops d = true -> admitted ops d.
Proof.
  revert d. induction ops as [|op ops IH]; intros d; simpl; [trivial|].
  intros Hboth. apply andb_prop in Hboth as [Hallowed Hrest].
  split; [now apply allowedb_sound|].
  destruct (perform op d) as [[r|e] d']; [now apply IH | discriminate].
Qed.

Lemma empty_corresponds : corresponds MemStorage.empty DatabaseStorage.empty.
Proof.
  constructor; try reflexivity.
  - exact MemInvariant.empty_wellFormed.
  - intros p [].
  - constructor.
  - intros p t. simpl. lia.
Qed.

(** A call that writes: the in-memory store resolves it with the row or
    flag the database resolves it with. *)
Lemma write_agrees {A : Type} (wrap : A -> Result)
      (call : MemStorage.t -> A * MemStorage.t) (m : MemStorage.t)
      (a : A) (d' : DatabaseStorage.t) :
  fst (call m) = a /\ corresponds (snd (call m)) d' ->
  exists r m',
    answer wrap (writes call) m = (Resolved r, m')
    /\ r = wrap a /\ corresponds m' d'.
Proof.
  intros [<- HR]. exists (wrap (fst (call m))), (snd (call m)).
  split; [|now split].
  unfold answer, bind, ret, writes. now destruct (call m).
Qed.

Ltac same_rows R :=
  eexists _, _; split; [reflexivity|]; split; [reflexivity | exact R].

(** One call: when the database resolves an allowed call, the in-memory
    store resolves it with a result the caller cannot tell apart, and the
    stores still correspond. *)
Lemma step (op : Op) (m : MemStorage.t) (d : DatabaseStorage.t)
      (r' : Result) (d' : DatabaseStorage.t) :
  corresponds m d -> allowed op d ->
  perform op d = (Resolved r', d') ->
  exists r m',
    perform op m = (Resolved r, m')
    /\ indistinguishable op r r' /\ corresponds m' d'.
Proof.
  intros R Hallowed Hdb.
  destruct op; cbn [perform indistinguishable] in *; unfold answer in Hdb;
    apply answer_inv in Hdb as (a & Hcall & ->);
    cbn [getUser getUserByUsername createUser getAllPosts getPostById
         getPostBySlug createPost updatePost deletePost getFeaturedPost
         getPaginatedPosts getAllTags getTagById getTagBySlug createTag
         getPostsByTagId getPostsByTagSlug getTagsByPostId addTagToPost
         removeTagFromPost createSubscriber getSubscriberByEmail
         getAllSubscribers DatabaseStorage_IStorage MemStorage_IStorage]
      in *.
  - rewrite (Reads.getUser_same m d R) in Hcall. injection Hcall as <- <-.
    same_rows R.
  - rewrite (Reads.getUserByUsername_same m d R) in Hcall.
    injection Hcall as <- <-. same_rows R.
  - apply write_agrees. exact (Writes.createUser_same m d R _ _ _ Hcall).
  - injection Hcall as <- <-.
    exists (Posts (MemStorage.getAllPosts m)), m.
    split; [reflexivity|]. split; [|exact R].
    eexists _, _. split; [apply (Reads.getAllPosts_agree m d R)|].
    now split.
  - rewrite (Reads.getPostById_same m d R) in Hcall.
    injection Hcall as <- <-. same_rows R.
  - rewrite (Reads.getPostBySlug_same m d R) in Hcall.
    injection Hcall as <- <-. same_rows R.
  - apply write_agrees. exact (Writes.createPost_same m d R _ _ _ _ Hallowed Hcall).
  - apply write_agrees. exact (Writes.updatePost_same m d R _ _ _ _ Hcall).
  - apply write_agrees. exact (Writes.deletePost_same m d R _ _ _ Hallowed Hcall).
  - destruct (Reads.getFeaturedPost_first m d) as [Hd Hm].
    rewrite Hd in Hcall. injection Hcall as <- <-.
    exists (OptPost (MemStorage.getFeaturedPost m)), m.
    split; [reflexivity|]. split; [|exact R].
    eexists _, _. split; [apply (Reads.getAllPosts_agree m d R)|].
    rewrite Hm. now split.
  - destruct (Reads.getPaginatedPosts_window d _ _ _ _ Hallowed Hcall)
      as [-> ->].
    eexists _, m. split; [reflexivity|]. split; [|exact R].
    eexists _, _. split; [apply (Reads.getAllPosts_agree m d R)|].
    now split.
  - rewrite (Reads.getAllTags_same m d R) in Hcall.
    injection Hcall as <- <-. same_rows R.
  - rewrite (Reads.getTagById_same m d R) in Hcall.
    injection Hcall as <- <-. same_rows R.
  - rewrite (Reads.getTagBySlug_same m d R) in Hcall.
    injection Hcall as <- <-. same_rows R.
  - apply write_agrees. exact (Writes.createTag_same m d R _ _ _ Hcall).
  - destruct (Reads.getPostsByTagId_agree m d R tagId) as (l' & Hd & Hsame).
    rewrite Hd in Hcall. injection Hcall as <- <-.
    exists (Posts (MemStorage.getPostsByTagId tagId m)), m.
    split; [reflexivity|]. split; [|exact R].
    eexists _, _. split; [exact Hsame|]. now split.
  - destruct (Reads.getPostsByTagSlug_agree m d R tagSlug)
      as (l' & Hd & Hsame).
    rewrite Hd in Hcall. injection Hcall as <- <-.
    exists (Posts (MemStorage.getPostsByTagSlug tagSlug m)), m.
    split; [reflexivity|]. split; [|exact R].
    eexists _, _. split; [exact Hsame|]. now split.
  - rewrite (Reads.getTagsByPostId_same m d R) in Hcall.
    injection Hcall as <- <-. same_rows R.
  - apply write_agrees. exact (Writes.addTagToPost_same m d R _ _ _ Hallowed Hcall).
  - apply write_agrees. exact (Writes.removeTagFromPost_same m d R _ _ _ _ Hcall).
  - apply write_agrees. exact (Writes.createSubscriber_same m d R _ _ _ _ Hcall).
  - rewrite (Reads.getSubscriberByEmail_same m d R) in Hcall.
    injection Hcall as <- <-. same_rows R.
  - rewrite (Reads.getAllSubscribers_same m d R) in Hcall.
    injection Hcall as <- <-. same_rows R.
Qed.

End Simulation.




(** Two posts of equal [publishedAt]: both stores feature the first; after
    an update of its title the in-memory store, which replaces the post
    where it is, still features it, and the database, which writes the new
    version behind the other row, features the second. *)
Example tied_posts_after_update :
  let ops := [Session.CreateUser Sample.admin;
              Session.CreatePost 0 Sample.post1;
              Session.CreatePost 0 sameDayPost;
              Session.GetFeaturedPost;
              Session.UpdatePost 1
                (PartialInsertPost.mk None (Some "Getting Started"%string)
                                      None None None None None None);
              Session.GetFeaturedPost] in
  let featured (outcomes : list (Outcome Session.Result)) (k : nat) :=
    match nth_error outcomes k with
    | Some (Resolved (Session.OptPost (Some p))) => Some (Post.id p)
    | _ => None
    end in
  featured (Session.run ops MemStorage.empty) 3%nat = Some 1
  /\ featured (Session.run ops DatabaseStorage.empty) 3%nat = Some 1
  /\ featured (Session.run ops MemStorage.empty) 5%nat = Some 1
  /\ featured (Session.run ops DatabaseStorage.empty) 5%nat = Some 2
  /\ Session.admittedb ops DatabaseStorage.empty = true.
Proof. repeat split; vm_compute; reflexivity. Qed.

(* ================================================================= *)
(** ** Every state of the in-memory store is well formed              *)
(* ================================================================= *)

Module MemStates.

Lemma perform_wellFormed (op : Session.Op) (s : MemStorage.t) :
  wellFormed s -> wellFormed (snd (Session.perform op s)).
Proof.
  intros Hwf.
  destruct op; cbn [Session.perform]; unfold Session.answer, bind, ret;
    cbn [getUser getUserByUsername createUser getAllPosts getPostById
         getPostBySlug createPost updatePost deletePost getFeaturedPost
         getPaginatedPosts getAllTags getTagById getTagBySlug createTag
         getPostsByTagId getPostsByTagSlug getTagsByPostId addTagToPost
         removeTagFromPost createSubscriber getSubscriberByEmail
         getAllSubscribers MemStorage_IStorage];
    unfold reads, writes;
    try exact Hwf;
    match goal with
    | [ |- context [MemStorage.createUser ?i s] ] =>
        pose proof (MemInvariant.createUser_wellFormed i s Hwf) as Hnext;
        destruct (MemStorage.createUser i s)
    | [ |- context [MemStorage.createPost ?i s] ] =>
        pose proof (MemInvariant.createPost_wellFormed i s Hwf) as Hnext;
        destruct (MemStorage.createPost i s)
    | [ |- context [MemStorage.updatePost ?i ?u s] ] =>
        pose proof (MemInvariant.updatePost_wellFormed i u s Hwf) as Hnext;
        destruct (MemStorage.updatePost i u s)
    | [ |- context [MemStorage.deletePost ?i s] ] =>
        pose proof (MemInvariant.deletePost_wellFormed i s Hwf) as Hnext;
        destruct (MemStorage.deletePost i s)
    | [ |- context [MemStorage.createTag ?i s] ] =>
        pose proof (MemInvariant.createTag_wellFormed i s Hwf) as Hnext;
        destruct (MemStorage.createTag i s)
    | [ |- context [MemStorage.addTagToPost ?i s] ] =>
        pose proof (MemInvariant.addTagToPost_wellFormed i s Hwf) as Hnext;
        destruct (MemStorage.addTagToPost i s)
    | [ |- context [MemStorage.removeTagFromPost ?p ?g s] ] =>
        pose proof (MemInvariant.removeTagFromPost_wellFormed p g s Hwf)
          as Hnext;
        destruct (MemStorage.removeTagFromPost p g s)
    | [ |- context [MemStorage.createSubscriber ?n ?i s] ] =>
        pose proof (MemInvariant.createSubscriber_wellFormed n i s Hwf)
          as Hnext;
        destruct (MemStorage.createSubscriber n i s)
    end; exact Hnext.
Qed.

Lemma reachable_wellFormed (s : MemStorage.t) : reachable s -> wellFormed s.
Proof.
  induction 1 as [content|op s _ IH].
  - exact (MemInvariant.new_wellFormed content).
  - now apply perform_wellFormed.
Qed.

End MemStates.

(* ================================================================= *)
(** ** The routes over the persistent store                           *)
(* ================================================================= *)

Module DbRoutes.

Lemma filter_none {A : Type} (p : A -> bool) (l : list A) :
  (forall x, In x l -> p x = false) -> List.filter p l = [].
Proof.
  intros Hall. induction l as [|x l IH]; simpl; [reflexivity|].
  rewrite (Hall x) by now left. apply IH. intros y Hy. apply Hall. now right.
Qed.

Lemma withTags_resolves_db (ps : list Post.t) (d : DatabaseStorage.t) :
  exists tagged,
    Routes.withTags ps d = (Resolved tagged, d)
    /\ map PostWithTags.post tagged = ps.
Proof.
  unfold Routes.withTags. cbn [getTagsByPostId DatabaseStorage_IStorage].
  induction ps as [|p ps (tagged & Hrun & Hposts)].
  - exists []. now split.
  - cbn [forEachAsync]. unfold bind at 1. unfold bind at 1.
    unfold DatabaseStorage.getTagsByPostId at 1. unfold reads at 1.
    unfold ret at 1. unfold bind at 1. rewrite Hrun.
    eexists. split; [reflexivity|]. simpl. now rewrite Hposts.
Qed.

Lemma persistent_lists_sorted (d : DatabaseStorage.t) :
  (forall ps d', DatabaseStorage.getAllPosts d = (Resolved ps, d') ->
                 descending ps)
  /\ (forall page limit r d',
        DatabaseStorage.getPaginatedPosts page limit d = (Resolved r, d') ->
        descending (page_posts r))
  /\ (forall tagId ps d',
        DatabaseStorage.getPostsByTagId tagId d = (Resolved ps, d') ->
        descending ps)
  /\ (forall slug ps d',
        DatabaseStorage.getPostsByTagSlug slug d = (Resolved ps, d') ->
        descending ps).
Proof.
  assert (Htag : forall tagId ps d',
             DatabaseStorage.getPostsByTagId tagId d = (Resolved ps, d') ->
             descending ps).
  { intros tagId ps d' [= <- _].
    rewrite (Tables.sort_fst DatabaseStorage.descPublishedAt).
    apply Recency.ordered_descending. }
  repeat split.
  - intros ps d' [= <- _]. apply Recency.ordered_descending.
  - intros page limit r d'. unfold DatabaseStorage.getPaginatedPosts.
    destruct ((page - 1) * limit <? 0); [discriminate|].
    intros [= <- _]. cbn [page_posts].
    destruct (0 <=? limit); [apply JsFacts.sorted_firstn|];
      apply JsFacts.sorted_skipn, Recency.ordered_descending.
  - exact Htag.
  - intros slug ps d'. unfold DatabaseStorage.getPostsByTagSlug, bind.
    unfold DatabaseStorage.getTagBySlug at 1, reads at 1.
    destruct (DatabaseStorage.first _) as [g|].
    + apply Htag.
    + intros [= <- _]. constructor.
Qed.

(** [GET /api/posts] for page >= 1 and limit >= 1. *)
Lemma persistent_page (d : DatabaseStorage.t) (page limit : Z) :
  1 <= page -> 1 <= limit ->
  exists r tagged,
    DatabaseStorage.getPaginatedPosts page limit d = (Resolved r, d)
    /\ Z.of_nat (List.length (page_posts r)) <= limit
    /\ page_total r = Z.of_nat (List.length (DatabaseStorage.posts d))
    /\ map PostWithTags.post tagged = page_posts r
    /\ Routes.get_api_posts (mkQuery (Some page) (Some limit)) d
       = (mkResponse 200
            (PostsJson tagged
               (mkPagination (page_total r) page limit
                             (ceilDiv (page_total r) limit))), d).
Proof.
  intros Hpage Hlimit.
  assert (Hp : (page =? 0) = false) by lia.
  assert (Hl : (limit =? 0) = false) by lia.
  assert (Hneg : (0 <=? limit) = true) by lia.
  assert (Hoff : ((page - 1) * limit <? 0) = false) by nia.
  set (r := mkPage
              (firstn (Z.to_nat limit)
                 (skipn (Z.to_nat ((page - 1) * limit))
                    (DatabaseStorage.orderByPublishedAtDesc
                       (DatabaseStorage.posts d))))
              (Z.of_nat (List.length (DatabaseStorage.posts d)))).
  assert (Hcall : DatabaseStorage.getPaginatedPosts page limit d
                  = (Resolved r, d)).
  { unfold DatabaseStorage.getPaginatedPosts. now rewrite Hneg, Hoff. }
  destruct (withTags_resolves_db (page_posts r) d) as (tagged & Hrun & Hposts).
  exists r, tagged. repeat split; try assumption.
  - unfold r. simpl. rewrite length_firstn. lia.
  - unfold Routes.get_api_posts, Routes.tryCatch, orNumber.
    cbn [query_page query_limit]. rewrite Hp, Hl.
    unfold bind at 1. cbn [getPaginatedPosts DatabaseStorage_IStorage].
    rewrite Hcall. unfold bind at 1. rewrite Hrun. reflexivity.
Qed.

Lemma persistent_featured_value (d : DatabaseStorage.t) :
  DatabaseStorage.getFeaturedPost d
  = (Resolved (hd_error (DatabaseStorage.orderByPublishedAtDesc
                           (DatabaseStorage.posts d))), d).
Proof.
  unfold DatabaseStorage.getFeaturedPost, reads.
  now destruct (DatabaseStorage.orderByPublishedAtDesc _).
Qed.

(** X27. [GET /api/posts/featured] over the persistent store: with no
    post in the table it answers 404 "No featured post found"; otherwise
    [getFeaturedPost] resolves with a post of the table that no post of
    the table is more recent than, and the route answers 200 with that
    post and the tags [getTagsByPostId] resolves with for its id. *)
Lemma persistent_featured (d : DatabaseStorage.t) :
  (DatabaseStorage.posts d = [] ->
     Routes.get_api_posts_featured d
     = (mkResponse 404 (MessageJson "No featured post found"), d))
  /\ (DatabaseStorage.posts d <> [] ->
      exists p tags,
        DatabaseStorage.getFeaturedPost d = (Resolved (Some p), d)
        /\ In p (DatabaseStorage.posts d)
        /\ (forall q, In q (DatabaseStorage.posts d) -> notBefore p q)
        /\ DatabaseStorage.getTagsByPostId (Post.id p) d
           = (Resolved tags, d)
        /\ Routes.get_api_posts_featured d
           = (mkResponse 200 (PostJson (PostWithTags.mk p tags)), d)).
Proof.
  unfold Routes.get_api_posts_featured, Routes.tryCatch.
  cbn [getFeaturedPost getTagsByPostId DatabaseStorage_IStorage].
  unfold bind at 1 3. rewrite !persistent_featured_value.
  pose proof (Recency.ordered_descending (DatabaseStorage.posts d))
    as Hsorted.
  pose proof (fun q => JsFacts.sort_In DatabaseStorage.descPublishedAt q
                        (DatabaseStorage.posts d)) as Hin.
  change (Js.sort DatabaseStorage.descPublishedAt (DatabaseStorage.posts d))
    with (DatabaseStorage.orderByPublishedAtDesc (DatabaseStorage.posts d))
    in Hin.
  split.
  - intros ->. reflexivity.
  - intros Hsome.
    destruct (DatabaseStorage.orderByPublishedAtDesc (DatabaseStorage.posts d))
      as [|p rest].
    + destruct (DatabaseStorage.posts d) as [|q l]; [contradiction|].
      exfalso. apply (Hin q). now left.
    + simpl. exists p. eexists. split; [reflexivity|].
      split; [|split; [|split]].
      * apply (Hin p). now left.
      * intros q Hq. apply (Hin q) in Hq.
        exact (Recency.head_not_before p q rest Hsorted Hq).
      * reflexivity.
      * reflexivity.
Qed.

(** [GET /api/tags/:slug/posts] for a slug no tag has. *)
Lemma persistent_unknown_slug (d : DatabaseStorage.t) (slug : string) :
  (forall g, In g (DatabaseStorage.tags d) -> Tag.slug g <> slug) ->
  DatabaseStorage.getPostsByTagSlug slug d = (Resolved [], d)
  /\ Routes.get_api_tags_slug_posts slug d
     = (mkResponse 200 (PostListJson []), d).
Proof.
  intros Hfresh.
  assert (Hposts : DatabaseStorage.getPostsByTagSlug slug d
                   = (Resolved [], d)).
  { unfold DatabaseStorage.getPostsByTagSlug, bind.
    unfold DatabaseStorage.getTagBySlug, reads.
    rewrite filter_none; [reflexivity|].
    intros g Hg. apply String.eqb_neq. now apply Hfresh. }
  split; [exact Hposts|].
  unfold Routes.get_api_tags_slug_posts, Routes.tryCatch.
  unfold bind at 1. cbn [getPostsByTagSlug DatabaseStorage_IStorage].
  rewrite Hposts. reflexivity.
Qed.

(** X28. [GET /rss.xml] over the persistent store answers 200 with the
    document built from the listing by recency, one item text per post in
    that order; when the base URL and the titles, slugs and excerpts
    contain no '<', the document holds the tag <item> once per row of the
    table. *)
Lemma persistent_feed (d : DatabaseStorage.t) (BASE_URL host : option string)
      (now : Z) :
  let baseUrl := Rss.baseUrlOf BASE_URL host in
  exists tagged,
    Routes.get_rss_xml BASE_URL host now d
    = (mkResponse 200 (Xml (Rss.build baseUrl now tagged)), d)
    /\ map PostWithTags.post tagged
       = DatabaseStorage.orderByPublishedAtDesc (DatabaseStorage.posts d)
    /\ (Text.lacks Text.lt baseUrl = true ->
        (forall p, In p (DatabaseStorage.posts d) -> Text.plain p = true) ->
        Text.occurrences Text.itemTag (Rss.build baseUrl now tagged)
        = List.length (DatabaseStorage.posts d)).
Proof.
  intros baseUrl.
  destruct (withTags_resolves_db
              (DatabaseStorage.orderByPublishedAtDesc
                 (DatabaseStorage.posts d)) d) as (tagged & Hrun & Hposts).
  exists tagged. split; [|split].
  - unfold Routes.get_rss_xml, Routes.tryCatch.
    unfold bind at 1. cbn [getAllPosts DatabaseStorage_IStorage].
    unfold DatabaseStorage.getAllPosts, reads at 1.
    unfold bind at 1. rewrite Hrun. reflexivity.
  - exact Hposts.
  - intros Hbase Hplain.
    rewrite RssCount.build_count; [|assumption|].
    + rewrite <- (length_map PostWithTags.post), Hposts.
      apply (JsFacts.sort_length DatabaseStorage.descPublishedAt).
    + intros p Hp. apply Hplain.
      apply (JsFacts.sort_In DatabaseStorage.descPublishedAt).
      fold (DatabaseStorage.orderByPublishedAtDesc (DatabaseStorage.posts d)).
      rewrite <- Hposts. now apply in_map.
Qed.

End DbRoutes.

(* ================================================================= *)
(** ** Rows of the in-memory store: creation, update and deletion  *)
(* ================================================================= *)

Module MapOps.
Section Ops.
Context {V : Type}.

Lemma get_set_same (k : Z) (v : V) (m : Js.Map V) :
  Js.get k (Js.set k v m) = Some v.
Proof.
  unfold Js.set. destruct (Js.has k m) eqn:Hhas.
  - unfold Js.get, Js.has in *. induction m as [|[k' v'] m IH]; simpl in *.
    + discriminate.
    + destruct (Z.eqb_spec k' k) as [->|Hne]; simpl.
      * now rewrite Z.eqb_refl.
      * destruct (Z.eqb_spec k' k); [contradiction|]. now apply IH.
  - unfold Js.get, Js.has in *. induction m as [|[k' v'] m IH]; simpl in *.
    + now rewrite Z.eqb_refl.
    + destruct (Z.eqb_spec k' k) as [->|Hne]; simpl in *; [discriminate|].
      now apply IH.
Qed.

Lemma get_set_other (k k' : Z) (v : V) (m : Js.Map V) :
  k' <> k -> Js.get k' (Js.set k v m) = Js.get k' m.
Proof.
  intros Hne. unfold Js.set. destruct (Js.has k m).
  - unfold Js.get. induction m as [|[j w] m IH]; simpl; [reflexivity|].
    destruct (Z.eqb_spec j k) as [->|Hj]; simpl.
    + destruct (Z.eqb_spec k k'); [congruence|]. exact IH.
    + destruct (j =? k'); [reflexivity | exact IH].
  - unfold Js.get. induction m as [|[j w] m IH]; simpl.
    + destruct (Z.eqb_spec k k'); [congruence | reflexivity].
    + destruct (j =? k'); [reflexivity | exact IH].
Qed.

Lemma get_delete_same (k : Z) (m : Js.Map V) :
  Js.get k (snd (Js.delete k m)) = None.
Proof.
  simpl. unfold Js.get. induction m as [|[j w] m IH]; simpl; [reflexivity|].
  destruct (Z.eqb_spec j k) as [->|Hj]; simpl; [exact IH|].
  destruct (Z.eqb_spec j k); [contradiction | exact IH].
Qed.

Lemma get_delete_other (k k' : Z) (m : Js.Map V) :
  k' <> k -> Js.get k' (snd (Js.delete k m)) = Js.get k' m.
Proof.
  intros Hne. simpl. unfold Js.get.
  induction m as [|[j w] m IH]; simpl; [reflexivity|].
  destruct (Z.eqb_spec j k) as [->|Hj]; simpl.
  - destruct (Z.eqb_spec k k'); [congruence | exact IH].
  - destruct (j =? k'); [reflexivity | exact IH].
Qed.

Lemma has_get (k : Z) (m : Js.Map V) :
  Js.has k m = match Js.get k m with Some _ => true | None => false end.
Proof.
  unfold Js.has, Js.get. induction m as [|[j w] m IH]; simpl; [reflexivity|].
  destruct (j =? k); [reflexivity | exact IH].
Qed.

Lemma size_set_same (k : Z) (v : V) (m : Js.Map V) :
  Js.has k m = true -> List.length (Js.set k v m) = List.length m.
Proof. unfold Js.set. intros ->. apply length_map. Qed.
End Ops.
End MapOps.

(** X1. In the in-memory store, [createUser], [createPost] and [createTag]
    return the row under the id the counter held, a lookup by that id then
    returns the row, the counter has advanced by one, and the lookup of any
    other id answers as before. *)
Theorem created_rows_found_by_id (s : MemStorage.t) :
  (forall ins,
     let out := MemStorage.createUser ins s in
     fst out = user_of ins (MemStorage.currentUserId s)
     /\ MemStorage.getUser (MemStorage.currentUserId s) (snd out)
        = Some (fst out)
     /\ MemStorage.currentUserId (snd out) = MemStorage.currentUserId s + 1
     /\ forall id, id <> MemStorage.currentUserId s ->
                   MemStorage.getUser id (snd out) = MemStorage.getUser id s)
  /\ (forall ins,
        let out := MemStorage.createPost ins s in
        fst out = post_of ins (MemStorage.currentPostId s)
        /\ MemStorage.getPostById (MemStorage.currentPostId s) (snd out)
           = Some (fst out)
        /\ MemStorage.currentPostId (snd out) = MemStorage.currentPostId s + 1
        /\ forall id, id <> MemStorage.currentPostId s ->
                      MemStorage.getPostById id (snd out)
                      = MemStorage.getPostById id s)
  /\ (forall ins,
        let out := MemStorage.createTag ins s in
        fst out = tag_of ins (MemStorage.currentTagId s)
        /\ MemStorage.getTagById (MemStorage.currentTagId s) (snd out)
           = Some (fst out)
        /\ MemStorage.currentTagId (snd out) = MemStorage.currentTagId s + 1
        /\ forall id, id <> MemStorage.currentTagId s ->
                      MemStorage.getTagById id (snd out)
                      = MemStorage.getTagById id s).
Proof.
  repeat split; simpl;
    try apply MapOps.get_set_same;
    intros id Hid; now apply MapOps.get_set_other.
Qed.

Module PostsMap.

Lemma In_get (s : MemStorage.t) (p : Post.t) :
  wellFormed s ->
  In p (Js.values (MemStorage.posts s)) ->
  MemStorage.getPostById (Post.id p) s = Some p
  /\ Post.id p < MemStorage.currentPostId s.
Proof.
  intros (_ & Hposts & _) Hin.
  apply in_map_iff in Hin as ([k v] & Hv & He). simpl in Hv. subst v.
  pose proof Hposts as [_ Hall]. rewrite Forall_forall in Hall.
  destruct (Hall _ He) as [Hid Hlt]. simpl in Hid, Hlt. subst k.
  split; [|exact Hlt].
  now apply (MemInvariant.get_some_iff Post.id _ _ _ _ Hposts).
Qed.

End PostsMap.

(** X2. In a well-formed in-memory store the id [createPost] hands out is
    in use by no post and above the id of every post; the new post goes
    last in the map and [getAllPosts] lists it beside the posts listed
    before; and after a [deletePost] the next id is still above the id of
    every post the store held, so that the id of a deleted post is not
    handed out again. *)
Theorem createPost_appends (s : MemStorage.t) (ins : InsertPost.t) :
  wellFormed s ->
  let out := MemStorage.createPost ins s in
  MemStorage.getPostById (Post.id (fst out)) s = None
  /\ (forall q, In q (Js.values (MemStorage.posts s)) ->
                Post.id q < Post.id (fst out))
  /\ Js.values (MemStorage.posts (snd out))
     = Js.values (MemStorage.posts s) ++ [fst out]
  /\ Permutation (MemStorage.getAllPosts (snd out))
                 (fst out :: MemStorage.getAllPosts s)
  /\ (forall id q,
        In q (Js.values (MemStorage.posts s)) ->
        Post.id q
        < Post.id (fst (MemStorage.createPost
                          ins (snd (MemStorage.deletePost id s))))).
Proof.
  intros Hwf out. pose proof Hwf as (_ & Hposts & _).
  assert (Hvalues : Js.values (MemStorage.posts (snd out))
                    = Js.values (MemStorage.posts s) ++ [fst out]).
  { apply (MemInvariant.values_set_next Post.id _ _ _ Hposts). }
  repeat split.
  - simpl. unfold MemStorage.getPostById.
    pose proof (MemInvariant.fresh_key Post.id _ _ Hposts) as Hfresh.
    rewrite MapOps.has_get in Hfresh.
    now destruct (Js.get (MemStorage.currentPostId s) (MemStorage.posts s)).
  - intros q Hq. now apply PostsMap.In_get.
  - exact Hvalues.
  - unfold MemStorage.getAllPosts. rewrite Hvalues.
    rewrite (JsFacts.sort_perm byPublishedAtDesc).
    rewrite Permutation_app_comm. simpl. constructor.
    symmetry. apply (JsFacts.sort_perm byPublishedAtDesc).
  - intros id q Hq. simpl. now apply PostsMap.In_get.
Qed.

Lemma createPost_appends_witness :
  wellFormed Sample.mem
  /\ Post.id (fst (MemStorage.createPost Sample.post1 Sample.mem)) = 7
  /\ MemStorage.getPostById 7 Sample.mem = None
  /\ (forall q, In q (Js.values (MemStorage.posts Sample.mem)) ->
                Post.id q
                < Post.id (fst (MemStorage.createPost
                                  Sample.post1
                                  (snd (MemStorage.deletePost 6 Sample.mem))))).
Proof.
  assert (Hwf : wellFormed Sample.mem).
  { exact (MemInvariant.new_wellFormed (fun _ => EmptyString)). }
  assert (Hid : Post.id (fst (MemStorage.createPost Sample.post1 Sample.mem))
                = 7).
  { vm_compute. reflexivity. }
  destruct (createPost_appends Sample.mem Sample.post1 Hwf)
    as (Hfresh & _ & _ & _ & Hreuse).
  split; [exact Hwf|]. split; [exact Hid|]. split.
  - rewrite <- Hid. exact Hfresh.
  - apply Hreuse.
Defined.

(** X3. [updatePost] of the in-memory store: for an id without a post it
    returns [undefined] and leaves the store as it was; for the id of a
    post it returns the post with the given properties replaced, which is
    what [getPostById] returns afterwards, under the same id; the other
    posts, the number of posts, the counter and the join map are
    unchanged. *)
Theorem updatePost_replaces_one (s : MemStorage.t) (id : Z)
        (u : PartialInsertPost.t) :
  let out := MemStorage.updatePost id u s in
  (MemStorage.getPostById id s = None -> out = (None, s))
  /\ (forall post,
        MemStorage.getPostById id s = Some post ->
        fst out = Some (apply_updates post u)
        /\ MemStorage.getPostById id (snd out) = Some (apply_updates post u)
        /\ Post.id (apply_updates post u) = Post.id post
        /\ (forall other, other <> id ->
                          MemStorage.getPostById other (snd out)
                          = MemStorage.getPostById other s)
        /\ Js.size (MemStorage.posts (snd out)) = Js.size (MemStorage.posts s)
        /\ MemStorage.currentPostId (snd out) = MemStorage.currentPostId s
        /\ MemStorage.postTags (snd out) = MemStorage.postTags s).
Proof.
  intros out. unfold out, MemStorage.updatePost, MemStorage.getPostById.
  split.
  - now intros ->.
  - intros post Hget. rewrite Hget. cbn [fst snd].
    repeat split.
    + apply MapOps.get_set_same.
    + intros other Hother. simpl. now apply MapOps.get_set_other.
    + simpl. unfold Js.size. f_equal. apply MapOps.size_set_same.
      rewrite MapOps.has_get. now rewrite Hget.
Qed.

(** X4. [deletePost] of a well-formed in-memory store returns [true]
    exactly when the id had a post; afterwards the id has none, the other
    ids answer as before, a second [deletePost] of the id returns [false],
    a [deletePost] of an id without a post changes nothing, and the
    listing loses the deleted post and no other. *)
Theorem deletePost_removes_one (s : MemStorage.t) (id : Z) :
  wellFormed s ->
  let out := MemStorage.deletePost id s in
  fst out = match MemStorage.getPostById id s with
            | Some _ => true
            | None => false
            end
  /\ MemStorage.getPostById id (snd out) = None
  /\ (forall other, other <> id ->
                    MemStorage.getPostById other (snd out)
                    = MemStorage.getPostById other s)
  /\ fst (MemStorage.deletePost id (snd out)) = false
  /\ (MemStorage.getPostById id s = None -> snd out = s)
  /\ (forall post,
        MemStorage.getPostById id s = Some post ->
        Permutation (MemStorage.getAllPosts s)
                    (post :: MemStorage.getAllPosts (snd out))).
Proof.
  intros Hwf out.
  assert (Hgone : MemStorage.getPostById id (snd out) = None).
  { apply MapOps.get_delete_same. }
  split; [|split; [|split; [|split; [|split]]]].
  - apply MapOps.has_get.
  - exact Hgone.
  - intros other Hother. now apply MapOps.get_delete_other.
  - change (fst (MemStorage.deletePost id (snd out)))
      with (Js.has id (MemStorage.posts (snd out))).
    rewrite MapOps.has_get.
    unfold MemStorage.getPostById in Hgone. now rewrite Hgone.
  - intros Hnone. unfold out, MemStorage.deletePost. simpl.
    unfold MemStorage.getPostById in Hnone.
    assert (Hkeep : List.filter (fun e : Z * Post.t => negb (fst e =? id))
                                (MemStorage.posts s) = MemStorage.posts s).
    { unfold Js.get in Hnone.
      induction (MemStorage.posts s) as [|[k v] m IH]; simpl in *;
        [reflexivity|].
      destruct (k =? id); simpl in *; [discriminate|].
      f_equal. now apply IH. }
    unfold MemStorage.with_posts. rewrite Hkeep. now destruct s.
  - intros post Hget. pose proof Hwf as (_ & Hposts & _).
    unfold MemStorage.getAllPosts.
    rewrite !(JsFacts.sort_perm byPublishedAtDesc).
    destruct (Tables.delete_as_filter Post.id _ id _ Hposts) as [_ Hrest].
    change (Js.values (MemStorage.posts (snd out)))
      with (Js.values (snd (Js.delete id (MemStorage.posts s)))).
    rewrite Hrest.
    pose proof (TagLinks.one_row_per_id Post.id _ _ _ _ Hposts Hget) as Hone.
    clear Hrest Hget.
    induction (Js.values (MemStorage.posts s)) as [|q l IH]; simpl in *;
      [discriminate|].
    destruct (Post.id q =? id); simpl in *.
    + injection Hone as -> Hnil. constructor.
      assert (Hsame : List.filter (fun v => negb (Post.id v =? id)) l = l).
      { clear IH. induction l as [|r l IH]; simpl in *; [reflexivity|].
        destruct (Post.id r =? id); simpl in *; [discriminate|].
        f_equal. now apply IH. }
      now rewrite Hsame.
    + rewrite perm_swap. constructor. now apply IH.
Qed.

Lemma deletePost_removes_one_witness :
  wellFormed Sample.mem
  /\ fst (MemStorage.deletePost 6 Sample.mem) = true
  /\ MemStorage.getPostById 6 (snd (MemStorage.deletePost 6 Sample.mem))
     = None
  /\ fst (MemStorage.deletePost
            6 (snd (MemStorage.deletePost 6 Sample.mem))) = false.
Proof.
  assert (Hwf : wellFormed Sample.mem).
  { exact (MemInvariant.new_wellFormed (fun _ => EmptyString)). }
  assert (Hhas : Js.has 6 (MemStorage.posts Sample.mem) = true).
  { vm_compute. reflexivity. }
  destruct (deletePost_removes_one Sample.mem 6 Hwf)
    as (_ & Hgone & _ & Hagain & _).
  split; [exact Hwf|]. split; [exact Hhas|]. split; assumption.
Defined.

(* ================================================================= *)
(** ** Rows of the join map                                        *)
(* ================================================================= *)

Module LinkRows.

Lemma ids_NoDup {V : Type} (idOf : V -> Z) (next : Z) (m : Js.Map V) :
  wf_map idOf next m -> NoDup (map idOf (Js.values m)).
Proof.
  intros [Hnd Hall]. unfold Js.values. rewrite map_map.
  erewrite map_ext_in; [exact Hnd|].
  intros e He. rewrite Forall_forall in Hall.
  destruct (Hall e He) as [Hid _]. now rewrite Hid.
Qed.

Lemma filter_keeps_others {V : Type} (idOf : V -> Z) (k : Z) (l : list V) :
  ~ In k (map idOf l) ->
  List.filter (fun v => negb (idOf v =? k)) l = l.
Proof.
  induction l as [|x l IH]; simpl; [reflexivity|].
  intros Hout. destruct (Z.eqb_spec (idOf x) k) as [Heq|_]; simpl.
  - exfalso. apply Hout. now left.
  - f_equal. apply IH. tauto.
Qed.

(** Deleting the first row that a test selects, in a list of rows with
    distinct ids. *)
Lemma remove_first {V : Type} (idOf : V -> Z) (hit : V -> bool)
      (l : list V) (row : V) (rest : list V) :
  NoDup (map idOf l) ->
  List.filter hit l = row :: rest ->
  let l' := List.filter (fun v => negb (idOf v =? idOf row)) l in
  List.filter hit l' = rest
  /\ List.filter (fun v => negb (hit v)) l'
     = List.filter (fun v => negb (hit v)) l
  /\ Permutation l (row :: l').
Proof.
  induction l as [|x l IH]; simpl; [discriminate|].
  intros Hnd Hfilter. inversion Hnd as [|? ? Hout Hnd']; subst.
  destruct (hit x) eqn:Hx; simpl.
  - injection Hfilter as -> Hrest. rewrite Z.eqb_refl. simpl.
    rewrite (filter_keeps_others idOf _ l Hout).
    repeat split; [exact Hrest | reflexivity].
  - destruct (IH Hnd' Hfilter) as (Hhit & Hmiss & Hperm).
    assert (Hin : In row l).
    { assert (H : In row (List.filter hit l)) by (rewrite Hfilter; now left).
      now apply filter_In in H. }
    destruct (Z.eqb_spec (idOf x) (idOf row)) as [Heq|_]; simpl.
    + exfalso. apply Hout. rewrite Heq. now apply in_map.
    + rewrite Hx. simpl. repeat split.
      * exact Hhit.
      * now rewrite Hmiss.
      * rewrite perm_swap. now constructor.
Qed.

End LinkRows.

(** X5. [removeTagFromPost] of a well-formed in-memory store: when no row
    of the join map links the post to the tag it returns [false] and leaves
    the store as it was; otherwise it returns [true] and removes the oldest
    such row and nothing else, so that further rows of the same pair
    remain. *)
Theorem removeTagFromPost_removes_first (s : MemStorage.t) (p t : Z) :
  wellFormed s ->
  let hit pt := (PostTag.postId pt =? p) && (PostTag.tagId pt =? t) in
  let rows := Js.values (MemStorage.postTags s) in
  let out := MemStorage.removeTagFromPost p t s in
  let rows' := Js.values (MemStorage.postTags (snd out)) in
  (List.filter hit rows = [] -> out = (false, s))
  /\ (forall row rest,
        List.filter hit rows = row :: rest ->
        fst out = true
        /\ List.filter hit rows' = rest
        /\ List.filter (fun pt => negb (hit pt)) rows'
           = List.filter (fun pt => negb (hit pt)) rows
        /\ Permutation rows (row :: rows')).
Proof.
  intros Hwf hit rows out rows'. pose proof Hwf as (_ & _ & _ & Hpts & _).
  unfold rows', out, MemStorage.removeTagFromPost.
  fold hit. fold rows. rewrite Tables.find_as_first. split.
  - now intros ->.
  - intros row rest Hfilter. rewrite Hfilter. cbn [DatabaseStorage.first hd_error].
    destruct (Tables.delete_as_filter PostTag.id _ (PostTag.id row) _ Hpts)
      as [Hflag Hvalues].
    destruct (Js.delete (PostTag.id row) (MemStorage.postTags s))
      as [existed pts] eqn:Hdelete.
    cbn [fst snd] in *. cbn [MemStorage.postTags MemStorage.with_postTags].
    fold rows in Hflag, Hvalues. rewrite Hvalues.
    pose proof (LinkRows.ids_NoDup PostTag.id _ _ Hpts) as Hnd.
    fold rows in Hnd.
    split; [|exact (LinkRows.remove_first PostTag.id hit rows row rest
                                          Hnd Hfilter)].
    rewrite Hflag. apply Z.ltb_lt.
    assert (Hin : In row (List.filter (fun v => PostTag.id v =? PostTag.id row)
                                      rows)).
    { apply filter_In. split; [|apply Z.eqb_refl].
      assert (H : In row (List.filter hit rows)) by (rewrite Hfilter; now left).
      now apply filter_In in H. }
    destruct (List.filter (fun v => PostTag.id v =? PostTag.id row) rows);
      [contradiction | simpl; lia].
Qed.

Lemma removeTagFromPost_removes_first_witness :
  wellFormed Sample.mem
  /\ fst (MemStorage.removeTagFromPost 1 2 Sample.mem) = true
  /\ List.filter (fun pt => (PostTag.postId pt =? 1) && (PostTag.tagId pt =? 2))
       (Js.values (MemStorage.postTags
                     (snd (MemStorage.removeTagFromPost 1 2 Sample.mem))))
     = []
  /\ MemStorage.removeTagFromPost 7 2 Sample.mem = (false, Sample.mem).
Proof.
  assert (Hwf : wellFormed Sample.mem).
  { exact (MemInvariant.new_wellFormed (fun _ => EmptyString)). }
  assert (Hrow : List.filter
                   (fun pt => (PostTag.postId pt =? 1)
                              && (PostTag.tagId pt =? 2))
                   (Js.values (MemStorage.postTags Sample.mem))
                 = [PostTag.mk 2 1 2]).
  { vm_compute. reflexivity. }
  assert (Hnone : List.filter
                    (fun pt => (PostTag.postId pt =? 7)
                               && (PostTag.tagId pt =? 2))
                    (Js.values (MemStorage.postTags Sample.mem))
                  = []).
  { vm_compute. reflexivity. }
  split; [exact Hwf|].
  destruct (removeTagFromPost_removes_first Sample.mem 1 2 Hwf)
    as [_ Hsome].
  destruct (Hsome _ _ Hrow) as (Hflag & Hrest & _).
  split; [exact Hflag|]. split; [exact Hrest|].
  now apply (removeTagFromPost_removes_first Sample.mem 7 2 Hwf).
Defined.

Module Linked.

(** Some row of the join map links post [p] to tag [t]. *)
Lemma postIds_In (t p : Z) (rows : list PostTag.t) :
  In p (map PostTag.postId (Js.filter (fun pt => PostTag.tagId pt =? t) rows))
  <-> exists pt, In pt rows /\ PostTag.postId pt = p /\ PostTag.tagId pt = t.
Proof.
  unfold Js.filter. rewrite in_map_iff. split.
  - intros (pt & Hp & Hin). apply filter_In in Hin as [Hin Ht].
    apply Z.eqb_eq in Ht. eauto.
  - intros (pt & Hin & Hp & Ht). exists pt. split; [assumption|].
    apply filter_In. split; [assumption | now apply Z.eqb_eq].
Qed.

Lemma values_NoDup {V : Type} (idOf : V -> Z) (next : Z) (m : Js.Map V) :
  wf_map idOf next m -> NoDup (Js.values m).
Proof.
  intros Hwf. apply (NoDup_map_inv idOf).
  now apply (LinkRows.ids_NoDup idOf next).
Qed.

Lemma In_values_iff {V : Type} (idOf : V -> Z) (next : Z) (m : Js.Map V)
      (v : V) :
  wf_map idOf next m ->
  In v (Js.values m) <-> Js.get (idOf v) m = Some v.
Proof.
  intros Hwf. rewrite (MemInvariant.get_some_iff idOf next) by assumption.
  pose proof Hwf as [_ Hall]. rewrite Forall_forall in Hall.
  unfold Js.values. rewrite in_map_iff. split.
  - intros ([k w] & Hw & He). simpl in Hw. subst w.
    destruct (Hall _ He) as [Hid _]. simpl in Hid. now subst k.
  - intros He. now exists (idOf v, v).
Qed.

End Linked.

(** X6. In a well-formed in-memory store [getPostsByTagId] returns exactly
    the posts of the store that some row links to the tag, and
    [getTagsByPostId] exactly the tags that some row links to the post,
    each once even when the pair is linked by several rows; so a post is
    among the posts of a tag exactly when the tag is among the tags of the
    post. *)
Theorem linked_rows_listed_once (s : MemStorage.t) :
  wellFormed s ->
  let linked p t :=
    exists pt, In pt (Js.values (MemStorage.postTags s))
               /\ PostTag.postId pt = p /\ PostTag.tagId pt = t in
  (forall t post,
     In post (MemStorage.getPostsByTagId t s)
     <-> MemStorage.getPostById (Post.id post) s = Some post
         /\ linked (Post.id post) t)
  /\ (forall p tag,
        In tag (MemStorage.getTagsByPostId p s)
        <-> MemStorage.getTagById (Tag.id tag) s = Some tag
            /\ linked p (Tag.id tag))
  /\ (forall t, NoDup (MemStorage.getPostsByTagId t s))
  /\ (forall p, NoDup (MemStorage.getTagsByPostId p s))
  /\ (forall post tag,
        MemStorage.getPostById (Post.id post) s = Some post ->
        MemStorage.getTagById (Tag.id tag) s = Some tag ->
        In post (MemStorage.getPostsByTagId (Tag.id tag) s)
        <-> In tag (MemStorage.getTagsByPostId (Post.id post) s)).
Proof.
  intros Hwf linked. pose proof Hwf as (_ & Hposts & Htags & _).
  assert (Hbytag : forall t post,
             In post (MemStorage.getPostsByTagId t s)
             <-> MemStorage.getPostById (Post.id post) s = Some post
                 /\ linked (Post.id post) t).
  { intros t post. unfold MemStorage.getPostsByTagId.
    rewrite (JsFacts.sort_In byPublishedAtDesc). unfold Js.filter at 1.
    rewrite filter_In, TagLinks.includes_true_iff, Linked.postIds_In.
    now rewrite (Linked.In_values_iff Post.id _ _ _ Hposts). }
  assert (Hbypost : forall p tag,
             In tag (MemStorage.getTagsByPostId p s)
             <-> MemStorage.getTagById (Tag.id tag) s = Some tag
                 /\ linked p (Tag.id tag)).
  { intros p tag. unfold MemStorage.getTagsByPostId. unfold Js.filter at 1.
    rewrite filter_In, TagLinks.includes_true_iff.
    fold (tagIdsOf p (Js.values (MemStorage.postTags s))).
    rewrite (TagLinks.tagIdsOf_In p (Tag.id tag)).
    now rewrite (Linked.In_values_iff Tag.id _ _ _ Htags). }
  split; [exact Hbytag|]. split; [exact Hbypost|]. split; [|split].
  - intros t. unfold MemStorage.getPostsByTagId.
    eapply Permutation_NoDup.
    + symmetry. apply (JsFacts.sort_perm byPublishedAtDesc).
    + apply NoDup_filter. now apply (Linked.values_NoDup Post.id _ _ Hposts).
  - intros p. apply NoDup_filter.
    now apply (Linked.values_NoDup Tag.id _ _ Htags).
  - intros post tag Hpost Htag. rewrite Hbytag, Hbypost. tauto.
Qed.

Lemma linked_rows_listed_once_witness :
  wellFormed Sample.mem
  /\ NoDup (MemStorage.getPostsByTagId 1 Sample.mem)
  /\ NoDup (MemStorage.getTagsByPostId 1 Sample.mem).
Proof.
  assert (Hwf : wellFormed Sample.mem).
  { exact (MemInvariant.new_wellFormed (fun _ => EmptyString)). }
  destruct (linked_rows_listed_once Sample.mem Hwf)
    as (_ & _ & Hposts & Htags & _).
  split; [exact Hwf|]. split; [apply Hposts | apply Htags].
Defined.

(* ================================================================= *)
(** ** Lookups by slug                                             *)
(* ================================================================= *)

Module BySlug.

Lemma find_app_one {A : Type} (f : A -> bool) (l : list A) (x : A) :
  Js.find f (l ++ [x])
  = match Js.find f l with
    | Some y => Some y
    | None => if f x then Some x else None
    end.
Proof.
  unfold Js.find. induction l as [|y l IH]; simpl; [reflexivity|].
  destruct (f y); [reflexivity | exact IH].
Qed.

Lemma post_after_create (s : MemStorage.t) (ins : InsertPost.t) :
  wellFormed s ->
  let out := MemStorage.createPost ins s in
  MemStorage.getPostBySlug (InsertPost.slug ins) (snd out)
  = match MemStorage.getPostBySlug (InsertPost.slug ins) s with
    | Some older => Some older
    | None => Some (fst out)
    end
  /\ forall slug, slug <> InsertPost.slug ins ->
                  MemStorage.getPostBySlug slug (snd out)
                  = MemStorage.getPostBySlug slug s.
Proof.
  intros (_ & Hposts & _) out. unfold MemStorage.getPostBySlug.
  replace (Js.values (MemStorage.posts (snd out)))
    with (Js.values (MemStorage.posts s) ++ [fst out])
    by (symmetry; apply (MemInvariant.values_set_next Post.id _ _ _ Hposts)).
  split.
  - rewrite find_app_one. simpl. now rewrite String.eqb_refl.
  - intros slug Hslug. rewrite find_app_one. simpl.
    destruct (String.eqb_spec (InsertPost.slug ins) slug) as [Heq|_];
      [congruence|].
    now destruct (Js.find _ _).
Qed.

Lemma tag_after_create (s : MemStorage.t) (ins : InsertTag.t) :
  wellFormed s ->
  let out := MemStorage.createTag ins s in
  MemStorage.getTagBySlug (InsertTag.slug ins) (snd out)
  = match MemStorage.getTagBySlug (InsertTag.slug ins) s with
    | Some older => Some older
    | None => Some (fst out)
    end
  /\ forall slug, slug <> InsertTag.slug ins ->
                  MemStorage.getTagBySlug slug (snd out)
                  = MemStorage.getTagBySlug slug s.
Proof.
  intros (_ & _ & Htags & _) out. unfold MemStorage.getTagBySlug.
  replace (Js.values (MemStorage.tags (snd out)))
    with (Js.values (MemStorage.tags s) ++ [fst out])
    by (symmetry; apply (MemInvariant.values_set_next Tag.id _ _ _ Htags)).
  split.
  - rewrite find_app_one. simpl. now rewrite String.eqb_refl.
  - intros slug Hslug. rewrite find_app_one. simpl.
    destruct (String.eqb_spec (InsertTag.slug ins) slug) as [Heq|_];
      [congruence|].
    now destruct (Js.find _ _).
Qed.

End BySlug.

(** X7. In a well-formed in-memory store, after [createPost] the lookup of
    the new post's slug returns the post that had the slug before, when
    there was one, and the new post otherwise; the lookup of any other
    slug answers as before.  The same holds of [createTag] and
    [getTagBySlug]. *)
Theorem slug_finds_oldest_row (s : MemStorage.t) :
  wellFormed s ->
  (forall ins,
     let out := MemStorage.createPost ins s in
     MemStorage.getPostBySlug (InsertPost.slug ins) (snd out)
     = match MemStorage.getPostBySlug (InsertPost.slug ins) s with
       | Some older => Some older
       | None => Some (fst out)
       end
     /\ forall slug, slug <> InsertPost.slug ins ->
                     MemStorage.getPostBySlug slug (snd out)
                     = MemStorage.getPostBySlug slug s)
  /\ (forall ins,
        let out := MemStorage.createTag ins s in
        MemStorage.getTagBySlug (InsertTag.slug ins) (snd out)
        = match MemStorage.getTagBySlug (InsertTag.slug ins) s with
          | Some older => Some older
          | None => Some (fst out)
          end
        /\ forall slug, slug <> InsertTag.slug ins ->
                        MemStorage.getTagBySlug slug (snd out)
                        = MemStorage.getTagBySlug slug s).
Proof.
  intros Hwf. split; intros ins.
  - now apply BySlug.post_after_create.
  - now apply BySlug.tag_after_create.
Qed.

Lemma slug_finds_oldest_row_witness :
  wellFormed Sample.mem
  /\ option_map Post.id
       (MemStorage.getPostBySlug
          "getting-started-with-nextjs-and-mdx"
          (snd (MemStorage.createPost Sample.post1 Sample.mem)))
     = Some 1
  /\ option_map Tag.id
       (MemStorage.getTagBySlug
          "testing"
          (snd (MemStorage.createTag (InsertTag.mk "Testing" "testing")
                                     Sample.mem)))
     = Some 15.
Proof.
  assert (Hwf : wellFormed Sample.mem).
  { exact (MemInvariant.new_wellFormed (fun _ => EmptyString)). }
  assert (Hold : option_map Post.id
                   (MemStorage.getPostBySlug
                      "getting-started-with-nextjs-and-mdx" Sample.mem)
                 = Some 1).
  { vm_compute. reflexivity. }
  assert (Hnew : MemStorage.getTagBySlug "testing" Sample.mem = None).
  { vm_compute. reflexivity. }
  assert (Hid : Tag.id (fst (MemStorage.createTag
                                (InsertTag.mk "Testing" "testing")
                                Sample.mem)) = 15).
  { vm_compute. reflexivity. }
  destruct (slug_finds_oldest_row Sample.mem Hwf) as [Hposts Htags].
  destruct (Hposts Sample.post1) as [Hpost _].
  destruct (Htags (InsertTag.mk "Testing" "testing")) as [Htag _].
  split; [exact Hwf|]. split.
  - change (InsertPost.slug Sample.post1)
      with "getting-started-with-nextjs-and-mdx"%string in Hpost.
    rewrite Hpost.
    set (found := MemStorage.getPostBySlug
                    "getting-started-with-nextjs-and-mdx" Sample.mem) in *.
    clearbody found. destruct found; [exact Hold | discriminate Hold].
  - change (InsertTag.slug (InsertTag.mk "Testing" "testing"))
      with "testing"%string in Htag.
    rewrite Htag, Hnew. cbn [option_map]. now rewrite Hid.
Defined.

(* ================================================================= *)
(** ** Every store reached from the constructed one                *)
(* ================================================================= *)

(** X8. Every store that calls of the interface make of the constructed
    in-memory store is well formed: a lookup by id returns a row of that
    id, below the counter, and no two rows of a map share an id. *)
Theorem reachable_stores_wellFormed (s : MemStorage.t) :
  reachable s ->
  wellFormed s
  /\ (forall id post, MemStorage.getPostById id s = Some post ->
                      Post.id post = id /\ id < MemStorage.currentPostId s)
  /\ (forall id tag, MemStorage.getTagById id s = Some tag ->
                     Tag.id tag = id /\ id < MemStorage.currentTagId s)
  /\ NoDup (map Post.id (Js.values (MemStorage.posts s)))
  /\ NoDup (map Tag.id (MemStorage.getAllTags s))
  /\ NoDup (map PostTag.id (Js.values (MemStorage.postTags s)))
  /\ NoDup (map Subscriber.id (MemStorage.getAllSubscribers s)).
Proof.
  intros Hreach.
  assert (Hwf : wellFormed s).
  { induction Hreach as [content|op s _ IH].
    - exact (MemInvariant.new_wellFormed content).
    - now apply MemStates.perform_wellFormed. }
  pose proof Hwf as (_ & Hposts & Htags & Hpts & Hsubs).
  assert (Hrow : forall (V : Type) (idOf : V -> Z) next (m : Js.Map V) k v,
             wf_map idOf next m -> Js.get k m = Some v ->
             idOf v = k /\ k < next).
  { intros V idOf next m k v Hm Hget.
    apply (MemInvariant.get_some_iff idOf _ _ _ _ Hm) in Hget.
    destruct Hm as [_ Hall]. rewrite Forall_forall in Hall.
    destruct (Hall _ Hget) as [Hid Hlt]. simpl in *. split; congruence. }
  split; [exact Hwf|]. repeat split.
  - now apply (Hrow _ _ _ _ _ _ Hposts).
  - now apply (Hrow _ _ _ _ _ _ Hposts H).
  - now apply (Hrow _ _ _ _ _ _ Htags).
  - now apply (Hrow _ _ _ _ _ _ Htags H).
  - now apply (LinkRows.ids_NoDup Post.id _ _ Hposts).
  - now apply (LinkRows.ids_NoDup Tag.id _ _ Htags).
  - now apply (LinkRows.ids_NoDup PostTag.id _ _ Hpts).
  - now apply (LinkRows.ids_NoDup Subscriber.id _ _ Hsubs).
Qed.

Lemma reachable_stores_wellFormed_witness :
  reachable (snd (Session.perform (Session.DeletePost 6) Sample.mem))
  /\ wellFormed (snd (Session.perform (Session.DeletePost 6) Sample.mem)).
Proof.
  assert (Hreach : reachable (snd (Session.perform (Session.DeletePost 6)
                                                   Sample.mem))).
  { apply reachable_call. exact (reachable_new (fun _ => EmptyString)). }
  split; [exact Hreach|].
  exact (proj1 (reachable_stores_wellFormed _ Hreach)).
Defined.

(* ================================================================= *)
(** ** Pages                                                       *)
(* ================================================================= *)

Module Paging.

Lemma firstn_add {A : Type} (a b : nat) (l : list A) :
  firstn (a + b) l = firstn a l ++ firstn b (skipn a l).
Proof.
  revert l. induction a as [|a IH]; intros l; simpl; [reflexivity|].
  destruct l as [|x l]; simpl.
  - now rewrite firstn_nil.
  - now rewrite IH.
Qed.

(** The first [n] chunks of [size] elements are the first [n * size]
    elements. *)
Lemma chunks_firstn {A : Type} (size n : nat) (l : list A) :
  List.concat (map (fun k => firstn size (skipn (k * size) l)) (seq 0 n))
  = firstn (n * size) l.
Proof.
  induction n as [|n IH]; [reflexivity|].
  rewrite seq_S, map_app, List.concat_app, IH. simpl.
  rewrite app_nil_r, (Nat.add_comm size), firstn_add. reflexivity.
Qed.

Lemma page_as_chunk (s : MemStorage.t) (limit : Z) (k : nat) :
  1 <= limit ->
  page_posts (MemStorage.getPaginatedPosts (Z.of_nat k + 1) limit s)
  = firstn (Z.to_nat limit)
           (skipn (k * Z.to_nat limit) (MemStorage.getAllPosts s)).
Proof.
  intros Hlimit. simpl. rewrite JsFacts.slice_window by nia.
  f_equal; [f_equal; nia | f_equal; nia].
Qed.

End Paging.

(** X9. For a page size of at least 1 the pages 1 to [totalPages] of the
    in-memory [getPaginatedPosts], one after the other, are [getAllPosts]:
    every page before the last holds [limit] posts, the last page is not
    empty when the store has posts, and every page after it is empty. *)
Theorem pages_partition_posts (s : MemStorage.t) (limit : Z) :
  1 <= limit ->
  let total := Js.size (MemStorage.posts s) in
  let pages := ceilDiv total limit in
  List.concat (pagesOf limit s) = MemStorage.getAllPosts s
  /\ (forall page, 1 <= page < pages ->
        Z.of_nat (List.length
                    (page_posts (MemStorage.getPaginatedPosts page limit s)))
        = limit)
  /\ (0 < total ->
      page_posts (MemStorage.getPaginatedPosts pages limit s) <> [])
  /\ (forall page, pages < page ->
        page_posts (MemStorage.getPaginatedPosts page limit s) = []).
Proof.
  intros Hlimit total pages.
  pose proof (MemRoutes.ceilDiv_bounds total limit ltac:(lia)) as Hceil.
  fold pages in Hceil.
  assert (Hlen : Z.of_nat (List.length (MemStorage.getAllPosts s)) = total).
  { apply MemFacts.getAllPosts_length. }
  assert (Htotal : 0 <= total) by (unfold total, Js.size; lia).
  assert (Hpages : 0 <= pages) by nia.
  assert (Hpage : forall page, 1 <= page ->
             page_posts (MemStorage.getPaginatedPosts page limit s)
             = firstn (Z.to_nat limit)
                 (skipn (Z.to_nat ((page - 1) * limit))
                        (MemStorage.getAllPosts s))).
  { intros page Hp. simpl. rewrite JsFacts.slice_window by nia.
    do 2 f_equal. lia. }
  split; [|split; [|split]].
  - unfold pagesOf. fold total. fold pages.
    erewrite map_ext; [|intros k; now apply Paging.page_as_chunk].
    rewrite Paging.chunks_firstn. apply firstn_all2. nia.
  - intros page Hp. rewrite Hpage by lia.
    rewrite length_firstn, length_skipn. nia.
  - intros Hsome Hnil.
    assert (H1 : 1 <= pages) by nia.
    rewrite Hpage in Hnil by lia.
    apply (f_equal (@List.length Post.t)) in Hnil.
    rewrite length_firstn, length_skipn in Hnil. simpl in Hnil. nia.
  - intros page Hp. rewrite Hpage by lia.
    rewrite skipn_all2; [apply firstn_nil | nia].
Qed.

Lemma pages_partition_posts_witness :
  1 <= 4
  /\ map (map Post.id) (pagesOf 4 Sample.mem) = [[1; 2; 3; 4]; [5; 6]]
  /\ List.concat (pagesOf 4 Sample.mem) = MemStorage.getAllPosts Sample.mem.
Proof.
  assert (Hlimit : 1 <= 4) by lia.
  split; [exact Hlimit|]. split; [vm_compute; reflexivity|].
  exact (proj1 (pages_partition_posts Sample.mem 4 Hlimit)).
Defined.

(* ================================================================= *)
(** ** The routes that answer with rows                            *)
(* ================================================================= *)

Module RowFacts.

Lemma post_route_mem (slug : string) (s : MemStorage.t) :
  RowRoutes.get_api_posts_slug slug s
  = match MemStorage.getPostBySlug slug s with
    | Some post => (mkResponse 200 (PostJson (tagged s post)), s)
    | None => (mkResponse 404 (MessageJson "Post not found"), s)
    end.
Proof.
  unfold RowRoutes.get_api_posts_slug, Routes.tryCatch.
  unfold bind at 1. cbn [getPostBySlug MemStorage_IStorage].
  unfold reads at 1.
  destruct (MemStorage.getPostBySlug slug s); reflexivity.
Qed.

Lemma post_route_db (slug : string) (d : DatabaseStorage.t) :
  RowRoutes.get_api_posts_slug slug d
  = match DatabaseStorage.first
            (List.filter (fun p => String.eqb (Post.slug p) slug)
                         (DatabaseStorage.posts d)) with
    | Some post =>
        match fst (DatabaseStorage.getTagsByPostId (Post.id post) d) with
        | Resolved tags =>
            (mkResponse 200 (PostJson (PostWithTags.mk post tags)), d)
        | Rejected _ =>
            (mkResponse 500 (MessageJson "Error fetching post"), d)
        end
    | None => (mkResponse 404 (MessageJson "Post not found"), d)
    end.
Proof.
  unfold RowRoutes.get_api_posts_slug, Routes.tryCatch.
  unfold bind at 1. cbn [getPostBySlug DatabaseStorage_IStorage].
  unfold DatabaseStorage.getPostBySlug, reads at 1.
  destruct (DatabaseStorage.first _); reflexivity.
Qed.

Lemma find_some_first {A : Type} (p : A -> bool) (l : list A) (x : A) :
  Js.find p l = Some x -> In x l /\ p x = true.
Proof. unfold Js.find. apply find_some. Qed.

End RowFacts.

(** X10. [GET /api/posts/:slug], over either store: when no post has the
    slug it answers 404 "Post not found"; when a post has it, it answers
    200 with a post of that slug and the tags [getTagsByPostId] returns
    for it; the store is unchanged. *)
Theorem post_by_slug_route (slug : string) :
  (forall s : MemStorage.t,
     ((forall p, In p (Js.values (MemStorage.posts s)) -> Post.slug p <> slug) ->
      RowRoutes.get_api_posts_slug slug s
      = (mkResponse 404 (MessageJson "Post not found"), s))
     /\ ((exists p, In p (Js.values (MemStorage.posts s))
                    /\ Post.slug p = slug) ->
         exists post,
           In post (Js.values (MemStorage.posts s))
           /\ Post.slug post = slug
           /\ RowRoutes.get_api_posts_slug slug s
              = (mkResponse 200
                   (PostJson
                      (PostWithTags.mk
                         post (MemStorage.getTagsByPostId (Post.id post) s))),
                 s)))
  /\ (forall d : DatabaseStorage.t,
        ((forall p, In p (DatabaseStorage.posts d) -> Post.slug p <> slug) ->
         RowRoutes.get_api_posts_slug slug d
         = (mkResponse 404 (MessageJson "Post not found"), d))
        /\ ((exists p, In p (DatabaseStorage.posts d) /\ Post.slug p = slug) ->
            exists post tags,
              In post (DatabaseStorage.posts d)
              /\ Post.slug post = slug
              /\ DatabaseStorage.getTagsByPostId (Post.id post) d
                 = (Resolved tags, d)
              /\ RowRoutes.get_api_posts_slug slug d
                 = (mkResponse 200 (PostJson (PostWithTags.mk post tags)),
                    d))).
Proof.
  split.
  - intros s. rewrite RowFacts.post_route_mem. split.
    + intros Hfresh.
      assert (Hnone : MemStorage.getPostBySlug slug s = None).
      { apply MemLookup.find_none_iff. intros p Hp.
        apply String.eqb_neq. now apply Hfresh. }
      now rewrite Hnone.
    + intros (p & Hin & Hslug).
      destruct (Subscribe.find_some_of_In
                  (fun x => String.eqb (Post.slug x) slug) _ p Hin)
        as [post Hpost]; [now apply String.eqb_eq|].
      unfold MemStorage.getPostBySlug. rewrite Hpost.
      apply RowFacts.find_some_first in Hpost as [Hpin Hpslug].
      apply String.eqb_eq in Hpslug. now exists post.
  - intros d. rewrite RowFacts.post_route_db.
    pose proof (Subscribe.first_filter_existsb
                  (fun p => String.eqb (Post.slug p) slug)
                  (DatabaseStorage.posts d)) as Hfirst.
    split.
    + intros Hfresh. destruct (DatabaseStorage.first _) as [post|];
        [|reflexivity].
      destruct Hfirst as (Hin & Hslug & _). apply String.eqb_eq in Hslug.
      now destruct (Hfresh post Hin).
    + intros (p & Hin & Hslug).
      destruct (DatabaseStorage.first _) as [post|].
      * destruct Hfirst as (Hpin & Hpslug & _).
        apply String.eqb_eq in Hpslug.
        exists post. eexists. repeat split; try eassumption; reflexivity.
      * exfalso.
        assert (Hex : existsb (fun p => String.eqb (Post.slug p) slug)
                              (DatabaseStorage.posts d) = true).
        { apply existsb_exists. exists p. split; [assumption|].
          now apply String.eqb_eq. }
        congruence.
Qed.

Module TagRouteFacts.

Lemma tag_route_mem (slug : string) (s : MemStorage.t) :
  RowRoutes.get_api_tags_slug slug s
  = match MemStorage.getTagBySlug slug s with
    | Some tag => (RowRoutes.mkReply 200 (RowRoutes.Value tag), s)
    | None => (RowRoutes.mkReply 404 (RowRoutes.Message "Tag not found"), s)
    end.
Proof.
  unfold RowRoutes.get_api_tags_slug, RowRoutes.tryCatch.
  unfold bind at 1. cbn [getTagBySlug MemStorage_IStorage].
  unfold reads at 1.
  destruct (MemStorage.getTagBySlug slug s); reflexivity.
Qed.

Lemma tag_route_db (slug : string) (d : DatabaseStorage.t) :
  RowRoutes.get_api_tags_slug slug d
  = match DatabaseStorage.first
            (List.filter (fun g => String.eqb (Tag.slug g) slug)
                         (DatabaseStorage.tags d)) with
    | Some tag => (RowRoutes.mkReply 200 (RowRoutes.Value tag), d)
    | None => (RowRoutes.mkReply 404 (RowRoutes.Message "Tag not found"), d)
    end.
Proof.
  unfold RowRoutes.get_api_tags_slug, RowRoutes.tryCatch.
  unfold bind at 1. cbn [getTagBySlug DatabaseStorage_IStorage].
  unfold DatabaseStorage.getTagBySlug, reads at 1.
  destruct (DatabaseStorage.first _); reflexivity.
Qed.

Lemma first_filter_app_one {A : Type} (f : A -> bool) (l : list A) (x : A) :
  DatabaseStorage.first (List.filter f (l ++ [x]))
  = match DatabaseStorage.first (List.filter f l) with
    | Some y => Some y
    | None => if f x then Some x else None
    end.
Proof.
  rewrite <- !Tables.find_as_first. apply BySlug.find_app_one.
Qed.

Lemma create_route_db (ins : InsertTag.t) (d : DatabaseStorage.t) :
  RowRoutes.post_api_tags (Valid ins) d
  = match DatabaseStorage.createTag ins d with
    | (Resolved tag, d') =>
        (RowRoutes.mkReply 201 (RowRoutes.Value tag), d')
    | (Rejected _, d') =>
        (RowRoutes.mkReply 500 (RowRoutes.Message "Error creating tag"), d')
    end.
Proof.
  unfold RowRoutes.post_api_tags, RowRoutes.tryCatch, bind.
  cbn [createTag DatabaseStorage_IStorage].
  now destruct (DatabaseStorage.createTag ins d) as [[tag|e] d'].
Qed.

End TagRouteFacts.

(** X11. Over a well-formed in-memory store, for a tag whose slug no tag
    has: [GET /api/tags/:slug] answers 404 "Tag not found";
    [POST /api/tags] answers 201 with the tag under the next id; after it
    [GET /api/tags/:slug] answers 200 with that tag and [GET /api/tags]
    lists it after the tags that were there.  A body that fails validation
    is answered with 400 and the message, the store unchanged. *)
Theorem tag_routes_mem (s : MemStorage.t) (ins : InsertTag.t) :
  wellFormed s ->
  (forall g, In g (MemStorage.getAllTags s) -> Tag.slug g <> InsertTag.slug ins) ->
  let tag := tag_of ins (MemStorage.currentTagId s) in
  let out := RowRoutes.post_api_tags (Valid ins) s in
  RowRoutes.get_api_tags_slug (InsertTag.slug ins) s
  = (RowRoutes.mkReply 404 (RowRoutes.Message "Tag not found"), s)
  /\ fst out = RowRoutes.mkReply 201 (RowRoutes.Value tag)
  /\ RowRoutes.get_api_tags_slug (InsertTag.slug ins) (snd out)
     = (RowRoutes.mkReply 200 (RowRoutes.Value tag), snd out)
  /\ RowRoutes.get_api_tags (snd out)
     = (RowRoutes.mkReply 200
          (RowRoutes.Value (MemStorage.getAllTags s ++ [tag])), snd out)
  /\ (forall message,
        RowRoutes.post_api_tags (ZodError message) s
        = (RowRoutes.mkReply 400 (RowRoutes.Message message), s)).
Proof.
  intros Hwf Hfresh tag out. pose proof Hwf as (_ & _ & Htags & _).
  assert (Hnone : MemStorage.getTagBySlug (InsertTag.slug ins) s = None).
  { apply MemLookup.find_none_iff. intros g Hg.
    apply String.eqb_neq. now apply Hfresh. }
  assert (Hout : out = (RowRoutes.mkReply 201 (RowRoutes.Value tag),
                        snd (MemStorage.createTag ins s))).
  { reflexivity. }
  assert (Hall : MemStorage.getAllTags (snd out)
                 = MemStorage.getAllTags s ++ [tag]).
  { rewrite Hout. apply (MemInvariant.values_set_next Tag.id _ _ _ Htags). }
  split; [|split; [|split; [|split]]].
  - rewrite TagRouteFacts.tag_route_mem. now rewrite Hnone.
  - now rewrite Hout.
  - rewrite TagRouteFacts.tag_route_mem.
    destruct (BySlug.tag_after_create s ins Hwf) as [Hfound _].
    rewrite Hout. cbn [snd]. rewrite Hfound, Hnone. reflexivity.
  - unfold RowRoutes.get_api_tags, RowRoutes.tryCatch.
    unfold bind at 1. cbn [getAllTags MemStorage_IStorage].
    unfold reads at 1. unfold ret. now rewrite Hall.
  - reflexivity.
Qed.

Lemma tag_routes_mem_witness :
  let ins := InsertTag.mk "Testing" "testing" in
  let out := RowRoutes.post_api_tags (Valid ins) Sample.mem in
  wellFormed Sample.mem
  /\ (forall g, In g (MemStorage.getAllTags Sample.mem) ->
                Tag.slug g <> "testing"%string)
  /\ fst out
     = RowRoutes.mkReply 201 (RowRoutes.Value (Tag.mk 15 "Testing" "testing"))
  /\ fst (RowRoutes.get_api_tags_slug "testing" (snd out))
     = RowRoutes.mkReply 200 (RowRoutes.Value (Tag.mk 15 "Testing" "testing")).
Proof.
  intros ins out.
  assert (Hwf : wellFormed Sample.mem).
  { exact (MemInvariant.new_wellFormed (fun _ => EmptyString)). }
  assert (Hcheck : forallb (fun g => negb (String.eqb (Tag.slug g) "testing"))
                           (MemStorage.getAllTags Sample.mem) = true).
  { vm_compute. reflexivity. }
  assert (Hfresh : forall g, In g (MemStorage.getAllTags Sample.mem) ->
                             Tag.slug g <> InsertTag.slug ins).
  { intros g Hg Heq.
    pose proof (proj1 (forallb_forall _ _) Hcheck g Hg) as Hmiss.
    cbn beta in Hmiss. apply negb_true_iff, String.eqb_neq in Hmiss.
    apply Hmiss. exact Heq. }
  assert (Hid : tag_of ins (MemStorage.currentTagId Sample.mem)
                = Tag.mk 15 "Testing" "testing").
  { vm_compute. reflexivity. }
  destruct (tag_routes_mem Sample.mem ins Hwf Hfresh)
    as (_ & Hcreated & Hfound & _).
  split; [exact Hwf|]. split; [exact Hfresh|].
  rewrite <- Hid. split; [exact Hcreated|].
  fold out in Hfound.
  change (InsertTag.slug ins) with "testing"%string in Hfound.
  rewrite Hfound. reflexivity.
Defined.

(** X12. [POST /api/tags] over the persistent store answers 500 "Error
    creating tag", the table unchanged, when the name or the slug is taken
    (the unique constraints of the schema), and otherwise 201 with the tag
    under the next id of the sequence, appended to the table; the tag is
    then found by [GET /api/tags/:slug] and listed last by
    [GET /api/tags], and the same request again answers 500. *)
Theorem tag_creation_route_db (d : DatabaseStorage.t) (ins : InsertTag.t) :
  let tag := tag_of ins (DatabaseStorage.tags_id_seq d) in
  let out := RowRoutes.post_api_tags (Valid ins) d in
  ((Constraint.tag_name_taken d (InsertTag.name ins)
    \/ Constraint.tag_slug_taken d (InsertTag.slug ins)) ->
   fst out = RowRoutes.mkReply 500 (RowRoutes.Message "Error creating tag")
   /\ DatabaseStorage.tags (snd out) = DatabaseStorage.tags d)
  /\ (~ Constraint.tag_name_taken d (InsertTag.name ins) ->
      ~ Constraint.tag_slug_taken d (InsertTag.slug ins) ->
      fst out = RowRoutes.mkReply 201 (RowRoutes.Value tag)
      /\ DatabaseStorage.tags (snd out) = DatabaseStorage.tags d ++ [tag]
      /\ RowRoutes.get_api_tags_slug (InsertTag.slug ins) (snd out)
         = (RowRoutes.mkReply 200 (RowRoutes.Value tag), snd out)
      /\ RowRoutes.get_api_tags (snd out)
         = (RowRoutes.mkReply 200
              (RowRoutes.Value (DatabaseStorage.tags d ++ [tag])), snd out)
      /\ fst (RowRoutes.post_api_tags (Valid ins) (snd out))
         = RowRoutes.mkReply 500 (RowRoutes.Message "Error creating tag")).
Proof.
  intros tag out. subst out. rewrite TagRouteFacts.create_route_db.
  unfold Constraint.tag_name_taken, Constraint.tag_slug_taken.
  rewrite <- !(Creation.taken_iff Tag.name), <- !(Creation.taken_iff Tag.slug).
  destruct (existsb (fun g => String.eqb (Tag.name g) (InsertTag.name ins))
                    (DatabaseStorage.tags d)) eqn:Hname;
    [|destruct (existsb (fun g => String.eqb (Tag.slug g)
                                             (InsertTag.slug ins))
                        (DatabaseStorage.tags d)) eqn:Hslug].
  - assert (Hcreate : exists e d',
               DatabaseStorage.createTag ins d = (Rejected e, d')
               /\ DatabaseStorage.tags d' = DatabaseStorage.tags d).
    { unfold DatabaseStorage.createTag. rewrite Hname.
      do 2 eexists. split; reflexivity. }
    destruct Hcreate as (e & d' & -> & Htags).
    split; [intros _; now split | intros Habs; now destruct Habs].
  - assert (Hcreate : exists e d',
               DatabaseStorage.createTag ins d = (Rejected e, d')
               /\ DatabaseStorage.tags d' = DatabaseStorage.tags d).
    { unfold DatabaseStorage.createTag. rewrite Hname, Hslug.
      do 2 eexists. split; reflexivity. }
    destruct Hcreate as (e & d' & -> & Htags).
    split; [intros _; now split | intros _ Habs; now destruct Habs].
  - assert (Hcreate : exists d',
               DatabaseStorage.createTag ins d = (Resolved tag, d')
               /\ DatabaseStorage.tags d' = DatabaseStorage.tags d ++ [tag]).
    { unfold DatabaseStorage.createTag. rewrite Hname, Hslug.
      eexists. split; reflexivity. }
    destruct Hcreate as (d' & -> & Htags).
    split; [intros [Habs|Habs]; discriminate Habs|].
    intros _ _. cbn [fst snd].
    split; [reflexivity|]. split; [exact Htags|].
    split; [|split].
    + rewrite TagRouteFacts.tag_route_db, Htags.
      rewrite TagRouteFacts.first_filter_app_one.
      pose proof (Subscribe.first_filter_existsb
                    (fun g => String.eqb (Tag.slug g) (InsertTag.slug ins))
                    (DatabaseStorage.tags d)) as Hfirst.
      destruct (DatabaseStorage.first _) as [old|].
      * destruct Hfirst as (_ & _ & Hex). congruence.
      * simpl. now rewrite String.eqb_refl.
    + unfold RowRoutes.get_api_tags, RowRoutes.tryCatch, bind.
      cbn [getAllTags DatabaseStorage_IStorage].
      unfold DatabaseStorage.getAllTags, reads, ret. now rewrite Htags.
    + rewrite TagRouteFacts.create_route_db.
      unfold DatabaseStorage.createTag. rewrite Htags, existsb_app. simpl.
      rewrite String.eqb_refl, orb_true_r. reflexivity.
Qed.

(* ================================================================= *)
(** ** Posts of a tag                                              *)
(* ================================================================= *)

Module TagPosts.

Lemma innerJoin_In {A B : Type} (on : A -> B -> bool) (a : list A)
      (b : list B) (x : A) (y : B) :
  In (x, y) (DatabaseStorage.innerJoin on a b)
  <-> In x a /\ In y b /\ on x y = true.
Proof.
  unfold DatabaseStorage.innerJoin. rewrite in_flat_map. split.
  - intros (x' & Hx & Hin). apply in_map_iff in Hin as (y' & [= <- <-] & Hy).
    apply filter_In in Hy. tauto.
  - intros (Hx & Hy & Hon). exists x. split; [assumption|].
    apply in_map. apply filter_In. now split.
Qed.

Lemma tag_posts_route_mem (slug : string) (s : MemStorage.t) :
  Routes.get_api_tags_slug_posts slug s
  = (mkResponse 200
       (PostListJson (map (tagged s) (MemStorage.getPostsByTagSlug slug s))),
     s).
Proof.
  unfold Routes.get_api_tags_slug_posts, Routes.tryCatch.
  unfold bind at 1. cbn [getPostsByTagSlug MemStorage_IStorage].
  unfold reads at 1. unfold bind at 1.
  rewrite MemRoutes.withTags_resolves. reflexivity.
Qed.

(** The posts the database lists for a tag and the tags it lists for a
    post, by the rows that link them. *)
Lemma db_posts_In (d : DatabaseStorage.t) (t : Z) (post : Post.t) :
  (exists ps, DatabaseStorage.getPostsByTagId t d = (Resolved ps, d)
              /\ (In post ps
                  <-> In post (DatabaseStorage.posts d)
                      /\ exists pt, In pt (DatabaseStorage.postTags d)
                                    /\ PostTag.postId pt = Post.id post
                                    /\ PostTag.tagId pt = t)).
Proof.
  eexists. split; [reflexivity|].
  rewrite (Tables.sort_fst DatabaseStorage.descPublishedAt).
  rewrite (JsFacts.sort_In DatabaseStorage.descPublishedAt), in_map_iff. split.
  - intros ([p pt] & Hp & Hin). simpl in Hp. subst p.
    apply filter_In in Hin as [Hin Ht]. apply innerJoin_In in Hin
      as (Hpin & Hptin & Hon).
    apply Z.eqb_eq in Ht, Hon. simpl in Ht. split; [assumption|].
    exists pt. auto.
  - intros (Hpin & pt & Hptin & Hp & Ht). exists (post, pt).
    split; [reflexivity|]. apply filter_In. split.
    + apply innerJoin_In. repeat split; try assumption.
      apply Z.eqb_eq. now symmetry.
    + now apply Z.eqb_eq.
Qed.

Lemma db_tags_In (d : DatabaseStorage.t) (p : Z) (tag : Tag.t) :
  (exists gs, DatabaseStorage.getTagsByPostId p d = (Resolved gs, d)
              /\ (In tag gs
                  <-> In tag (DatabaseStorage.tags d)
                      /\ exists pt, In pt (DatabaseStorage.postTags d)
                                    /\ PostTag.postId pt = p
                                    /\ PostTag.tagId pt = Tag.id tag)).
Proof.
  eexists. split; [reflexivity|].
  rewrite in_map_iff. split.
  - intros ([g pt] & Hg & Hin). simpl in Hg. subst g.
    apply filter_In in Hin as [Hin Hp]. apply innerJoin_In in Hin
      as (Hgin & Hptin & Hon).
    apply Z.eqb_eq in Hp, Hon. simpl in Hp. split; [assumption|].
    exists pt. auto.
  - intros (Hgin & pt & Hptin & Hp & Ht). exists (tag, pt).
    split; [reflexivity|]. apply filter_In. split.
    + apply innerJoin_In. repeat split; try assumption.
      apply Z.eqb_eq. now symmetry.
    + now apply Z.eqb_eq.
Qed.

End TagPosts.

(** X13. [GET /api/tags/:slug/posts] over the in-memory store, for the
    slug of a tag: it answers 200 with the posts of [getPostsByTagId] for
    that tag, each with its tags, the requested tag among them; and every
    post of the store that a row links to the tag is in the answer. *)
Theorem posts_of_known_tag_carry_it (s : MemStorage.t) (slug : string)
        (tag : Tag.t) :
  MemStorage.getTagBySlug slug s = Some tag ->
  let posts := MemStorage.getPostsByTagId (Tag.id tag) s in
  Tag.slug tag = slug
  /\ Routes.get_api_tags_slug_posts slug s
     = (mkResponse 200 (PostListJson (map (tagged s) posts)), s)
  /\ (forall entry, In entry (map (tagged s) posts) ->
                    In tag (PostWithTags.tags entry))
  /\ (forall post,
        In post (Js.values (MemStorage.posts s)) ->
        (exists pt, In pt (Js.values (MemStorage.postTags s))
                    /\ PostTag.postId pt = Post.id post
                    /\ PostTag.tagId pt = Tag.id tag) ->
        In post posts).
Proof.
  intros Htag posts.
  pose proof (RowFacts.find_some_first _ _ _ Htag) as [Hin Hslug].
  apply String.eqb_eq in Hslug.
  split; [exact Hslug|]. split; [|split].
  - rewrite TagPosts.tag_posts_route_mem. unfold MemStorage.getPostsByTagSlug.
    now rewrite Htag.
  - intros entry Hentry. apply in_map_iff in Hentry as (post & <- & Hpost).
    unfold tagged. cbn [PostWithTags.tags].
    unfold posts, MemStorage.getPostsByTagId in Hpost.
    apply (proj1 (JsFacts.sort_In byPublishedAtDesc _ _)) in Hpost.
    unfold Js.filter at 1 in Hpost. apply filter_In in Hpost as [_ Hinc].
    apply TagLinks.includes_true_iff, Linked.postIds_In in Hinc
      as (pt & Hpt & Hp & Ht).
    unfold MemStorage.getTagsByPostId, Js.filter at 1.
    apply filter_In. split; [exact Hin|].
    apply TagLinks.includes_true_iff.
    apply (TagLinks.tagIdsOf_In (Post.id post) (Tag.id tag)). eauto.
  - intros post Hpost (pt & Hpt & Hp & Ht).
    unfold posts, MemStorage.getPostsByTagId.
    apply (proj2 (JsFacts.sort_In byPublishedAtDesc _ _)).
    unfold Js.filter at 1. apply filter_In. split; [exact Hpost|].
    apply TagLinks.includes_true_iff, Linked.postIds_In. eauto.
Qed.

Lemma posts_of_known_tag_carry_it_witness :
  MemStorage.getTagBySlug "nextjs" Sample.mem
  = Some (Tag.mk 1 "Next.js" "nextjs")
  /\ map Post.id (MemStorage.getPostsByTagId 1 Sample.mem) = [1; 2; 4]
  /\ (forall entry,
        In entry (map (tagged Sample.mem)
                      (MemStorage.getPostsByTagId 1 Sample.mem)) ->
        In (Tag.mk 1 "Next.js" "nextjs") (PostWithTags.tags entry)).
Proof.
  assert (Htag : MemStorage.getTagBySlug "nextjs" Sample.mem
                 = Some (Tag.mk 1 "Next.js" "nextjs")).
  { vm_compute. reflexivity. }
  split; [exact Htag|]. split; [vm_compute; reflexivity|].
  exact (proj1 (proj2 (proj2 (posts_of_known_tag_carry_it
                                Sample.mem "nextjs" _ Htag)))).
Defined.

(* ================================================================= *)
(** ** Links in the persistent store                               *)
(* ================================================================= *)

(** X14. In the persistent store [getPostsByTagId] resolves with posts
    of the table that a row links to the tag, and with every such post;
    [getTagsByPostId] likewise for the tags of a post; so a post of the
    table is among the posts of a tag of the table exactly when the tag is
    among the tags of the post. *)
Theorem persistent_links_listed (d : DatabaseStorage.t) :
  let linked p t :=
    exists pt, In pt (DatabaseStorage.postTags d)
               /\ PostTag.postId pt = p /\ PostTag.tagId pt = t in
  (forall t, exists ps,
      DatabaseStorage.getPostsByTagId t d = (Resolved ps, d)
      /\ forall post, In post ps
                      <-> In post (DatabaseStorage.posts d)
                          /\ linked (Post.id post) t)
  /\ (forall p, exists gs,
        DatabaseStorage.getTagsByPostId p d = (Resolved gs, d)
        /\ forall tag, In tag gs
                       <-> In tag (DatabaseStorage.tags d)
                           /\ linked p (Tag.id tag))
  /\ (forall post tag ps gs,
        In post (DatabaseStorage.posts d) ->
        In tag (DatabaseStorage.tags d) ->
        DatabaseStorage.getPostsByTagId (Tag.id tag) d = (Resolved ps, d) ->
        DatabaseStorage.getTagsByPostId (Post.id post) d = (Resolved gs, d) ->
        In post ps <-> In tag gs).
Proof.
  intros linked.
  assert (Hposts : forall t, exists ps,
             DatabaseStorage.getPostsByTagId t d = (Resolved ps, d)
             /\ forall post, In post ps
                             <-> In post (DatabaseStorage.posts d)
                                 /\ linked (Post.id post) t).
  { intros t. eexists. split; [reflexivity|]. intros post.
    destruct (TagPosts.db_posts_In d t post) as (ps & [= <-] & Hiff).
    exact Hiff. }
  assert (Htags : forall p, exists gs,
             DatabaseStorage.getTagsByPostId p d = (Resolved gs, d)
             /\ forall tag, In tag gs
                            <-> In tag (DatabaseStorage.tags d)
                                /\ linked p (Tag.id tag)).
  { intros p. eexists. split; [reflexivity|]. intros tag.
    destruct (TagPosts.db_tags_In d p tag) as (gs & [= <-] & Hiff).
    exact Hiff. }
  split; [exact Hposts|]. split; [exact Htags|].
  intros post tag ps gs Hpost Htag Hps Hgs.
  destruct (Hposts (Tag.id tag)) as (ps' & Hps' & Hpiff).
  destruct (Htags (Post.id post)) as (gs' & Hgs' & Hgiff).
  assert (ps' = ps) by congruence. assert (gs' = gs) by congruence.
  subst ps' gs'. rewrite Hpiff, Hgiff. tauto.
Qed.

Module DbLinks.

Lemma exists_as_In {A : Type} (idOf : A -> Z) (k : Z) (l : list A) :
  existsb (fun x => idOf x =? k) l = true <-> exists x, In x l /\ idOf x = k.
Proof.
  rewrite existsb_exists. split; intros (x & Hx & Heq); exists x;
    (split; [assumption|]); now apply Z.eqb_eq.
Qed.

End DbLinks.

(** X15. In the persistent store, for a post and a tag of the tables:
    [addTagToPost] resolves with the row under the next id of the
    sequence and appends it, [getTagsByPostId] then lists the tag, a
    following [removeTagFromPost] resolves with [true] and deletes every
    row of the pair, however many there were, after which
    [getTagsByPostId] lists no tag of that id and a second
    [removeTagFromPost] resolves with [false]. *)
Theorem persistent_tag_added_then_removed (d : DatabaseStorage.t) (p t : Z)
        (tag : Tag.t) :
  DatabaseStorage.post_exists d p = true ->
  In tag (DatabaseStorage.tags d) -> Tag.id tag = t ->
  exists row d1 gs d2 gs',
    DatabaseStorage.addTagToPost (InsertPostTag.mk p t) d = (Resolved row, d1)
    /\ row = PostTag.mk (DatabaseStorage.post_tags_id_seq d) p t
    /\ DatabaseStorage.postTags d1 = DatabaseStorage.postTags d ++ [row]
    /\ DatabaseStorage.getTagsByPostId p d1 = (Resolved gs, d1)
    /\ In tag gs
    /\ DatabaseStorage.removeTagFromPost p t d1 = (Resolved true, d2)
    /\ (forall pt, In pt (DatabaseStorage.postTags d2) ->
                   ~ (PostTag.postId pt = p /\ PostTag.tagId pt = t))
    /\ DatabaseStorage.getTagsByPostId p d2 = (Resolved gs', d2)
    /\ (forall g, In g gs' -> Tag.id g <> t)
    /\ DatabaseStorage.removeTagFromPost p t d2 = (Resolved false, d2).
Proof.
  intros Hpost Htag Hid.
  assert (Htagb : DatabaseStorage.tag_exists d t = true).
  { apply DbLinks.exists_as_In. eauto. }
  set (row := PostTag.mk (DatabaseStorage.post_tags_id_seq d) p t).
  set (d1 := DatabaseStorage.with_postTags
               d (DatabaseStorage.postTags d ++ [row])
               (DatabaseStorage.post_tags_id_seq d + 1)).
  assert (Hadd : DatabaseStorage.addTagToPost (InsertPostTag.mk p t) d
                 = (Resolved row, d1)).
  { unfold DatabaseStorage.addTagToPost. cbn [InsertPostTag.postId
      InsertPostTag.tagId]. now rewrite Hpost, Htagb. }
  destruct (TagPosts.db_tags_In d1 p tag) as (gs & Hgs & Hgiff).
  set (hit := fun pt => (PostTag.postId pt =? p) && (PostTag.tagId pt =? t)).
  set (d2 := DatabaseStorage.with_postTags
               d1 (List.filter (fun pt => negb (hit pt))
                               (DatabaseStorage.postTags d1))
               (DatabaseStorage.post_tags_id_seq d1)).
  assert (Hgone : forall pt, In pt (DatabaseStorage.postTags d2) ->
                             ~ (PostTag.postId pt = p /\ PostTag.tagId pt = t)).
  { intros pt Hin [Hp Ht]. unfold d2 in Hin. simpl in Hin.
    apply filter_In in Hin as [_ Hmiss]. unfold hit in Hmiss.
    rewrite Hp, Ht, !Z.eqb_refl in Hmiss. discriminate. }
  destruct (TagPosts.db_tags_In d2 p tag) as (gs' & Hgs' & _).
  exists row, d1, gs, d2, gs'.
  split; [exact Hadd|]. split; [reflexivity|]. split; [reflexivity|].
  split; [exact Hgs|]. split; [|split; [|split; [|split; [|split]]]].
  - apply Hgiff. split; [exact Htag|]. exists row. split; [|now split].
    simpl. apply in_or_app. right. now left.
  - unfold DatabaseStorage.removeTagFromPost. fold hit. fold d2.
    do 2 f_equal. apply Z.ltb_lt.
    assert (Hin : In row (List.filter hit (DatabaseStorage.postTags d1))).
    { apply filter_In. split.
      - simpl. apply in_or_app. right. now left.
      - unfold hit. simpl. now rewrite !Z.eqb_refl. }
    destruct (List.filter hit (DatabaseStorage.postTags d1));
      [contradiction | simpl; lia].
  - exact Hgone.
  - exact Hgs'.
  - intros g Hg Heq.
    destruct (TagPosts.db_tags_In d2 p g) as (gs2 & Hgs2 & Hiff).
    assert (gs2 = gs') by congruence. subst gs2.
    apply Hiff in Hg as (_ & pt & Hin & Hp & Ht).
    apply (Hgone pt Hin). split; congruence.
  - assert (Hnone : List.filter hit (DatabaseStorage.postTags d2) = []).
    { apply DbRoutes.filter_none. intros pt Hin. unfold hit.
      destruct (Z.eqb_spec (PostTag.postId pt) p) as [Hp|_]; [|reflexivity].
      destruct (Z.eqb_spec (PostTag.tagId pt) t) as [Ht|_]; [|reflexivity].
      now destruct (Hgone pt Hin). }
    assert (Hall : List.filter
                     (fun pt => negb ((PostTag.postId pt =? p)
                                      && (PostTag.tagId pt =? t)))
                     (DatabaseStorage.postTags d2)
                   = DatabaseStorage.postTags d2).
    { apply Writes.filter_all. intros pt Hin. apply negb_true_iff.
      fold (hit pt). destruct (hit pt) eqn:Hhit; [|reflexivity].
      assert (H0 : In pt (List.filter hit (DatabaseStorage.postTags d2))).
      { apply filter_In. now split. }
      rewrite Hnone in H0. destruct H0. }
    unfold DatabaseStorage.removeTagFromPost. cbv zeta. fold hit.
    rewrite Hnone, Hall. reflexivity.
Qed.

Lemma persistent_tag_added_then_removed_witness :
  DatabaseStorage.post_exists Sample.db 5 = true
  /\ In (Tag.mk 1 "Next.js" "nextjs") (DatabaseStorage.tags Sample.db)
  /\ exists d1 d2 gs',
       snd (DatabaseStorage.addTagToPost (InsertPostTag.mk 5 1) Sample.db) = d1
       /\ DatabaseStorage.removeTagFromPost 5 1 d1 = (Resolved true, d2)
       /\ DatabaseStorage.getTagsByPostId 5 d2 = (Resolved gs', d2)
       /\ forall g, In g gs' -> Tag.id g <> 1.
Proof.
  assert (Hpost : DatabaseStorage.post_exists Sample.db 5 = true).
  { reflexivity. }
  assert (Htag : In (Tag.mk 1 "Next.js" "nextjs")
                    (DatabaseStorage.tags Sample.db)).
  { now left. }
  split; [exact Hpost|]. split; [exact Htag|].
  destruct (persistent_tag_added_then_removed
              Sample.db 5 1 (Tag.mk 1 "Next.js" "nextjs") Hpost Htag eq_refl)
    as (row & d1 & gs & d2 & gs' & Hadd & _ & _ & _ & _ & Hremove & _ & Hgs'
        & Hgone & _).
  exists d1, d2, gs'. rewrite Hadd. repeat split; assumption.
Defined.

(* ================================================================= *)
(** ** Seeding the database                                        *)
(* ================================================================= *)

Module Seeding.

Import DatabaseStorage.

Lemma bind_keepsUsers {A B : Type} (m : Async t A) (k : A -> Async t B) :
  keepsUsers m -> (forall a, keepsUsers (k a)) -> keepsUsers (bind m k).
Proof.
  intros Hm Hk d. unfold bind. specialize (Hm d).
  destruct (m d) as [[a|e] d1]; simpl in *.
  - now rewrite Hk.
  - exact Hm.
Qed.

Lemma ret_keepsUsers {A : Type} (a : A) : keepsUsers (ret a).
Proof. intros d. reflexivity. Qed.

Lemma createTag_keepsUsers (ins : InsertTag.t) : keepsUsers (createTag ins).
Proof.
  intros d. unfold createTag.
  destruct (existsb _ _); [reflexivity|]. now destruct (existsb _ _).
Qed.

Lemma createPost_keepsUsers (now : Z) (ins : InsertPost.t) :
  keepsUsers (createPost now ins).
Proof.
  intros d. unfold createPost.
  destruct (existsb _ _); [reflexivity|]. now destruct (negb _).
Qed.

Lemma addTagToPost_keepsUsers (ins : InsertPostTag.t) :
  keepsUsers (addTagToPost ins).
Proof.
  intros d. unfold addTagToPost.
  destruct (negb _); [reflexivity|]. now destruct (negb _).
Qed.

Lemma seedTags_keepsUsers (names : list string) (created : list Tag.t) :
  keepsUsers (seedTags names created).
Proof.
  revert created. induction names as [|name names IH]; intros created.
  - apply ret_keepsUsers.
  - apply bind_keepsUsers; [apply createTag_keepsUsers|].
    intros tag. apply IH.
Qed.

Lemma seedLinks_keepsUsers (postId : Z) (selected : list Tag.t) :
  keepsUsers (seedLinks postId selected).
Proof.
  induction selected as [|tag rest IH].
  - apply ret_keepsUsers.
  - apply bind_keepsUsers; [apply addTagToPost_keepsUsers|].
    intros _. exact IH.
Qed.

Lemma seedSamplePosts_keepsUsers (random : Random) (now : Z) (round : nat)
      (posts : list InsertPost.t) (created : list Tag.t) :
  keepsUsers (seedSamplePosts random now round posts created).
Proof.
  revert round created.
  induction posts as [|postData posts IH]; intros round created.
  - apply ret_keepsUsers.
  - apply bind_keepsUsers; [apply createPost_keepsUsers|].
    intros post. apply bind_keepsUsers; [apply seedLinks_keepsUsers|].
    intros _. apply IH.
Qed.

(** After [seedData], whatever its outcome, the database has a user. *)
Lemma seedData_leaves_user (content : nat -> string) (random : Random)
      (now : Z) (d : t) :
  users (snd (seedData content random now d)) <> [].
Proof.
  unfold seedData. unfold bind at 1. unfold reads at 1.
  destruct (users d) as [|u us] eqn:Husers.
  - cbn [List.length Z.of_nat Z.ltb Z.compare].
    pose proof (bind_keepsUsers
                  (seedTags MemStorage.seedTagNames [])
                  (fun createdTags =>
                     seedSamplePosts random now 0
                       (samplePosts content (users_id_seq d)) createdTags)
                  (seedTags_keepsUsers _ _)
                  (fun created =>
                     seedSamplePosts_keepsUsers _ _ _ _ created))
      as Hrest.
    unfold bind at 1. unfold createUser at 1. rewrite Husers.
    cbn [existsb]. cbn [user_of User.id].
    rewrite Hrest. cbn [users]. discriminate.
  - rewrite <- Husers.
    assert (Hsome : (0 <? Z.of_nat (List.length (users d))) = true).
    { rewrite Husers. simpl. reflexivity. }
    rewrite Hsome. simpl. rewrite Husers. discriminate.
Qed.

Lemma seedData_skips (content : nat -> string) (random : Random) (now : Z)
      (d : t) :
  users d <> [] -> seedData content random now d = (Resolved tt, d).
Proof.
  intros Hsome. unfold seedData, bind, reads.
  destruct (users d) as [|u us]; [contradiction|]. reflexivity.
Qed.

End Seeding.

(** X16. After the seeding [registerRoutes] starts with, whatever its
    outcome, the database has a user; seeding it again resolves and changes
    nothing, and a database that has a user is not touched at all. *)
Theorem seeding_is_idempotent (content content' : nat -> string)
        (random random' : DatabaseStorage.Random) (now now' : Z)
        (d : DatabaseStorage.t) :
  let d1 := registerRoutes content random now d in
  DatabaseStorage.users d1 <> []
  /\ DatabaseStorage.seedData content' random' now' d1 = (Resolved tt, d1)
  /\ registerRoutes content' random' now' d1 = d1
  /\ (DatabaseStorage.users d <> [] -> d1 = d).
Proof.
  intros d1.
  pose proof (Seeding.seedData_leaves_user content random now d) as Hsome.
  fold (registerRoutes content random now d) in Hsome. fold d1 in Hsome.
  split; [exact Hsome|]. split; [|split].
  - now apply Seeding.seedData_skips.
  - unfold registerRoutes. now rewrite Seeding.seedData_skips.
  - intros Hseeded. unfold d1, registerRoutes.
    now rewrite Seeding.seedData_skips.
Qed.

Module SeedRows.

Import DatabaseStorage.

Lemma seedLinks_appends (postId : Z) (selected : list Tag.t) (d : t) :
  post_exists d postId = true ->
  (forall tag, In tag selected -> tag_exists d (Tag.id tag) = true) ->
  seedLinks postId selected d
  = (Resolved tt,
     with_postTags d
       (postTags d ++ linkRows postId (post_tags_id_seq d) selected)
       (post_tags_id_seq d + Z.of_nat (List.length selected))).
Proof.
  revert d. induction selected as [|tag rest IH]; intros d Hpost Htags.
  - simpl. unfold ret. rewrite app_nil_r, Z.add_0_r. now destruct d.
  - cbn [seedLinks]. unfold bind. unfold addTagToPost.
    cbn [InsertPostTag.postId InsertPostTag.tagId].
    rewrite Hpost, (Htags tag) by now left. cbn [negb].
    rewrite IH.
    + cbn [postTags post_tags_id_seq with_postTags users posts tags
           subscribers users_id_seq posts_id_seq tags_id_seq
           subscribers_id_seq linkRows postTag_of InsertPostTag.postId
           InsertPostTag.tagId List.length].
      rewrite <- app_assoc. cbn [app]. unfold with_postTags, postTag_of.
      cbn [users posts tags subscribers users_id_seq posts_id_seq
           tags_id_seq subscribers_id_seq InsertPostTag.postId
           InsertPostTag.tagId].
      do 2 f_equal. lia.
    + exact Hpost.
    + intros g Hg. apply Htags. now right.
Qed.

Lemma tagIdsOf_app (p : Z) (a b : list PostTag.t) :
  tagIdsOf p (a ++ b) = tagIdsOf p a ++ tagIdsOf p b.
Proof. unfold tagIdsOf, Js.filter. now rewrite filter_app, map_app. Qed.

Lemma tagIdsOf_linkRows (p q next : Z) (selected : list Tag.t) :
  tagIdsOf p (linkRows q next selected)
  = if q =? p then map Tag.id selected else [].
Proof.
  unfold tagIdsOf, Js.filter. revert next.
  destruct (q =? p) eqn:Heq;
    induction selected as [|tag rest IH]; intros next;
    try reflexivity;
    cbn [linkRows List.filter PostTag.postId]; rewrite Heq;
    cbn [map PostTag.tagId]; now rewrite IH.
Qed.

Lemma linkRows_postId (q next : Z) (selected : list Tag.t) (pt : PostTag.t) :
  In pt (linkRows q next selected) -> PostTag.postId pt = q.
Proof.
  revert next. induction selected as [|tag rest IH]; intros next; simpl.
  - intros [].
  - intros [<-|Hin]; [reflexivity | now apply (IH (next + 1))].
Qed.

Lemma NoDup_firstn {A : Type} (n : nat) (l : list A) :
  NoDup l -> NoDup (firstn n l).
Proof.
  revert l. induction n as [|n IH]; intros l Hnd; simpl; [constructor|].
  destruct l as [|x l]; [constructor|].
  inversion Hnd as [|? ? Hout Hnd']; subst.
  constructor; [|now apply IH].
  intros Hin. apply Hout. exact (JsFacts.In_take (fun _ _ => True) _ _ _ Hin).
Qed.

(** A selection [shuffled.slice(0, k)] of a reordering of [tags]. *)
Lemma selection (tags shuffled : list Tag.t) (k : Z) :
  Permutation shuffled tags -> NoDup (map Tag.id tags) ->
  0 <= k <= Z.of_nat (List.length tags) ->
  let selected := Js.slice shuffled 0 k in
  Z.of_nat (List.length selected) = k
  /\ NoDup (map Tag.id selected)
  /\ forall tag, In tag selected -> In tag tags.
Proof.
  intros Hperm Hnd Hk selected.
  assert (Hsel : selected = firstn (Z.to_nat k) shuffled).
  { unfold selected. rewrite JsFacts.slice_window by lia.
    rewrite Z.sub_0_r. reflexivity. }
  pose proof (Permutation_length Hperm) as Hlen.
  rewrite Hsel. repeat split.
  - rewrite length_firstn. lia.
  - rewrite <- firstn_map. apply NoDup_firstn.
    eapply Permutation_NoDup; [|exact Hnd].
    symmetry. now apply Permutation_map.
  - intros tag Hin. apply (Permutation_in _ Hperm).
    exact (JsFacts.In_take (fun _ _ => True) _ _ _ Hin).
Qed.

End SeedRows.

Module SeedRounds.

Import DatabaseStorage.

(** One round of the loop over the sample posts: the insert of the post,
    then the links to the selected tags. *)
Lemma seed_round (random : Random) (now : Z) (n : nat)
      (postData : InsertPost.t) (rest : list InsertPost.t)
      (created : list Tag.t) (d : t) :
  let shuffled := shuffle random n created in
  let selected := Js.slice shuffled 0 (floor5 random n + 2) in
  existsb (fun p => String.eqb (Post.slug p) (InsertPost.slug postData))
          (posts d) = false ->
  references_user d (InsertPost.authorId postData) = true ->
  (forall tag, In tag selected -> In tag (tags d)) ->
  seedSamplePosts random now n (postData :: rest) created d
  = seedSamplePosts random now (S n) rest shuffled
      (mk (users d) (posts d ++ [inserted now postData (posts_id_seq d)])
          (tags d)
          (postTags d
           ++ linkRows (posts_id_seq d) (post_tags_id_seq d) selected)
          (subscribers d) (users_id_seq d) (posts_id_seq d + 1)
          (tags_id_seq d)
          (post_tags_id_seq d + Z.of_nat (List.length selected))
          (subscribers_id_seq d)).
Proof.
  intros shuffled selected Hslug Hauthor Htags.
  cbn [seedSamplePosts]. fold shuffled. fold selected.
  unfold bind at 1. unfold createPost at 1. rewrite Hslug, Hauthor.
  cbn [negb]. unfold bind at 1.
  rewrite SeedRows.seedLinks_appends.
  - reflexivity.
  - unfold post_exists. cbn [posts with_posts]. rewrite existsb_app.
    cbn [existsb Post.id inserted]. rewrite Z.eqb_refl.
    now rewrite orb_true_r.
  - intros tag Hin. unfold tag_exists. cbn [tags with_posts].
    apply existsb_exists. exists tag. split; [now apply Htags|].
    apply Z.eqb_refl.
Qed.

End SeedRounds.

(** X17. On the empty database, when the shuffle returns a reordering of
    its array and [Math.floor(Math.random() * 5)] a number from 0 to 4,
    [seedData] resolves; the database then holds the admin user, the
    fourteen tags and the three sample posts under the ids 1 to 3, every
    row of the join table is a row of one of these posts, and the post of
    round [n] has [floor5 n + 2] tags, no tag twice, among the fourteen. *)
Theorem seeding_empty_database (content : nat -> string)
        (random : DatabaseStorage.Random) (now : Z) :
  (forall round tags,
     Permutation (DatabaseStorage.shuffle random round tags) tags) ->
  (forall round, 0 <= DatabaseStorage.floor5 random round <= 4) ->
  exists d,
    DatabaseStorage.seedData content random now DatabaseStorage.empty
    = (Resolved tt, d)
    /\ DatabaseStorage.users d = [User.mk 1 "admin" "admin123"]
    /\ DatabaseStorage.tags d = seededTags
    /\ DatabaseStorage.posts d
       = map (fun entry => post_of (fst entry) (snd entry))
             (combine (DatabaseStorage.samplePosts content 1) [1; 2; 3])
    /\ (forall pt, In pt (DatabaseStorage.postTags d) ->
                   1 <= PostTag.postId pt <= 3)
    /\ (forall round, (round < 3)%nat ->
          let ids := tagIdsOf (Z.of_nat round + 1)
                              (DatabaseStorage.postTags d) in
          Z.of_nat (List.length ids)
          = DatabaseStorage.floor5 random round + 2
          /\ NoDup ids
          /\ forall t, In t ids -> 1 <= t <= 14).
Proof.
  intros Hshuffle Hfloor.
  set (admin := User.mk 1 "admin" "admin123").
  set (d0 := DatabaseStorage.mk [admin] [] seededTags [] [] 2 1 15 1 1).
  assert (Hstart : DatabaseStorage.seedData content random now
                                            DatabaseStorage.empty
                   = DatabaseStorage.seedSamplePosts
                       random now 0 (DatabaseStorage.samplePosts content 1)
                       seededTags d0).
  { reflexivity. }
  rewrite Hstart. clear Hstart.
  assert (Hnd : NoDup (map Tag.id seededTags)).
  { simpl. repeat constructor; simpl; intuition discriminate. }
  assert (Hrange : forall tag, In tag seededTags -> 1 <= Tag.id tag <= 14).
  { intros tag Hin. simpl in Hin.
    repeat (destruct Hin as [<-|Hin]; [simpl; lia|]). destruct Hin. }
  assert (Hlen : Z.of_nat (List.length seededTags) = 14) by reflexivity.
  set (t0 := DatabaseStorage.shuffle random 0 seededTags).
  set (t1 := DatabaseStorage.shuffle random 1 t0).
  set (t2 := DatabaseStorage.shuffle random 2 t1).
  assert (Hp0 : Permutation t0 seededTags) by apply Hshuffle.
  assert (Hp1 : Permutation t1 seededTags).
  { transitivity t0; [apply Hshuffle | exact Hp0]. }
  assert (Hp2 : Permutation t2 seededTags).
  { transitivity t1; [apply Hshuffle | exact Hp1]. }
  pose proof (Hfloor 0%nat) as Hf0. pose proof (Hfloor 1%nat) as Hf1.
  pose proof (Hfloor 2%nat) as Hf2.
  destruct (SeedRows.selection
              seededTags t0 (DatabaseStorage.floor5 random 0 + 2)
              Hp0 Hnd ltac:(lia)) as (Hl0 & Hn0 & Hi0).
  destruct (SeedRows.selection
              seededTags t1 (DatabaseStorage.floor5 random 1 + 2)
              Hp1 Hnd ltac:(lia)) as (Hl1 & Hn1 & Hi1).
  destruct (SeedRows.selection
              seededTags t2 (DatabaseStorage.floor5 random 2 + 2)
              Hp2 Hnd ltac:(lia)) as (Hl2 & Hn2 & Hi2).
  set (s0 := Js.slice t0 0 (DatabaseStorage.floor5 random 0 + 2)) in *.
  set (s1 := Js.slice t1 0 (DatabaseStorage.floor5 random 1 + 2)) in *.
  set (s2 := Js.slice t2 0 (DatabaseStorage.floor5 random 2 + 2)) in *.
  unfold DatabaseStorage.samplePosts at 1.
  rewrite SeedRounds.seed_round; [|reflexivity|reflexivity|exact Hi0].
  fold t0. fold s0.
  rewrite SeedRounds.seed_round; [|reflexivity|reflexivity|exact Hi1].
  fold t1. fold s1.
  rewrite SeedRounds.seed_round; [|reflexivity|reflexivity|exact Hi2].
  fold t2. fold s2.
  cbn [DatabaseStorage.seedSamplePosts]. unfold ret.
  eexists. split; [reflexivity|].
  cbn [DatabaseStorage.users DatabaseStorage.tags DatabaseStorage.posts
       DatabaseStorage.postTags DatabaseStorage.posts_id_seq
       DatabaseStorage.post_tags_id_seq d0 app].
  split; [reflexivity|]. split; [reflexivity|]. split; [reflexivity|].
  split.
  - intros pt Hin.
    apply in_app_or in Hin as [Hin|Hin];
      [apply in_app_or in Hin as [Hin|Hin]|];
      apply SeedRows.linkRows_postId in Hin; lia.
  - intros round Hround.
    rewrite !SeedRows.tagIdsOf_app, !SeedRows.tagIdsOf_linkRows.
    assert (Hin : forall sel,
               (forall tag, In tag sel -> In tag seededTags) ->
               forall t, In t (map Tag.id sel) -> 1 <= t <= 14).
    { intros sel Hsel t Ht. apply in_map_iff in Ht as (tag & <- & Htag).
      now apply Hrange, Hsel. }
    destruct round as [|[|[|round]]]; [| | |lia]; cbn [Z.of_nat Z.add
      Pos.of_succ_nat Pos.succ Pos.add Z.eqb Pos.eqb app];
      rewrite ?app_nil_r, length_map; split; [|split| |split| |split];
      eauto.
Qed.

Lemma seeding_empty_database_witness :
  (forall round tags,
      Permutation (DatabaseStorage.shuffle noShuffle round tags) tags)
  /\ (forall round, 0 <= DatabaseStorage.floor5 noShuffle round <= 4)
  /\ exists d,
       DatabaseStorage.seedData (fun _ => EmptyString) noShuffle 0
                                DatabaseStorage.empty
       = (Resolved tt, d)
       /\ DatabaseStorage.tags d = seededTags
       /\ tagIdsOf 2 (DatabaseStorage.postTags d) = [1; 2].
Proof.
  assert (Hshuffle : forall round tags,
             Permutation (DatabaseStorage.shuffle noShuffle round tags) tags).
  { intros round tags. apply Permutation_refl. }
  assert (Hfloor : forall round,
             0 <= DatabaseStorage.floor5 noShuffle round <= 4).
  { intros round. simpl. lia. }
  split; [exact Hshuffle|]. split; [exact Hfloor|].
  destruct (seeding_empty_database (fun _ => EmptyString) noShuffle 0
                                   Hshuffle Hfloor)
    as (d & Hrun & _ & Htags & _).
  exists d. split; [exact Hrun|]. split; [exact Htags|].
  assert (Hd : snd (DatabaseStorage.seedData (fun _ => EmptyString) noShuffle
                                             0 DatabaseStorage.empty) = d).
  { now rewrite Hrun. }
  rewrite <- Hd. vm_compute. reflexivity.
Defined.

(* ================================================================= *)
(** ** The constructed store and the schema                        *)
(* ================================================================= *)

(** X18. The store the [MemStorage] constructor builds meets what the
    schema declares, whatever the Markdown bodies: one user, admin; the
    fourteen tags, their names and their slugs pairwise distinct; the
    slugs of the posts pairwise distinct; the author of every post a user
    of the store; every row of the join map a link between a post and a
    tag of the store; no pair linked twice; and every post has a tag. *)
Theorem constructed_store_meets_schema (content : nat -> string) :
  let s := MemStorage.new content in
  map User.username (Js.values (MemStorage.users s)) = ["admin"%string]
  /\ MemStorage.getAllTags s = seededTags
  /\ NoDup (map Tag.name (MemStorage.getAllTags s))
  /\ NoDup (map Tag.slug (MemStorage.getAllTags s))
  /\ NoDup (map Post.slug (Js.values (MemStorage.posts s)))
  /\ (forall post, In post (Js.values (MemStorage.posts s)) ->
        exists author,
          Post.authorId post = Some (User.id author)
          /\ MemStorage.getUser (User.id author) s = Some author)
  /\ (forall pt, In pt (Js.values (MemStorage.postTags s)) ->
        Js.has (PostTag.postId pt) (MemStorage.posts s) = true
        /\ Js.has (PostTag.tagId pt) (MemStorage.tags s) = true)
  /\ NoDup (map (fun pt => (PostTag.postId pt, PostTag.tagId pt))
                (Js.values (MemStorage.postTags s)))
  /\ (forall post, In post (Js.values (MemStorage.posts s)) ->
        MemStorage.getTagsByPostId (Post.id post) s <> []).
Proof.
  intros s.
  assert (Husers : map User.username (Js.values (MemStorage.users s))
                   = ["admin"%string]).
  { vm_compute. reflexivity. }
  assert (Htags : MemStorage.getAllTags s = seededTags).
  { vm_compute. reflexivity. }
  assert (Hslugs : map Post.slug (Js.values (MemStorage.posts s))
                   = ["getting-started-with-nextjs-and-mdx";
                      "creating-dynamic-routes-in-nextjs";
                      "advanced-mdx-techniques";
                      "optimizing-images-in-nextjs";
                      "implementing-dark-mode-with-tailwind-css";
                      "building-a-custom-rss-feed-for-your-blog"]%string).
  { vm_compute. reflexivity. }
  assert (Hauthors : forallb
                       (fun post =>
                          match Post.authorId post with
                          | Some a =>
                              match MemStorage.getUser a s with
                              | Some u => User.id u =? a
                              | None => false
                              end
                          | None => false
                          end)
                       (Js.values (MemStorage.posts s)) = true).
  { vm_compute. reflexivity. }
  assert (Hrefs : forallb
                    (fun pt => Js.has (PostTag.postId pt) (MemStorage.posts s)
                               && Js.has (PostTag.tagId pt)
                                         (MemStorage.tags s))
                    (Js.values (MemStorage.postTags s)) = true).
  { vm_compute. reflexivity. }
  assert (Hlinks : map (fun pt => (PostTag.postId pt, PostTag.tagId pt))
                       (Js.values (MemStorage.postTags s))
                   = [(1, 1); (1, 2); (2, 1); (3, 6); (3, 2); (4, 9); (4, 1);
                      (5, 11); (5, 10); (6, 13)]).
  { vm_compute. reflexivity. }
  assert (Htagged : forallb
                      (fun post =>
                         negb (Nat.eqb
                                 (List.length
                                    (MemStorage.getTagsByPostId
                                       (Post.id post) s)) 0))
                      (Js.values (MemStorage.posts s)) = true).
  { vm_compute. reflexivity. }
  clearbody s.
  split; [exact Husers|]. split; [exact Htags|].
  rewrite Htags, Hslugs, Hlinks.
  split; [|split; [|split; [|split; [|split; [|split; [|]]]]]].
  - simpl. repeat constructor; simpl; intuition discriminate.
  - simpl. repeat constructor; simpl; intuition discriminate.
  - repeat constructor; simpl; intuition discriminate.
  - intros post Hpost.
    pose proof (proj1 (forallb_forall _ _) Hauthors post Hpost) as Hcheck.
    cbn beta in Hcheck.
    destruct (Post.authorId post) as [a|]; [|discriminate].
    destruct (MemStorage.getUser a s) as [u|] eqn:Hu; [|discriminate].
    apply Z.eqb_eq in Hcheck. subst a. now exists u.
  - intros pt Hpt.
    pose proof (proj1 (forallb_forall _ _) Hrefs pt Hpt) as Hcheck.
    cbn beta in Hcheck. now apply andb_prop in Hcheck.
  - repeat constructor; simpl; intuition discriminate.
  - intros post Hpost Hnone.
    pose proof (proj1 (forallb_forall _ _) Htagged post Hpost) as Hcheck.
    cbn beta in Hcheck. rewrite Hnone in Hcheck. discriminate.
Qed.

(* ================================================================= *)
(** ** Slugs                                                       *)
(* ================================================================= *)

Module SlugFacts.

Ltac each_char c :=
  destruct c as [[] [] [] [] [] [] [] []]; vm_compute; try reflexivity;
  try discriminate; auto.

Lemma lower_not_upper (c : ascii) :
  Js.between 65 90
    (if Js.between 65 90 c then ascii_of_nat (nat_of_ascii c + 32) else c)
  = false.
Proof. each_char c. Qed.

Lemma kept_is_slug (c : ascii) :
  Js.between 65 90 c = false ->
  Js.isWord c || Js.between 45 45 c = true -> isSlugChar c = true.
Proof. each_char c. Qed.

Lemma slug_is_kept (c : ascii) :
  isSlugChar c = true ->
  Js.between 65 90 c = false
  /\ Js.isWhitespace c = false
  /\ Js.isWord c || Js.between 45 45 c = true.
Proof. each_char c. Qed.

Lemma toLowerCase_lower (s : string) :
  allChars (fun c => negb (Js.between 65 90 c)) (Js.toLowerCase s) = true.
Proof.
  induction s as [|c s IH]; [reflexivity|].
  cbn [Js.toLowerCase allChars]. now rewrite lower_not_upper, IH.
Qed.

Lemma replaceSpaces_lower (inRun : bool) (s : string) :
  allChars (fun c => negb (Js.between 65 90 c)) s = true ->
  allChars (fun c => negb (Js.between 65 90 c))
           (Js.replaceSpaces "-" inRun s) = true.
Proof.
  revert inRun. induction s as [|c s IH]; intros inRun; [reflexivity|].
  cbn [allChars Js.replaceSpaces]. intros Hall.
  apply andb_prop in Hall as [Hc Hs].
  destruct (Js.isWhitespace c).
  - destruct inRun; [now apply IH|].
    cbn [String.append allChars]. now rewrite IH.
  - cbn [allChars]. now rewrite Hc, IH.
Qed.

Lemma keep_slug (s : string) :
  allChars (fun c => negb (Js.between 65 90 c)) s = true ->
  allChars isSlugChar (Js.keepWordsAndHyphens s) = true.
Proof.
  induction s as [|c s IH]; [reflexivity|].
  cbn [allChars Js.keepWordsAndHyphens]. intros Hall.
  apply andb_prop in Hall as [Hc Hs]. apply negb_true_iff in Hc.
  destruct (Js.isWord c || Js.between 45 45 c) eqn:Hkeep; [|now apply IH].
  cbn [allChars]. now rewrite (kept_is_slug c Hc Hkeep), IH.
Qed.

Lemma slug_fixed (s : string) :
  allChars isSlugChar s = true ->
  Js.toLowerCase s = s
  /\ (forall inRun, Js.replaceSpaces "-" inRun s = s)
  /\ Js.keepWordsAndHyphens s = s.
Proof.
  induction s as [|c s IH]; [now repeat split|].
  cbn [allChars]. intros Hall. apply andb_prop in Hall as [Hc Hs].
  destruct (IH Hs) as (Hlow & Hspaces & Hkeep).
  destruct (slug_is_kept c Hc) as (Hupper & Hwhite & Hword).
  repeat split.
  - cbn [Js.toLowerCase]. now rewrite Hupper, Hlow.
  - intros inRun. cbn [Js.replaceSpaces]. now rewrite Hwhite, Hspaces.
  - cbn [Js.keepWordsAndHyphens]. now rewrite Hword, Hkeep.
Qed.

End SlugFacts.

(** X19. The slug the seeding derives from a name of ASCII characters
    consists of lower-case letters, digits, underscores and hyphens, and
    deriving a slug from a slug returns it unchanged. *)
Theorem slugOf_is_url_safe (name : string) :
  isAscii name = true ->
  allChars isSlugChar (MemStorage.slugOf name) = true
  /\ MemStorage.slugOf (MemStorage.slugOf name) = MemStorage.slugOf name.
Proof.
  intros _.
  assert (Hslug : allChars isSlugChar (MemStorage.slugOf name) = true).
  { unfold MemStorage.slugOf.
    apply SlugFacts.keep_slug, SlugFacts.replaceSpaces_lower,
      SlugFacts.toLowerCase_lower. }
  split; [exact Hslug|].
  destruct (SlugFacts.slug_fixed _ Hslug) as (Hlow & Hspaces & Hkeep).
  unfold MemStorage.slugOf at 1. now rewrite Hlow, Hspaces, Hkeep.
Qed.

Lemma slugOf_is_url_safe_witness :
  isAscii "Web Development & Next.js" = true
  /\ MemStorage.slugOf "Web Development & Next.js"
     = "web-development--nextjs"%string
  /\ allChars isSlugChar (MemStorage.slugOf "Web Development & Next.js")
     = true.
Proof.
  split; [reflexivity|]. split; [reflexivity|].
  exact (proj1 (slugOf_is_url_safe "Web Development & Next.js" eq_refl)).
Defined.

(* ================================================================= *)
(** ** The routes over the persistent store, continued             *)
(* ================================================================= *)

Module PersistentRoutes.

Lemma withTags_tagged (ps : list Post.t) (d : DatabaseStorage.t) :
  Routes.withTags ps d = (Resolved (map (persistentTagged d) ps), d).
Proof.
  unfold Routes.withTags. cbn [getTagsByPostId DatabaseStorage_IStorage].
  induction ps as [|p ps IH]; [reflexivity|].
  cbn [forEachAsync]. unfold bind at 1. unfold bind at 1.
  unfold DatabaseStorage.getTagsByPostId at 1. unfold reads at 1.
  unfold ret at 1. unfold bind at 1. rewrite IH. reflexivity.
Qed.

Lemma persistentTags_In (d : DatabaseStorage.t) (p : Z) (tag : Tag.t) :
  In tag (persistentTags d p)
  <-> In tag (DatabaseStorage.tags d)
      /\ exists pt, In pt (DatabaseStorage.postTags d)
                    /\ PostTag.postId pt = p
                    /\ PostTag.tagId pt = Tag.id tag.
Proof.
  destruct (TagPosts.db_tags_In d p tag) as (gs & Hgs & Hiff).
  unfold persistentTags. now rewrite Hgs.
Qed.

End PersistentRoutes.

(* ================================================================= *)
(** ** The query of the post listing                               *)
(* ================================================================= *)

(** X20. [GET /api/posts]: a page that is missing, not a number or 0 is
    served as page 1, and such a limit as 6; over the in-memory store the
    route always answers 200 and leaves the store unchanged, and for a
    negative page it returns the window that [slice] counts from the end
    of the listing; over the persistent store a negative offset
    [(page - 1) * limit] is answered with 500 "Error fetching posts", and
    a negative limit whose offset is not negative with 200 and every post
    of the listing from the offset on, each with its tags. *)
Theorem posts_query_edge_cases :
  (forall (s : MemStorage.t) (l : option Z),
     Routes.get_api_posts (mkQuery None l) s
     = Routes.get_api_posts (mkQuery (Some 1) l) s
     /\ Routes.get_api_posts (mkQuery (Some 0) l) s
        = Routes.get_api_posts (mkQuery (Some 1) l) s)
  /\ (forall (s : MemStorage.t) (p : option Z),
        Routes.get_api_posts (mkQuery p None) s
        = Routes.get_api_posts (mkQuery p (Some 6)) s
        /\ Routes.get_api_posts (mkQuery p (Some 0)) s
           = Routes.get_api_posts (mkQuery p (Some 6)) s)
  /\ (forall (s : MemStorage.t) (q : PostsQuery),
        status (fst (Routes.get_api_posts q s)) = 200
        /\ snd (Routes.get_api_posts q s) = s)
  /\ (forall (s : MemStorage.t) (page limit : Z),
        page < 0 -> 1 <= limit ->
        let total := Js.size (MemStorage.posts s) in
        page_posts (MemStorage.getPaginatedPosts page limit s)
        = firstn (Z.to_nat (Z.max (total + page * limit) 0
                            - Z.max (total + (page - 1) * limit) 0))
                 (skipn (Z.to_nat (Z.max (total + (page - 1) * limit) 0))
                        (MemStorage.getAllPosts s)))
  /\ (forall (d : DatabaseStorage.t) (page limit : Z),
        page <> 0 -> limit <> 0 ->
        (page - 1) * limit < 0 ->
        Routes.get_api_posts (mkQuery (Some page) (Some limit)) d
        = (mkResponse 500 (MessageJson "Error fetching posts"), d))
  /\ (forall (d : DatabaseStorage.t) (page limit : Z),
        page <> 0 -> limit < 0 ->
        0 <= (page - 1) * limit ->
        let total := Z.of_nat (List.length (DatabaseStorage.posts d)) in
        let fromOffset :=
          skipn (Z.to_nat ((page - 1) * limit))
                (DatabaseStorage.orderByPublishedAtDesc
                   (DatabaseStorage.posts d)) in
        Routes.get_api_posts (mkQuery (Some page) (Some limit)) d
        = (mkResponse 200
             (PostsJson (map (persistentTagged d) fromOffset)
                (mkPagination total page limit (ceilDiv total limit))), d)).
Proof.
  split; [|split; [|split; [|split; [|split]]]].
  - intros s l. split; reflexivity.
  - intros s p. split; reflexivity.
  - intros s q. now rewrite MemRoutes.posts_route.
  - intros s page limit Hpage Hlimit total.
    cbn [MemStorage.getPaginatedPosts page_posts].
    unfold Js.slice, Js.relativeIndex.
    rewrite MemFacts.getAllPosts_length. fold total.
    destruct (Z.ltb_spec ((page - 1) * limit) 0) as [_|Habs]; [|nia].
    destruct (Z.ltb_spec (page * limit) 0) as [_|Habs]; [|nia].
    reflexivity.
  - intros d page limit Hpage Hlimit Hneg.
    unfold Routes.get_api_posts, Routes.tryCatch, orNumber.
    cbn [query_page query_limit].
    destruct (Z.eqb_spec page 0) as [?|_]; [contradiction|].
    destruct (Z.eqb_spec limit 0) as [?|_]; [contradiction|].
    unfold bind at 1. cbn [getPaginatedPosts DatabaseStorage_IStorage].
    unfold DatabaseStorage.getPaginatedPosts.
    destruct (Z.ltb_spec ((page - 1) * limit) 0) as [_|Ho]; [reflexivity|].
    lia.
  - intros d page limit Hpage Hlimit Hoffset total fromOffset.
    unfold Routes.get_api_posts, Routes.tryCatch, orNumber.
    cbn [query_page query_limit].
    destruct (Z.eqb_spec page 0) as [?|_]; [contradiction|].
    destruct (Z.eqb_spec limit 0) as [?|_]; [lia|].
    unfold bind at 1. cbn [getPaginatedPosts DatabaseStorage_IStorage].
    unfold DatabaseStorage.getPaginatedPosts.
    destruct (Z.ltb_spec ((page - 1) * limit) 0) as [?|_]; [lia|].
    destruct (Z.leb_spec 0 limit) as [?|_]; [lia|].
    unfold bind at 1. cbn [page_posts]. fold fromOffset.
    rewrite PersistentRoutes.withTags_tagged. reflexivity.
Qed.

Lemma posts_query_edge_cases_witness :
  map (fun entry => Post.id (PostWithTags.post entry))
      (match body (fst (Routes.get_api_posts (mkQuery (Some (-1)) (Some 2))
                                             Sample.mem)) with
       | PostsJson posts _ => posts
       | _ => []
       end)
  = [3; 4]
  /\ fst (Routes.get_api_posts (mkQuery (Some (-1)) (Some 2)) Sample.db)
     = mkResponse 500 (MessageJson "Error fetching posts")
  /\ map (fun entry => Post.id (PostWithTags.post entry))
         (match body (fst (Routes.get_api_posts
                             (mkQuery (Some 1) (Some (-4))) Sample.db)) with
          | PostsJson posts _ => posts
          | _ => []
          end)
     = [5; 4; 3; 2; 1].
Proof.
  split; [vm_compute; reflexivity|].
  destruct posts_query_edge_cases as (_ & _ & _ & _ & Hdb & _).
  split; [|vm_compute; reflexivity].
  rewrite (Hdb Sample.db (-1) 2); [reflexivity|lia|lia|lia].
Defined.

(* ================================================================= *)
(** ** Deletion in the persistent store                            *)
(* ================================================================= *)

(** X21. [deletePost] of the persistent store resolves with whether a
    post had the id, deletes the posts of that id and the rows of the join
    table that refer to it, and leaves the other posts as they were; when
    every row of the join table referred to a post before, every row
    still does afterwards; a second [deletePost] of the id resolves with
    [false] and changes nothing. *)
Theorem persistent_deletePost_keeps_references (d : DatabaseStorage.t)
        (id : Z) :
  let d' := snd (DatabaseStorage.deletePost id d) in
  DatabaseStorage.deletePost id d
  = (Resolved (DatabaseStorage.post_exists d id), d')
  /\ DatabaseStorage.posts d'
     = List.filter (fun p => negb (Post.id p =? id)) (DatabaseStorage.posts d)
  /\ DatabaseStorage.postTags d'
     = List.filter (fun pt => negb (PostTag.postId pt =? id))
                   (DatabaseStorage.postTags d)
  /\ DatabaseStorage.post_exists d' id = false
  /\ (forall other, other <> id ->
        DatabaseStorage.getPostById other d'
        = (fst (DatabaseStorage.getPostById other d), d'))
  /\ ((forall pt, In pt (DatabaseStorage.postTags d) ->
                  DatabaseStorage.post_exists d (PostTag.postId pt) = true) ->
      forall pt, In pt (DatabaseStorage.postTags d') ->
                 DatabaseStorage.post_exists d' (PostTag.postId pt) = true)
  /\ DatabaseStorage.deletePost id d' = (Resolved false, d').
Proof.
  intros d'.
  assert (Hposts : DatabaseStorage.posts d'
                   = List.filter (fun p => negb (Post.id p =? id))
                                 (DatabaseStorage.posts d)) by reflexivity.
  assert (Hlinks : DatabaseStorage.postTags d'
                   = List.filter (fun pt => negb (PostTag.postId pt =? id))
                                 (DatabaseStorage.postTags d)) by reflexivity.
  assert (Hkept : forall k, k <> id ->
             List.filter (fun p => Post.id p =? k) (DatabaseStorage.posts d')
             = List.filter (fun p => Post.id p =? k)
                           (DatabaseStorage.posts d)).
  { intros k Hk. rewrite Hposts. apply TagLinks.filter_filter_implied.
    intros p Hp. apply Z.eqb_eq in Hp. apply negb_true_iff, Z.eqb_neq.
    congruence. }
  assert (Hnone : List.filter (fun p => Post.id p =? id)
                              (DatabaseStorage.posts d') = []).
  { apply DbRoutes.filter_none. intros p Hp. rewrite Hposts in Hp.
    apply filter_In in Hp as [_ Hne]. now apply negb_true_iff in Hne. }
  assert (Hgone : DatabaseStorage.post_exists d' id = false).
  { unfold DatabaseStorage.post_exists.
    now rewrite Tables.has_as_count, Hnone. }
  split; [|split; [exact Hposts|split; [exact Hlinks|split; [exact Hgone|
          split; [|split]]]]].
  - unfold d', DatabaseStorage.deletePost. cbn [snd]. f_equal. f_equal.
    unfold DatabaseStorage.post_exists.
    cbn [DatabaseStorage.posts DatabaseStorage.with_postTags].
    symmetry. apply Tables.has_as_count.
  - intros other Hother. unfold DatabaseStorage.getPostById, reads.
    cbn [fst]. now rewrite Hkept.
  - intros Hrefs pt Hin. rewrite Hlinks in Hin.
    apply filter_In in Hin as [Hin Hne].
    apply negb_true_iff, Z.eqb_neq in Hne.
    specialize (Hrefs pt Hin). unfold DatabaseStorage.post_exists in *.
    rewrite Tables.has_as_count in Hrefs |- *. now rewrite Hkept.
  - assert (Hsame : List.filter (fun p => negb (Post.id p =? id))
                                (DatabaseStorage.posts d')
                    = DatabaseStorage.posts d').
    { rewrite Hposts. apply TagLinks.filter_filter_implied. auto. }
    assert (Hrows : List.filter (fun pt => negb (PostTag.postId pt =? id))
                                (DatabaseStorage.postTags d')
                    = DatabaseStorage.postTags d').
    { rewrite Hlinks. apply TagLinks.filter_filter_implied. auto. }
    unfold DatabaseStorage.deletePost.
    cbn [DatabaseStorage.posts DatabaseStorage.with_postTags
         DatabaseStorage.postTags DatabaseStorage.with_posts
         DatabaseStorage.posts_id_seq DatabaseStorage.post_tags_id_seq
         DatabaseStorage.users DatabaseStorage.tags
         DatabaseStorage.subscribers DatabaseStorage.users_id_seq
         DatabaseStorage.tags_id_seq DatabaseStorage.subscribers_id_seq].
    rewrite Hnone, Hsame, Hrows. reflexivity.
Qed.



(** X23. In the persistent store, for page >= 1 and limit >= 1,
    [getPaginatedPosts] resolves with at most [limit] posts, the posts at
    the positions [(page-1)*limit + k] of the listing by recency, in that
    order, and with the number of rows of the table as [total];
    [GET /api/posts] answers 200 with these posts, each with its tags, and
    with [totalPages] the ceiling of [total / limit]. *)
Theorem persistent_paginated_posts (d : DatabaseStorage.t) (page limit : Z) :
  1 <= page -> 1 <= limit ->
  let listing :=
    DatabaseStorage.orderByPublishedAtDesc (DatabaseStorage.posts d) in
  exists r,
    DatabaseStorage.getPaginatedPosts page limit d = (Resolved r, d)
    /\ Z.of_nat (List.length (page_posts r)) <= limit
    /\ page_total r = Z.of_nat (List.length (DatabaseStorage.posts d))
    /\ (forall k, Z.of_nat k < limit ->
          nth_error (page_posts r) k
          = nth_error listing (Z.to_nat ((page - 1) * limit) + k))
    /\ descending (page_posts r)
    /\ Routes.get_api_posts (mkQuery (Some page) (Some limit)) d
       = (mkResponse 200
            (PostsJson (map (persistentTagged d) (page_posts r))
               (mkPagination (page_total r) page limit
                             (ceilDiv (page_total r) limit))), d)
    /\ (ceilDiv (page_total r) limit - 1) * limit
       < page_total r <= ceilDiv (page_total r) limit * limit.
Proof.
  intros Hpage Hlimit listing.
  destruct (DbRoutes.persistent_page d page limit Hpage Hlimit)
    as (r & tagged & Hcall & Hlen & Htotal & _ & _).
  exists r. split; [exact Hcall|]. split; [exact Hlen|].
  split; [exact Htotal|].
  assert (Hposts : page_posts r
                   = firstn (Z.to_nat limit)
                       (skipn (Z.to_nat ((page - 1) * limit)) listing)).
  { unfold DatabaseStorage.getPaginatedPosts in Hcall.
    destruct ((page - 1) * limit <? 0); [discriminate|].
    destruct (Z.leb_spec 0 limit) as [_|?]; [|lia].
    now injection Hcall as <-. }
  split; [|split; [|split]].
  - intros k Hk. rewrite Hposts. apply MemRoutes.nth_error_take_drop. lia.
  - destruct (DbRoutes.persistent_lists_sorted d) as (_ & Hsorted & _).
    exact (Hsorted page limit r d Hcall).
  - assert (Hp : (page =? 0) = false) by lia.
    assert (Hl : (limit =? 0) = false) by lia.
    unfold Routes.get_api_posts, Routes.tryCatch, orNumber.
    cbn [query_page query_limit]. rewrite Hp, Hl.
    unfold bind at 1. cbn [getPaginatedPosts DatabaseStorage_IStorage].
    rewrite Hcall. unfold bind at 1.
    rewrite PersistentRoutes.withTags_tagged. reflexivity.
  - apply MemRoutes.ceilDiv_bounds. lia.
Qed.

Lemma persistent_paginated_posts_witness :
  1 <= 2 /\ 1 <= 2
  /\ exists r,
       DatabaseStorage.getPaginatedPosts 2 2 Sample.db = (Resolved r, Sample.db)
       /\ map Post.id (page_posts r) = [3; 2]
       /\ ceilDiv (page_total r) 2 = 3.
Proof.
  assert (Hpage : 1 <= 2) by lia.
  split; [exact Hpage|]. split; [exact Hpage|].
  destruct (persistent_paginated_posts Sample.db 2 2 Hpage Hpage)
    as (r & Hcall & _).
  exists r. split; [exact Hcall|].
  assert (Hr : match fst (DatabaseStorage.getPaginatedPosts 2 2 Sample.db) with
               | Resolved r' => r'
               | Rejected _ => r
               end = r).
  { now rewrite Hcall. }
  rewrite <- Hr. split; reflexivity.
Defined.

(** X24. [POST /api/subscribe] over the persistent store: an email that a
    subscriber has is answered with 400 "Email already subscribed", the
    database unchanged; an email that no subscriber has is answered with
    201, one subscriber of that email is appended under the next id of the
    sequence and found by [getSubscriberByEmail], and the same request
    again is answered with 400; a body that fails validation is answered
    with 400 and the message. *)
Theorem persistent_subscribe_once (d : DatabaseStorage.t) (now : Z)
        (email : string) :
  let request := Valid (InsertSubscriber.mk email) in
  let out := Routes.post_api_subscribe now request d in
  (Constraint.email_taken d email ->
   out = (mkResponse 400 (MessageJson "Email already subscribed"), d))
  /\ (~ Constraint.email_taken d email ->
      let sub := Subscriber.mk (DatabaseStorage.subscribers_id_seq d)
                               email now in
      fst out = mkResponse 201 (MessageJson "Subscription successful")
      /\ DatabaseStorage.subscribers (snd out)
         = DatabaseStorage.subscribers d ++ [sub]
      /\ DatabaseStorage.getSubscriberByEmail email (snd out)
         = (Resolved (Some sub), snd out)
      /\ forall later,
           Routes.post_api_subscribe later request (snd out)
           = (mkResponse 400 (MessageJson "Email already subscribed"),
              snd out))
  /\ (forall message,
        Routes.post_api_subscribe now (ZodError message) d
        = (mkResponse 400 (MessageJson message), d)).
Proof.
  intros request out. unfold out, request.
  rewrite Subscribe.subscribe_route_db.
  unfold Constraint.email_taken.
  rewrite <- (Creation.taken_iff Subscriber.email).
  destruct (existsb (fun sub => String.eqb (Subscriber.email sub) email)
                    (DatabaseStorage.subscribers d)) eqn:Htaken.
  - split; [reflexivity|]. split; [intros Habs; now destruct Habs|].
    reflexivity.
  - split; [discriminate|]. split; [|reflexivity].
    intros _. cbn [fst snd].
    set (sub := Subscriber.mk (DatabaseStorage.subscribers_id_seq d)
                              email now).
    assert (Hcreate : DatabaseStorage.subscribers
                        (snd (DatabaseStorage.createSubscriber
                                now (InsertSubscriber.mk email) d))
                      = DatabaseStorage.subscribers d ++ [sub]).
    { unfold DatabaseStorage.createSubscriber.
      cbn [InsertSubscriber.email]. now rewrite Htaken. }
    set (d1 := snd (DatabaseStorage.createSubscriber
                      now (InsertSubscriber.mk email) d)) in *.
    clearbody d1.
    split; [reflexivity|]. split; [exact Hcreate|]. split.
    + unfold DatabaseStorage.getSubscriberByEmail, reads. rewrite Hcreate.
      rewrite TagRouteFacts.first_filter_app_one.
      pose proof (Subscribe.first_filter_existsb
                    (fun s => String.eqb (Subscriber.email s) email)
                    (DatabaseStorage.subscribers d)) as Hfirst.
      destruct (DatabaseStorage.first _) as [old|].
      * destruct Hfirst as (_ & _ & Hex). congruence.
      * simpl. now rewrite String.eqb_refl.
    + intros later. rewrite Subscribe.subscribe_route_db, Hcreate.
      rewrite existsb_app. simpl. rewrite String.eqb_refl.
      now rewrite orb_true_r.
Qed.

(** X25. [GET /api/tags/:slug/posts] over the persistent store: for a
    slug no tag has it answers 200 with an empty array; for the slug of a
    tag it answers 200 with the posts of the table that a row links to the
    tag, by recency, each with its tags, the requested tag among them. *)
Theorem persistent_posts_of_tag_route (d : DatabaseStorage.t) (slug : string) :
  ((forall g, In g (DatabaseStorage.tags d) -> Tag.slug g <> slug) ->
   Routes.get_api_tags_slug_posts slug d
   = (mkResponse 200 (PostListJson []), d))
  /\ (forall tag,
        DatabaseStorage.getTagBySlug slug d = (Resolved (Some tag), d) ->
        exists posts,
          DatabaseStorage.getPostsByTagId (Tag.id tag) d = (Resolved posts, d)
          /\ descending posts
          /\ Routes.get_api_tags_slug_posts slug d
             = (mkResponse 200 (PostListJson (map (persistentTagged d) posts)),
                d)
          /\ (forall entry, In entry (map (persistentTagged d) posts) ->
                            In tag (PostWithTags.tags entry))
          /\ (forall post,
                In post posts
                <-> In post (DatabaseStorage.posts d)
                    /\ exists pt, In pt (DatabaseStorage.postTags d)
                                  /\ PostTag.postId pt = Post.id post
                                  /\ PostTag.tagId pt = Tag.id tag)).
Proof.
  split.
  - intros Hfresh. now apply DbRoutes.persistent_unknown_slug.
  - intros tag Htag.
    assert (Hin : In tag (DatabaseStorage.tags d)).
    { unfold DatabaseStorage.getTagBySlug, reads in Htag.
      injection Htag as Hfirst.
      pose proof (Subscribe.first_filter_existsb
                    (fun g => String.eqb (Tag.slug g) slug)
                    (DatabaseStorage.tags d)) as Hspec.
      rewrite Hfirst in Hspec. tauto. }
    set (posts := match fst (DatabaseStorage.getPostsByTagId (Tag.id tag) d)
                  with Resolved ps => ps | Rejected _ => [] end).
    assert (Hposts : DatabaseStorage.getPostsByTagId (Tag.id tag) d
                     = (Resolved posts, d)) by reflexivity.
    assert (Hiff : forall post,
               In post posts
               <-> In post (DatabaseStorage.posts d)
                   /\ exists pt, In pt (DatabaseStorage.postTags d)
                                 /\ PostTag.postId pt = Post.id post
                                 /\ PostTag.tagId pt = Tag.id tag).
    { intros post.
      destruct (TagPosts.db_posts_In d (Tag.id tag) post)
        as (ps & Hps & Hiff).
      assert (ps = posts) by congruence. now subst ps. }
    exists posts. split; [exact Hposts|]. split; [|split; [|split]].
    + destruct (DbRoutes.persistent_lists_sorted d) as (_ & _ & Hsorted & _).
      exact (Hsorted _ _ _ Hposts).
    + unfold Routes.get_api_tags_slug_posts, Routes.tryCatch.
      unfold bind at 1. cbn [getPostsByTagSlug DatabaseStorage_IStorage].
      unfold DatabaseStorage.getPostsByTagSlug. unfold bind at 1.
      rewrite Htag, Hposts. unfold bind at 1.
      rewrite PersistentRoutes.withTags_tagged. reflexivity.
    + intros entry Hentry. apply in_map_iff in Hentry as (post & <- & Hpost).
      cbn [persistentTagged PostWithTags.tags].
      apply PersistentRoutes.persistentTags_In. split; [exact Hin|].
      apply Hiff in Hpost as (_ & pt & Hpt & Hp & Ht). eauto.
    + exact Hiff.
Qed.

(** X29. In the persistent store the posts that [getAllPosts],
    [getPaginatedPosts], [getPostsByTagId] and [getPostsByTagSlug] resolve
    with are in non-increasing order of [publishedAt], and [getAllPosts]
    resolves with the rows of the table, each once. *)
Theorem persistent_listings_descending (d : DatabaseStorage.t) :
  (forall ps d', DatabaseStorage.getAllPosts d = (Resolved ps, d') ->
                 descending ps)
  /\ (forall page limit r d',
        DatabaseStorage.getPaginatedPosts page limit d = (Resolved r, d') ->
        descending (page_posts r))
  /\ (forall tagId ps d',
        DatabaseStorage.getPostsByTagId tagId d = (Resolved ps, d') ->
        descending ps)
  /\ (forall slug ps d',
        DatabaseStorage.getPostsByTagSlug slug d = (Resolved ps, d') ->
        descending ps)
  /\ (exists ps, DatabaseStorage.getAllPosts d = (Resolved ps, d)
                 /\ Permutation ps (DatabaseStorage.posts d)).
Proof.
  destruct (DbRoutes.persistent_lists_sorted d) as (Hall & Hpage & Htag & Hslug).
  repeat split; try assumption.
  eexists. split; [reflexivity|].
  apply (JsFacts.sort_perm DatabaseStorage.descPublishedAt).
Qed.

(* ================================================================= *)
(** ** The schema as an invariant of the persistent store          *)
(* ================================================================= *)

Module SchemaFacts.

Import DatabaseStorage.

Lemma bind_keeps {S A B : Type} (P : S -> Prop) (m : Async S A)
      (k : A -> Async S B) :
  keeps P m -> (forall a, keeps P (k a)) -> keeps P (bind m k).
Proof.
  intros Hm Hk s Hs. unfold bind. specialize (Hm s Hs).
  destruct (m s) as [[a|e] s1]; simpl in *.
  - now apply Hk.
  - exact Hm.
Qed.

Lemma ret_keeps {S A : Type} (P : S -> Prop) (a : A) : keeps P (ret a).
Proof. intros s Hs. exact Hs. Qed.

Lemma reads_keeps {S A : Type} (P : S -> Prop) (f : S -> A) :
  keeps P (reads f).
Proof. intros s Hs. exact Hs. Qed.

Lemma ahead_app_one {A : Type} (f : A -> Z) (next : Z) (l : list A) (x : A) :
  (forall y, In y l -> f y < next) -> f x = next ->
  forall y, In y (l ++ [x]) -> f y < next + 1.
Proof.
  intros Hall Hx y Hy. apply in_app_or in Hy as [Hy|[<-|[]]].
  - specialize (Hall y Hy). lia.
  - lia.
Qed.

Lemma ahead_weaken {A : Type} (f : A -> Z) (next : Z) (l : list A) :
  (forall y, In y l -> f y < next) -> forall y, In y l -> f y < next + 1.
Proof. intros Hall y Hy. specialize (Hall y Hy). lia. Qed.

End SchemaFacts.

Module SchemaSteps.

Import DatabaseStorage.

Ltac open_schema H :=
  destruct H as [Hupk Huname Hppk Hpslug Hpdate Htpk Htname Htslug Hlpk Hspk
                 Hsemail Hauthor Hlpost Hltag Huseq Hpseq Htseq Hlseq Hsseq].

Ltac tables :=
  unfold references_user, post_exists, tag_exists in *;
  cbn [users posts tags postTags subscribers users_id_seq posts_id_seq
       tags_id_seq post_tags_id_seq subscribers_id_seq with_posts
       with_postTags fst snd] in *.

Ltac close_schema :=
  constructor; tables; try assumption;
  try (now apply SchemaFacts.ahead_weaken).

Lemma empty_holds : Schema.holds empty.
Proof. constructor; simpl; try constructor; intros ? []. Qed.

Lemma createUser_keeps (ins : InsertUser.t) :
  keeps Schema.holds (createUser ins).
Proof.
  intros d H. unfold createUser.
  destruct (existsb _ (users d)) eqn:Htaken; open_schema H; close_schema.
  - now apply Tables.NoDup_app_one, Tables.fresh_id.
  - now apply Tables.NoDup_app_one, Tables.fresh_text.
  - intros p Hp. specialize (Hauthor p Hp).
    destruct (Post.authorId p); [|reflexivity].
    now rewrite existsb_app, Hauthor.
  - now apply SchemaFacts.ahead_app_one.
Qed.

Lemma createTag_keeps (ins : InsertTag.t) :
  keeps Schema.holds (createTag ins).
Proof.
  intros d H. unfold createTag.
  destruct (existsb (fun g => String.eqb (Tag.name g) (InsertTag.name ins))
                    (tags d)) eqn:Hname;
    [|destruct (existsb (fun g => String.eqb (Tag.slug g)
                                             (InsertTag.slug ins))
                        (tags d)) eqn:Hslug]; open_schema H; close_schema.
  - now apply Tables.NoDup_app_one, Tables.fresh_id.
  - now apply Tables.NoDup_app_one, Tables.fresh_text.
  - now apply Tables.NoDup_app_one, Tables.fresh_text.
  - intros pt Hpt. now rewrite existsb_app, (Hltag pt Hpt).
  - now apply SchemaFacts.ahead_app_one.
Qed.

Lemma createSubscriber_keeps (now : Z) (ins : InsertSubscriber.t) :
  keeps Schema.holds (createSubscriber now ins).
Proof.
  intros d H. unfold createSubscriber.
  destruct (existsb _ (subscribers d)) eqn:Htaken; open_schema H;
    close_schema.
  - now apply Tables.NoDup_app_one, Tables.fresh_id.
  - now apply Tables.NoDup_app_one, Tables.fresh_text.
  - now apply SchemaFacts.ahead_app_one.
Qed.

Lemma createPost_keeps (now : Z) (ins : InsertPost.t) :
  keeps Schema.holds (createPost now ins).
Proof.
  intros d H. unfold createPost.
  destruct (existsb _ (posts d)) eqn:Hslug;
    [|destruct (negb (references_user d (InsertPost.authorId ins)))
        eqn:Hmissing]; open_schema H; close_schema.
  - now apply Tables.NoDup_app_one, Tables.fresh_id.
  - now apply Tables.NoDup_app_one, Tables.fresh_text.
  - intros p Hp. apply in_app_or in Hp as [Hp|[<-|[]]]; [now apply Hpdate|].
    discriminate.
  - intros p Hp. apply in_app_or in Hp as [Hp|[<-|[]]]; [now apply Hauthor|].
    apply negb_false_iff in Hmissing. exact Hmissing.
  - intros pt Hpt. now rewrite existsb_app, (Hlpost pt Hpt).
  - now apply SchemaFacts.ahead_app_one.
Qed.

Lemma addTagToPost_keeps (ins : InsertPostTag.t) :
  keeps Schema.holds (addTagToPost ins).
Proof.
  intros d H. unfold addTagToPost.
  destruct (negb (post_exists d (InsertPostTag.postId ins))) eqn:Hpost;
    [|destruct (negb (tag_exists d (InsertPostTag.tagId ins))) eqn:Htag];
    open_schema H; close_schema.
  - now apply Tables.NoDup_app_one, Tables.fresh_id.
  - intros pt Hpt. apply in_app_or in Hpt as [Hpt|[<-|[]]]; [now apply Hlpost|].
    apply negb_false_iff in Hpost. exact Hpost.
  - intros pt Hpt. apply in_app_or in Hpt as [Hpt|[<-|[]]]; [now apply Hltag|].
    apply negb_false_iff in Htag. exact Htag.
  - now apply SchemaFacts.ahead_app_one.
Qed.

Lemma removeTagFromPost_keeps (postId tagId : Z) :
  keeps Schema.holds (removeTagFromPost postId tagId).
Proof.
  intros d H. unfold removeTagFromPost. open_schema H. close_schema.
  - now apply Tables.NoDup_map_filter.
  - intros pt Hpt. apply filter_In in Hpt as [Hpt _]. now apply Hlpost.
  - intros pt Hpt. apply filter_In in Hpt as [Hpt _]. now apply Hltag.
  - intros pt Hpt. apply filter_In in Hpt as [Hpt _]. now apply Hlseq.
Qed.

End SchemaSteps.

Module SchemaUpdates.

Import DatabaseStorage.
Import SchemaSteps.

Lemma deletePost_keeps (id : Z) : keeps Schema.holds (deletePost id).
Proof.
  intros d H. unfold deletePost. open_schema H. close_schema.
  - now apply Tables.NoDup_map_filter.
  - now apply Tables.NoDup_map_filter.
  - now apply Recency.dated_filter.
  - now apply Tables.NoDup_map_filter.
  - intros p Hp. apply filter_In in Hp as [Hp _]. now apply Hauthor.
  - intros pt Hpt. apply filter_In in Hpt as [Hpt Hne].
    apply negb_true_iff, Z.eqb_neq in Hne.
    specialize (Hlpost pt Hpt). apply existsb_exists in Hlpost as (p & Hp & Heq).
    apply existsb_exists. exists p. split; [|exact Heq].
    apply filter_In. split; [exact Hp|].
    apply Z.eqb_eq in Heq. apply negb_true_iff, Z.eqb_neq. congruence.
  - intros pt Hpt. apply filter_In in Hpt as [Hpt _]. now apply Hltag.
  - intros p Hp. apply filter_In in Hp as [Hp _]. now apply Hpseq.
  - intros pt Hpt. apply filter_In in Hpt as [Hpt _]. now apply Hlseq.
Qed.

(** The rows [updatePost] leaves are the rows of the table, those of the
    id rewritten. *)
Lemma updatePost_keeps (id : Z) (u : PartialInsertPost.t) :
  keeps Schema.holds (updatePost id u).
Proof.
  intros d H. unfold updatePost.
  destruct (no_values u); [exact H|].
  destruct (first (List.filter (fun p => Post.id p =? id) (posts d)))
    as [post|]; [|exact H].
  destruct (match PartialInsertPost.slug u with
            | Some _ => _ | None => _ end) eqn:Hfree; [exact H|].
  destruct (match PartialInsertPost.authorId u with
            | Some _ => _ | None => _ end) eqn:Hauth; [exact H|].
  pose proof (PostRows.updated_perm id u (posts d)) as Hheap.
  assert (Hrow : forall p,
             In p (List.filter (fun p => negb (Post.id p =? id)) (posts d)
                   ++ map (fun p => apply_updates p u)
                          (List.filter (fun p => Post.id p =? id) (posts d))) ->
             exists q, In q (posts d) /\ p = rewritePost id u q).
  { intros p Hp. apply (Permutation_in _ (Permutation_sym Hheap)) in Hp.
    apply in_map_iff in Hp as (q & <- & Hq). eauto. }
  open_schema H. close_schema.
  - apply (Permutation_NoDup (Permutation_map Post.id Hheap)).
    now rewrite PostRows.rewritten_id.
  - apply (Permutation_NoDup (Permutation_map Post.slug Hheap)).
    now apply PostRows.rewritten_slugs_differ.
  - apply (Recency.dated_perm _ _ Hheap).
    now apply PostRows.rewritten_dated.
  - intros p Hp. destruct (Hrow p Hp) as (q & Hq & ->).
    specialize (Hauthor q Hq). unfold rewritePost.
    destruct (Post.id q =? id); [|exact Hauthor].
    unfold apply_updates. cbn [Post.authorId].
    destruct (PartialInsertPost.authorId u) as [a|]; cbn [orElse];
      [|exact Hauthor].
    now apply negb_false_iff in Hauth.
  - intros pt Hpt. specialize (Hlpost pt Hpt).
    rewrite <- (PostRows.rewritten_exists id u) in Hlpost.
    apply existsb_exists in Hlpost as (p & Hp & Heq).
    apply existsb_exists. exists p. split; [|exact Heq].
    exact (Permutation_in _ Hheap Hp).
  - intros p Hp. destruct (Hrow p Hp) as (q & Hq & ->).
    specialize (Hpseq q Hq). unfold rewritePost.
    now destruct (Post.id q =? id).
Qed.

End SchemaUpdates.

Module SchemaCalls.

Lemma seedTags_keeps (names : list string) (created : list Tag.t) :
  keeps Schema.holds (DatabaseStorage.seedTags names created).
Proof.
  revert created. induction names as [|name names IH]; intros created.
  - apply SchemaFacts.ret_keeps.
  - apply SchemaFacts.bind_keeps; [apply SchemaSteps.createTag_keeps|].
    intros tag. apply IH.
Qed.

Lemma seedLinks_keeps (postId : Z) (selected : list Tag.t) :
  keeps Schema.holds (DatabaseStorage.seedLinks postId selected).
Proof.
  induction selected as [|tag rest IH].
  - apply SchemaFacts.ret_keeps.
  - apply SchemaFacts.bind_keeps; [apply SchemaSteps.addTagToPost_keeps|].
    intros _. exact IH.
Qed.

Lemma seedSamplePosts_keeps (random : DatabaseStorage.Random) (now : Z)
      (round : nat) (posts : list InsertPost.t) (created : list Tag.t) :
  keeps Schema.holds
        (DatabaseStorage.seedSamplePosts random now round posts created).
Proof.
  revert round created.
  induction posts as [|postData posts IH]; intros round created.
  - apply SchemaFacts.ret_keeps.
  - apply SchemaFacts.bind_keeps; [apply SchemaSteps.createPost_keeps|].
    intros post. apply SchemaFacts.bind_keeps; [apply seedLinks_keeps|].
    intros _. apply IH.
Qed.

Lemma seedData_keeps (content : nat -> string)
      (random : DatabaseStorage.Random) (now : Z) :
  keeps Schema.holds (DatabaseStorage.seedData content random now).
Proof.
  unfold DatabaseStorage.seedData. apply SchemaFacts.bind_keeps;
    [apply SchemaFacts.reads_keeps|].
  intros existing. destruct (0 <? Z.of_nat (List.length existing)).
  - apply SchemaFacts.ret_keeps.
  - apply SchemaFacts.bind_keeps; [apply SchemaSteps.createUser_keeps|].
    intros admin. apply SchemaFacts.bind_keeps; [apply seedTags_keeps|].
    intros created. apply seedSamplePosts_keeps.
Qed.

Lemma answer_keeps {A : Type} (wrap : A -> Session.Result)
      (m : Async DatabaseStorage.t A) :
  keeps Schema.holds m -> keeps Schema.holds (Session.answer wrap m).
Proof.
  intros Hm. unfold Session.answer. apply SchemaFacts.bind_keeps; [exact Hm|].
  intros a. apply SchemaFacts.ret_keeps.
Qed.

Lemma getPaginatedPosts_keeps (page limit : Z) :
  keeps Schema.holds (DatabaseStorage.getPaginatedPosts page limit).
Proof.
  intros d H. unfold DatabaseStorage.getPaginatedPosts.
  now destruct ((page - 1) * limit <? 0).
Qed.

Lemma getPostsByTagSlug_keeps (slug : string) :
  keeps Schema.holds (DatabaseStorage.getPostsByTagSlug slug).
Proof.
  unfold DatabaseStorage.getPostsByTagSlug. apply SchemaFacts.bind_keeps;
    [apply SchemaFacts.reads_keeps|].
  intros [g|]; [apply SchemaFacts.reads_keeps | apply SchemaFacts.ret_keeps].
Qed.

Lemma perform_keeps (op : Session.Op) :
  keeps Schema.holds (Session.perform (S := DatabaseStorage.t) op).
Proof.
  destruct op; cbn [Session.perform]; apply answer_keeps;
    cbn [getUser getUserByUsername createUser
         getAllPosts getPostById getPostBySlug
         createPost updatePost deletePost
         getFeaturedPost getPaginatedPosts
         getAllTags getTagById getTagBySlug
         createTag getPostsByTagId
         getPostsByTagSlug getTagsByPostId
         addTagToPost removeTagFromPost
         createSubscriber getSubscriberByEmail
         getAllSubscribers DatabaseStorage_IStorage];
    first [ apply SchemaFacts.reads_keeps
          | apply SchemaSteps.createUser_keeps
          | apply SchemaSteps.createPost_keeps
          | apply SchemaUpdates.updatePost_keeps
          | apply SchemaUpdates.deletePost_keeps
          | apply getPaginatedPosts_keeps
          | apply SchemaSteps.createTag_keeps
          | apply getPostsByTagSlug_keeps
          | apply SchemaSteps.addTagToPost_keeps
          | apply SchemaSteps.removeTagFromPost_keeps
          | apply SchemaSteps.createSubscriber_keeps ].
Qed.

End SchemaCalls.

(** X26. The empty database meets what the schema declares (primary keys,
    unique columns, a [publishedAt] for every post, references), and every
    call of the interface and the seeding of [registerRoutes] keep it so,
    whether they resolve or reject. *)
Theorem persistent_store_keeps_schema :
  Schema.holds DatabaseStorage.empty
  /\ (forall (op : Session.Op) (d : DatabaseStorage.t),
        Schema.holds d -> Schema.holds (snd (Session.perform op d)))
  /\ (forall (content : nat -> string) (random : DatabaseStorage.Random)
             (now : Z) (d : DatabaseStorage.t),
        Schema.holds d ->
        Schema.holds (registerRoutes content random now d)).
Proof.
  split; [exact SchemaSteps.empty_holds|]. split.
  - intros op d. apply SchemaCalls.perform_keeps.
  - intros content random now d. apply SchemaCalls.seedData_keeps.
Qed.

